(** * ng-drive: delta sync engine, sync task, progress sampler and vault

    A shallow embedding of the Go sources of the desktop backend:
    - [Delta]    : delta/types.go, delta/watcher.go, the delta store and
                   the delta service;
    - [Rclone]   : the one-way [Sync] task with its scope filter;
    - [Progress] : [createStatusFromStats] and the [startProgress] sampler;
    - [Auth]     : the password vault ([Unlock], [ChangePassword]) and the
                   AES-GCM envelope ([EncryptData], [DecryptData]).

    Go maps are [gmap]s, slices are lists, [error] results are a sum type.
    Calls into rclone, the operating system and the Go crypto packages are
    taken as explicit oracles so that every branch of the source stays
    reachable in the model. *)

From Stdlib Require Import ZArith Lia Floats Uint63.
From Stdlib Require Import Strings.Byte Strings.Ascii DecimalString.
From stdpp Require Import gmap strings list.

Local Open Scope string_scope.
Local Open Scope Z_scope.
Local Open Scope list_scope.
#[local] Set Warnings "-clear-no-such-hyp".

(** ** Go prelude *)

(** A Go [error] value: only its message is kept. *)
Definition error : Type := string.

(** A [(T, error)] result: exactly one of the two is meaningful. *)
Inductive result (A : Type) : Type :=
| Ok (a : A)
| Err (e : error).
Arguments Ok {A} a.
Arguments Err {A} e.

(** [strconv.Itoa] *)
Definition Itoa (n : Z) : string := NilZero.string_of_int (Z.to_int n).

(** A Go [int] on a 64-bit platform: the sum of two of them wraps
    around. *)
Definition minInt : Z := - 2 ^ 63.
Definition maxInt : Z := 2 ^ 63 - 1.
Definition wrapInt (n : Z) : Z := (n + 2 ^ 63) mod 2 ^ 64 - 2 ^ 63.

(** [float64(n)] for an [int64]: the nearest float, ties to even. *)
Definition toFloat (n : Z) : float :=
  let magnitude (m : Z) : float :=
    if m =? 2 ^ 63
    then PrimFloat.mul 2 (PrimFloat.of_uint63 (Uint63.of_Z (2 ^ 62)))
    else PrimFloat.of_uint63 (Uint63.of_Z m) in
  if n <? 0 then PrimFloat.opp (magnitude (- n)) else magnitude n.

(** [len(xs)] as a Go [int]. *)
Definition len {A} (xs : list A) : Z := Z.of_nat (length xs).

(** [time.Time] as nanoseconds since the epoch, [time.Duration] as
    nanoseconds; [Time.Sub] saturates at the bounds of [int64]. *)
Definition Time : Type := Z.
Definition Duration : Type := Z.
Definition Second : Duration := 1000000000.
Definition Minute : Duration := 60 * Second.
Definition Hour : Duration := 60 * Minute.
Definition maxDuration : Duration := 2 ^ 63 - 1.
Definition minDuration : Duration := - 2 ^ 63.

Definition Sub (t u : Time) : Duration :=
  let d := t - u in
  if d >? maxDuration then maxDuration
  else if d <? minDuration then minDuration
  else d.

(** [time.Since(t)] read at the instant [now]. *)
Definition Since (now t : Time) : Duration := Sub now t.

(** [strings.Index]: position of the first occurrence of [sep], or -1. *)
Fixpoint Index_from (i : Z) (s sep : string) : Z :=
  if String.prefix sep s then i
  else match s with
       | EmptyString => -1
       | String _ s' => Index_from (i + 1) s' sep
       end.

Definition Index (s sep : string) : Z := Index_from 0 s sep.

(** A buffered channel: capacity, queued values, closed flag.  [trySend] is
    the [select { case ch <- v: default: }] idiom. *)
Record Chan (A : Type) : Type := MkChan {
  cap : nat;
  buf : list A;
  closed : bool;
}.
Arguments MkChan {A} cap buf closed.
Arguments cap {A} c.
Arguments buf {A} c.
Arguments closed {A} c.

Definition trySend {A} (c : Chan A) (v : A) : Chan A * bool :=
  if (length (buf c) <? cap c)%nat
  then (MkChan (cap c) (buf c ++ [v]) (closed c), true)
  else (c, false).

(** ** The delta package *)

Module Delta.

(** MaxDeltaSyncsBeforeFullSync, MaxTimeBetweenFullSyncs,
    DefaultPollInterval, MaxChangesBeforeFallback. *)
Definition MaxDeltaSyncsBeforeFullSync : Z := 50.
Definition MaxTimeBetweenFullSyncs : Duration := 24 * Hour.
Definition DefaultPollInterval : Duration := 1 * Minute.
Definition MaxChangesBeforeFallback : Z := 5000.

(** [fs.EntryType] *)
Inductive EntryType : Type := EntryDirectory | EntryObject.

#[global] Instance EntryType_eq_dec : EqDecision EntryType.
Proof. solve_decision. Defined.

Inductive ChangeType : Type := ChangeModified | ChangeDeleted.

Record FileChange : Type := MkFileChange {
  Path : string;
  fcEntryType : EntryType;
  fcType : ChangeType;
  DetectedAt : Time;
}.

Record ChangeSet : Type := MkChangeSet {
  cs_RemoteKey : string;
  Changes : list FileChange;
  HasChanges : bool;
}.

Record DeltaState : Type := MkDeltaState {
  RemoteKey : string;
  Provider : string;
  IsWatching : bool;
  LastFullSync : option Time;
  DeltaCount : Z;
}.

(** What the engine reads of an rclone [fs.Fs]: its name and whether
    [Features().ChangeNotify] is non-nil. *)
Record Fs : Type := MkFs {
  Name : string;
  ChangeNotify : bool;
}.

(** *** watcher.go *)

(** The [ctx]/[cancel] pair is left out; [pollCh] keeps the intervals sent
    on the poll channel ([None] for a nil channel). *)
Record Watcher : Type := MkWatcher {
  remoteKey : string;
  remoteFs : Fs;
  pollCh : option (list Duration);
  changes : list FileChange;
  running : bool;
}.

Definition NewWatcher (key : string) (f : Fs) : Watcher :=
  MkWatcher key f None [] false.

Definition Start (w : Watcher) (pollInterval : Duration) : Watcher :=
  if running w then w
  else if negb (ChangeNotify (remoteFs w)) then w
  else MkWatcher (remoteKey w) (remoteFs w) (Some [pollInterval]) [] true.

Definition notifyCallback (w : Watcher) (now : Time) (path : string)
    (entryType : EntryType) : Watcher :=
  MkWatcher (remoteKey w) (remoteFs w) (pollCh w)
    (changes w ++ [MkFileChange path entryType ChangeModified now])
    (running w).

Definition Watcher_HasChanges (w : Watcher) : bool := 0 <? len (changes w).

Definition Watcher_DrainChanges (w : Watcher) : list FileChange * Watcher :=
  if len (changes w) =? 0 then ([], w)
  else (changes w,
        MkWatcher (remoteKey w) (remoteFs w) (pollCh w) [] (running w)).

Definition Watcher_RestoreChanges (w : Watcher) (cs : list FileChange) : Watcher :=
  if len cs =? 0 then w
  else MkWatcher (remoteKey w) (remoteFs w) (pollCh w) (cs ++ changes w)
         (running w).

Definition IsRunning (w : Watcher) : bool := running w.

Definition Stop (w : Watcher) : Watcher :=
  if negb (running w) then w
  else MkWatcher (remoteKey w) (remoteFs w) None (changes w) false.

(** *** The delta store *)

(** The table [delta_state] behind [DeltaStore], one row per [remote_key],
    each row as [GetState] scans it ([last_full_sync] is [None] for a NULL
    column or a text that [time.Parse] rejects).  [available] is the
    outcome of [getDB] and of the statement: when it is false the call
    returns the error and the table is as it was. *)
Record DeltaStore : Type := MkDeltaStore {
  rows : gmap string DeltaState;
  available : bool;
}.

Definition dbError : error := "delta store unavailable".

(** [time.Now().UTC().Format(time.RFC3339)] read back by [time.Parse]:
    the instant cut down to the whole second. *)
Definition wholeSecond (t : Time) : Time := t / Second * Second.

(** [SELECT ... WHERE remote_key = ?]: [nil, nil] for [sql.ErrNoRows]. *)
Definition GetState (s : DeltaStore) (key : string)
    : result (option DeltaState) :=
  if available s then Ok (rows s !! key) else Err dbError.

Definition bump (st : DeltaState) : DeltaState :=
  MkDeltaState (RemoteKey st) (Provider st) (IsWatching st) (LastFullSync st)
    (DeltaCount st + 1).

(** [UPDATE ... SET delta_count = delta_count + 1 WHERE remote_key = ?]:
    no row, no change and no error. *)
Definition IncrementDeltaCount (s : DeltaStore) (key : string)
    : DeltaStore * option error :=
  if available s
  then (MkDeltaStore (alter bump key (rows s)) true, None)
  else (s, Some dbError).

(** [INSERT ... ON CONFLICT(remote_key) DO UPDATE]: the row is replaced,
    its counter is 0 and its [last_full_sync] is the text of [now], which
    keeps whole seconds only. *)
Definition RecordFullSync (s : DeltaStore) (now : Time) (key provider : string)
    (isWatching : bool) : DeltaStore * option error :=
  if available s
  then (MkDeltaStore
          (<[key := MkDeltaState key provider isWatching
                      (Some (wholeSecond now)) 0]> (rows s))
          true, None)
  else (s, Some dbError).

Definition setWatching (b : bool) (st : DeltaState) : DeltaState :=
  MkDeltaState (RemoteKey st) (Provider st) b (LastFullSync st) (DeltaCount st).

(** [UPDATE ... SET is_watching = ? WHERE remote_key = ?] *)
Definition SetWatching (s : DeltaStore) (key : string) (b : bool)
    : DeltaStore * option error :=
  if available s
  then (MkDeltaStore (alter (setWatching b) key (rows s)) true, None)
  else (s, Some dbError).

(** *** The delta service *)

Record DeltaService : Type := MkDeltaService {
  store : DeltaStore;
  watchers : gmap string Watcher;
}.

Definition getProviderType (remoteFs : Fs) : string :=
  if ChangeNotify remoteFs then Name remoteFs else "none".

Definition EnsureWatcher (d : DeltaService) (remoteFs : Fs) (key : string)
    : DeltaService :=
  if String.eqb (getProviderType remoteFs) "none" then d
  else
    match watchers d !! key with
    | Some w =>
        if IsRunning w then d
        else
          let w' := Start (NewWatcher key remoteFs) DefaultPollInterval in
          MkDeltaService (fst (SetWatching (store d) key true))
            (<[key := w']> (watchers d))
    | None =>
        let w' := Start (NewWatcher key remoteFs) DefaultPollInterval in
        MkDeltaService (fst (SetWatching (store d) key true))
          (<[key := w']> (watchers d))
    end.

Definition ShouldSkipSync (d : DeltaService) (now : Time) (key : string)
    : bool :=
  match watchers d !! key with
  | None => false
  | Some w =>
      if negb (IsRunning w) then false
      else
        match GetState (store d) key with
        | Err _ => false
        | Ok None => false
        | Ok (Some state) =>
            if DeltaCount state >=? MaxDeltaSyncsBeforeFullSync then false
            else
              match LastFullSync state with
              | Some t =>
                  if Since now t >? MaxTimeBetweenFullSyncs then false
                  else negb (Watcher_HasChanges w)
              | None => negb (Watcher_HasChanges w)
              end
        end
  end.

Definition GetChanges (d : DeltaService) (key : string)
    : option ChangeSet * DeltaService :=
  match watchers d !! key with
  | None => (None, d)
  | Some w =>
      if negb (IsRunning w) then (None, d)
      else
        let '(cs, w') := Watcher_DrainChanges w in
        let d' := MkDeltaService (store d) (<[key := w']> (watchers d)) in
        if len cs =? 0
        then (Some (MkChangeSet key [] false), d')
        else (Some (MkChangeSet key cs true), d')
  end.

Definition RestoreChanges (d : DeltaService) (key : string)
    (cs : list FileChange) : DeltaService :=
  match watchers d !! key with
  | None => d
  | Some w =>
      if negb (IsRunning w) then d
      else MkDeltaService (store d)
             (<[key := Watcher_RestoreChanges w cs]> (watchers d))
  end.

Definition CommitDelta (d : DeltaService) (key : string)
    : DeltaService * option error :=
  let '(s, e) := IncrementDeltaCount (store d) key in
  (MkDeltaService s (watchers d), e).

Definition CommitFullSync (d : DeltaService) (now : Time) (remoteFs : Fs)
    (key : string) : DeltaService * option error :=
  let provider := getProviderType remoteFs in
  let '(d1, isWatching) :=
    if negb (String.eqb provider "none")
    then (EnsureWatcher d remoteFs key, true)
    else (d, false) in
  let '(s, e) := RecordFullSync (store d1) now key provider isWatching in
  (MkDeltaService s (watchers d1), e).

Definition StopAll (d : DeltaService) : DeltaService :=
  MkDeltaService
    (map_fold (fun key _ s => fst (SetWatching s key false))
       (store d) (watchers d))
    ∅.

(** The callback of the watcher registered under [key], as the change
    notifier of that remote invokes it. *)
Definition notify (d : DeltaService) (now : Time) (key path : string)
    (entryType : EntryType) : DeltaService :=
  match watchers d !! key with
  | Some w =>
      if IsRunning w
      then MkDeltaService (store d)
             (<[key := notifyCallback w now path entryType]> (watchers d))
      else d
  | None => d
  end.

Definition NewDeltaService (store : DeltaStore) : DeltaService :=
  MkDeltaService store ∅.

End Delta.

(** ** The dto package: progress samples *)

Module Dto.

Record FileTransferInfo : Type := MkFileTransferInfo {
  ftName : string;
  ftSize : Z;
  ftBytes : Z;
  ftProgress : float;
  ftSpeed : float;
  ftStatus : string;
  ftError : string;
}.

(** [SyncStatusDTO].  [Progress] is a [float64]; [Speed], [ETA] and
    [ElapsedTime] are texts printed from floating-point values, which the
    embedding carries as strings. *)
Record SyncStatusDTO : Type := MkSyncStatusDTO {
  Command : string;
  Status : string;
  Progress : float;
  Speed : string;
  ETA : string;
  ElapsedTime : string;
  Timestamp : Time;
  TotalFiles : Z;
  TotalBytes : Z;
  FilesTransferred : Z;
  BytesTransferred : Z;
  Errors : Z;
  Checks : Z;
  TotalChecks : Z;
  Deletes : Z;
  Renames : Z;
  Transfers : list FileTransferInfo;
  LogMessages : list string;
  DeltaMode : bool;
  DeltaSkipped : bool;
}.

End Dto.

(** ** The rclone package: the sync task *)

Module Rclone.
Import Delta Dto.

(** The rule lists of rclone's [filter.Options] that this package edits. *)
Record FilterOpt : Type := MkFilterOpt {
  IncludeRule : list string;
  ExcludeRule : list string;
}.

(** A compiled [filter.Filter] keeps the options it was built from. *)
Record Filter : Type := MkFilter {
  Opt : FilterOpt;
}.

(** A [context.Context] as the chain of filter configurations installed on
    it, newest first; [filter.ReplaceConfig] derives a child context. *)
Definition Context : Type := list Filter.

Definition ReplaceConfig (ctx : Context) (f : Filter) : Context := f :: ctx.

#[global] Instance FilterOpt_eq_dec : EqDecision FilterOpt.
Proof. solve_decision. Defined.
#[global] Instance Filter_eq_dec : EqDecision Filter.
Proof. solve_decision. Defined.

(** The fields of [models.Profile] read by [Sync]. *)
Record Profile : Type := MkProfile {
  From : string;
  To : string;
  Parallel : Z;
  Bandwidth : Z;
  IncludedPaths : list string;
  ExcludedPaths : list string;
  UseRegex : bool;
}.

(** A change notification delivered to a watcher while a transfer runs. *)
Record Arrival : Type := MkArrival {
  arKey : string;
  arPath : string;
  arEntryType : EntryType;
  arAt : Time;
}.

(** What [utils.RunRcloneWithRetryAndStats] leaves behind: the error of the
    transfer, the samples it offered to the status channel, the instant it
    returned and the notifications the watchers received meanwhile. *)
Record RunOutcome : Type := MkRunOutcome {
  runErr : option error;
  samples : list SyncStatusDTO;
  finishedAt : Time;
  arrived : list Arrival;
}.

(** The collaborators of [Sync] outside this file: rclone's [fs.NewFs],
    [BwLimit.Set], [filter.NewFilter] (which rejects rule lists whose globs
    do not compile), [fsConfig.Reload], and the package's own
    [CopyFilterOpt], [ApplyProfileOptions] and transfer runner. *)
Record Env : Type := MkEnv {
  NewFs : string -> result Fs;
  BwLimitSet : Z -> option error;
  CopyFilterOpt : Context -> FilterOpt;
  compiles : FilterOpt -> bool;
  ApplyProfileOptions : Context -> Profile -> result Context;
  Reload : Context -> option error;
  Run : Context -> Fs -> Fs -> RunOutcome;
}.

Definition NewFilter (env : Env) (opt : FilterOpt) : result Filter :=
  if compiles env opt then Ok (MkFilter opt) else Err "bad glob pattern".

Definition remoteKey (path : string) : string :=
  if negb (Index path ":" =? -1) then path else "local:" +:+ path.

(** The loop of [applyScopeFilter]: [seen] is the set of paths already
    handled, [inc] the include rules built so far. *)
Fixpoint scopeRules (seen : gset string) (inc : list string)
    (cs : list FileChange) : list string :=
  match cs with
  | [] => inc
  | c :: cs' =>
      if bool_decide (Path c ∈ seen) then scopeRules seen inc cs'
      else
        let inc1 :=
          if bool_decide (fcEntryType c = EntryDirectory)
          then inc ++ ["/" +:+ Path c +:+ "/**"]
          else inc in
        scopeRules ({[Path c]} ∪ seen) (inc1 ++ ["/" +:+ Path c]) cs'
  end.

Definition scopeOpt (env : Env) (ctx : Context) (cs : list FileChange)
    : FilterOpt :=
  let filterOpt := CopyFilterOpt env ctx in
  MkFilterOpt (scopeRules ∅ (IncludeRule filterOpt) cs)
    (ExcludeRule filterOpt ++ ["**"]).

Definition applyScopeFilter (env : Env) (ctx : Context)
    (cs : list FileChange) : Context :=
  match NewFilter env (scopeOpt env ctx cs) with
  | Err _ => ctx
  | Ok newFilter => ReplaceConfig ctx newFilter
  end.

Definition skippedStatus (now : Time) : SyncStatusDTO :=
  MkSyncStatusDTO "sync_status" "completed" 100 "0 B/s" "-" "" now
    0 0 0 0 0 0 0 0 0 [] [] true true.

Definition sendSkippedStatus (now : Time)
    (outStatus : option (Chan SyncStatusDTO)) : option (Chan SyncStatusDTO) :=
  match outStatus with
  | None => None
  | Some ch => Some (fst (trySend ch (skippedStatus now)))
  end.

(** The rule lists [Sync] builds from the profile. *)
Definition profileRules (useRegex : bool) (paths : list string) : list string :=
  map (fun p => if useRegex then "{{regexp:}}" +:+ p else p) paths.

(** The calls on the delta service and the transfers, in program order. *)
Inductive Event : Type :=
| CallShouldSkipSync (key : string)
| CallGetChanges (key : string)
| CallRestoreChanges (key : string) (cs : list FileChange)
| CallCommitDelta (key : string)
| CallCommitFullSync (key : string)
| SentSkipped
| Transfer (ctx : Context).

Record SyncResult : Type := MkSyncResult {
  syncErr : option error;
  svc : option DeltaService;
  out : option (Chan SyncStatusDTO);
  trace : list Event;
}.

Record Prepared : Type := MkPrepared {
  pProfile : Profile;
  srcFs : Fs;
  dstFs : Fs;
  pCtx : Context;
}.

#[global] Instance result_bind : MBind result :=
  fun A B k r => match r with Ok a => k a | Err e => Err e end.

Definition check (e : option error) : result unit :=
  match e with None => Ok tt | Some m => Err m end.

(** [Sync], lines 36-96: everything before the delta logic.  The writes to
    [fsConfig.Transfers] and [fsConfig.Checkers] touch no later branch and
    are left out. *)
Definition prepare (env : Env) (ctx : Context) (task : string)
    (profile : Profile) : result Prepared :=
  let profile :=
    if String.eqb task "pull"
    then MkProfile (To profile) (From profile) (Parallel profile)
           (Bandwidth profile) (IncludedPaths profile) (ExcludedPaths profile)
           (UseRegex profile)
    else profile in
  srcFs ← NewFs env (From profile);
  dstFs ← NewFs env (To profile);
  _ ← (if 0 <? Bandwidth profile
       then check (BwLimitSet env (Bandwidth profile)) else Ok tt);
  let filterOpt := CopyFilterOpt env ctx in
  let filterOpt :=
    MkFilterOpt
      (IncludeRule filterOpt
         ++ profileRules (UseRegex profile) (IncludedPaths profile))
      (ExcludeRule filterOpt
         ++ profileRules (UseRegex profile) (ExcludedPaths profile)) in
  newFilter ← NewFilter env filterOpt;
  let ctx := ReplaceConfig ctx newFilter in
  ctx ← match ApplyProfileOptions env ctx profile with
        | Ok c => Ok c
        | Err e => Err ("failed to apply profile options: " +:+ e)
        end;
  _ ← check (Reload env ctx);
  Ok (MkPrepared profile srcFs dstFs ctx).

Definition offer (outStatus : option (Chan SyncStatusDTO))
    (ss : list SyncStatusDTO) : option (Chan SyncStatusDTO) :=
  match outStatus with
  | None => None
  | Some ch => Some (fold_left (fun c s => fst (trySend c s)) ss ch)
  end.

Definition deliver (d : DeltaService) (ars : list Arrival) : DeltaService :=
  fold_left (fun d a => notify d (arAt a) (arKey a) (arPath a) (arEntryType a))
    ars d.

(** [Sync], lines 98-152. *)
Definition Sync (env : Env) (now : Time) (ctx : Context) (task : string)
    (profile : Profile) (outStatus : option (Chan SyncStatusDTO))
    (deltaSvc : option DeltaService) : SyncResult :=
  match prepare env ctx task profile with
  | Err e => MkSyncResult (Some e) deltaSvc outStatus []
  | Ok p =>
      let ctx := pCtx p in
      let srcKey := remoteKey (From (pProfile p)) in
      let dstKey := remoteKey (To (pProfile p)) in
      match deltaSvc with
      | None =>
          let r := Run env ctx (dstFs p) (srcFs p) in
          MkSyncResult (runErr r) None (offer outStatus (samples r))
            [Transfer ctx]
      | Some d =>
          let skipSrc := ShouldSkipSync d now srcKey in
          let skipDst := ShouldSkipSync d now dstKey in
          let asked :=
            CallShouldSkipSync srcKey
              :: (if skipSrc then [CallShouldSkipSync dstKey] else []) in
          if skipSrc && skipDst then
            let d1 := fst (CommitDelta d srcKey) in
            let d2 := fst (CommitDelta d1 dstKey) in
            MkSyncResult None (Some d2) (sendSkippedStatus now outStatus)
              (asked ++ [SentSkipped; CallCommitDelta srcKey;
                         CallCommitDelta dstKey])
          else
            let '(srcChanges, d1) := GetChanges d srcKey in
            let '(ctx1, usedDelta, drainedChanges) :=
              match srcChanges with
              | Some cs =>
                  if HasChanges cs
                     && (len (Changes cs) <? MaxChangesBeforeFallback)
                  then
                    let scopedCtx := applyScopeFilter env ctx (Changes cs) in
                    if bool_decide (scopedCtx ≠ ctx)
                    then (scopedCtx, true, Changes cs)
                    else (ctx, false, [])
                  else (ctx, false, [])
              | None => (ctx, false, [])
              end in
            let r := Run env ctx1 (dstFs p) (srcFs p) in
            let d2 := deliver d1 (arrived r) in
            let ran := asked ++ [CallGetChanges srcKey; Transfer ctx1] in
            match runErr r with
            | None =>
                if usedDelta then
                  let d3 := fst (CommitDelta d2 srcKey) in
                  let d4 := fst (CommitDelta d3 dstKey) in
                  MkSyncResult None (Some d4) (offer outStatus (samples r))
                    (ran ++ [CallCommitDelta srcKey; CallCommitDelta dstKey])
                else
                  let d3 := fst (CommitFullSync d2 (finishedAt r) (srcFs p) srcKey) in
                  let d4 := fst (CommitFullSync d3 (finishedAt r) (dstFs p) dstKey) in
                  MkSyncResult None (Some d4) (offer outStatus (samples r))
                    (ran ++ [CallCommitFullSync srcKey;
                             CallCommitFullSync dstKey])
            | Some e =>
                if usedDelta && (0 <? len drainedChanges) then
                  MkSyncResult (Some e)
                    (Some (RestoreChanges d2 srcKey drainedChanges))
                    (offer outStatus (samples r))
                    (ran ++ [CallRestoreChanges srcKey drainedChanges])
                else
                  MkSyncResult (Some e) (Some d2)
                    (offer outStatus (samples r)) ran
            end
      end
  end.

End Rclone.

(** ** The utils package: progress samples and the sampler *)

Module Progress.
Import Dto.

Definition maxLogMessagesPerStatus : Z := 50.
Definition maxCompletedChecks : Z := 100.

(** Go string helpers used by the log filter. *)
Definition HasPrefix (s p : string) : bool := String.prefix p s.

Fixpoint LastIndex_from (i best : Z) (s sep : string) : Z :=
  let best' := if String.prefix sep s then i else best in
  match s with
  | EmptyString => best'
  | String _ s' => LastIndex_from (i + 1) best' s' sep
  end.

Definition LastIndex (s sep : string) : Z := LastIndex_from 0 (-1) s sep.

Definition Contains (s sub : string) : bool := negb (Index s sub =? -1).

(** [s[n:]] *)
Fixpoint from (n : nat) (s : string) : string :=
  match n, s with
  | O, _ => s
  | S n', String _ s' => from n' s'
  | S _, EmptyString => EmptyString
  end.

(** The UTF-8 encodings of the runes [unicode.IsSpace] accepts: U+0009
    to U+000D, U+0020, U+0085, U+00A0, U+1680, U+2000 to U+200A, U+2028,
    U+2029, U+202F, U+205F and U+3000. *)
Definition spaceRunes : list (list Ascii.ascii) :=
  map (map Ascii.ascii_of_nat)
    [[9]; [10]; [11]; [12]; [13]; [32];
     [194; 133]; [194; 160]; [225; 154; 128];
     [226; 128; 128]; [226; 128; 129]; [226; 128; 130]; [226; 128; 131];
     [226; 128; 132]; [226; 128; 133]; [226; 128; 134]; [226; 128; 135];
     [226; 128; 136]; [226; 128; 137]; [226; 128; 138];
     [226; 128; 168]; [226; 128; 169]; [226; 128; 175];
     [226; 129; 159]; [227; 128; 128]]%nat.

(** The bytes behind the first of [runes] that [l] starts with. *)
Fixpoint cutRune (runes : list (list Ascii.ascii)) (l : list Ascii.ascii)
    : option (list Ascii.ascii) :=
  match runes with
  | [] => None
  | r :: rest =>
      if bool_decide (take (length r) l = r) then Some (drop (length r) l)
      else cutRune rest l
  end.

(** Leading runes of [runes] are cut off one after the other; [fuel]
    bounds their number by the number of bytes. *)
Fixpoint trimRunes (runes : list (list Ascii.ascii)) (fuel : nat)
    (l : list Ascii.ascii) : list Ascii.ascii :=
  match fuel with
  | O => l
  | S fuel' =>
      match cutRune runes l with
      | Some l' => trimRunes runes fuel' l'
      | None => l
      end
  end.

(** [strings.TrimLeftFunc(s, unicode.IsSpace)] on the bytes of [s]: the
    first rune of a string is a white-space rune exactly when the string
    starts with the encoding of one. *)
Definition trimLeft (l : list Ascii.ascii) : list Ascii.ascii :=
  trimRunes spaceRunes (length l) l.

(** [strings.TrimRightFunc(s, unicode.IsSpace)]: the last rune of a string
    is a white-space rune exactly when the string ends in the encoding of
    one, whose first byte is the only one of its bytes that starts a
    rune. *)
Definition trimRight (l : list Ascii.ascii) : list Ascii.ascii :=
  reverse (trimRunes (map reverse spaceRunes) (length l) (reverse l)).

(** [strings.TrimSpace] *)
Definition TrimSpace (s : string) : string :=
  String.string_of_list_ascii
    (trimRight (trimLeft (String.list_ascii_of_string s))).

(** The first loop of [extractLogContent]; [fuel] bounds the number of
    bracketed prefixes by the length of the message. *)
Fixpoint stripBrackets (fuel : nat) (msg : string) : string :=
  match fuel with
  | O => msg
  | S fuel' =>
      if HasPrefix msg "[" then
        let idx := Index msg "] " in
        if negb (idx =? -1)
        then stripBrackets fuel' (from (Z.to_nat (idx + 2)) msg)
        else msg
      else msg
  end.

Definition levelTags : list string :=
  ["NOTICE:"; "INFO  :"; "DEBUG :"; "ERROR :"; "WARNING:"].

Fixpoint stripLevel (tags : list string) (msg : string) : string :=
  match tags with
  | [] => msg
  | tag :: rest =>
      let idx := LastIndex msg tag in
      if negb (idx =? -1)
      then from (Z.to_nat (idx + Z.of_nat (String.length tag))) msg
      else stripLevel rest msg
  end.

Definition extractLogContent (message : string) : string :=
  TrimSpace (stripLevel levelTags (stripBrackets (String.length message) message)).

Definition shouldSkipLogMessage (message : string) : bool :=
  if Contains message "Emitting event to frontend"
     || Contains message "Event emitted successfully"
     || Contains message "Event channel"
     || Contains message "SetApp called"
     || Contains message "SyncWithTab called"
     || Contains message "Generated task ID"
     || Contains message "Sending command"
  then true
  else
    let content := extractLogContent message in
    if String.eqb content "" || String.eqb content "-" then true
    else if HasPrefix content "Transferred:"
            || HasPrefix content "Checks:"
            || HasPrefix content "Elapsed time:"
            || HasPrefix content "Transferring:"
            || HasPrefix content " *"
    then true
    else false.

(** One [rc.Params] entry of [remoteStats["transferring"]]: a field is
    [None] when the key is absent or holds another dynamic type. *)
Record TransferringEntry : Type := MkTransferringEntry {
  trName : option string;
  trSize : option Z;
  trBytes : option Z;
  trPercentage : option Z;
  trSpeed : option float;
}.

(** The [rc.Params] returned by [stats.RemoteStats]; [speed] and [eta] are
    kept in their printed form ([formatSpeed], [formatDuration]). *)
Record RemoteStats : Type := MkRemoteStats {
  totalTransfers : option Z;
  totalBytes : option Z;
  transfers : option Z;
  bytes : option Z;
  errors : option Z;
  checks : option Z;
  totalChecks : option Z;
  deletes : option Z;
  renames : option Z;
  speed : option string;
  eta : option string;
  transferring : option (list TransferringEntry);
  checking : option (list string);
}.

(** [accounting.TransferSnapshot] *)
Record TransferSnapshot : Type := MkTransferSnapshot {
  tsName : string;
  tsSize : Z;
  tsBytes : Z;
  tsError : option string;
  tsChecked : bool;
}.

(** What one call of [createStatusFromStats] reads from
    [accounting.Stats(ctx)] and from the clock. *)
Record Stats : Type := MkStats {
  remoteStats : result RemoteStats;
  Transferred : list TransferSnapshot;
  GetTransfers : Z;
  GetBytes : Z;
  GetErrors : Z;
  GetChecks : Z;
  GetDeletes : Z;
  now : Time;
  elapsedText : string;
  fallbackSpeed : option string;
}.

Definition orElse {A} (o : option A) (d : A) : A :=
  match o with Some a => a | None => d end.

Definition fromTransferring (tr : TransferringEntry) : FileTransferInfo :=
  MkFileTransferInfo (orElse (trName tr) "") (orElse (trSize tr) 0)
    (orElse (trBytes tr) 0)
    (match trPercentage tr with Some p => toFloat p | None => 0%float end)
    (orElse (trSpeed tr) 0%float) "transferring" "".

Definition fromChecking (name : string) : FileTransferInfo :=
  MkFileTransferInfo name 0 0 0%float 0%float "checking" "".

Definition fromTransferred (tr : TransferSnapshot) : FileTransferInfo :=
  match tsError tr with
  | Some e =>
      MkFileTransferInfo (tsName tr) (tsSize tr) (tsBytes tr) 0%float 0%float
        "failed" e
  | None =>
      if tsChecked tr
      then MkFileTransferInfo (tsName tr) (tsSize tr) (tsBytes tr) 100%float
             0%float "checked" ""
      else MkFileTransferInfo (tsName tr) (tsSize tr) (tsBytes tr) 100%float
             0%float "completed" ""
  end.

(** The per-file list: in-flight transfers, in-flight checks, then the
    completed and failed transfers. *)
Definition composeTransfers (rs : RemoteStats) (done : list TransferSnapshot)
    : list FileTransferInfo :=
  map fromTransferring (orElse (transferring rs) [])
    ++ map fromChecking (orElse (checking rs) [])
    ++ map fromTransferred done.

Definition isFailed (ft : FileTransferInfo) : bool :=
  String.eqb (ftStatus ft) "failed".

Definition isCheck (ft : FileTransferInfo) : bool :=
  String.eqb (ftStatus ft) "checked" || String.eqb (ftStatus ft) "checking".

(** The [switch] loop of lines 301-308. *)
Fixpoint countStatus (ts : list FileTransferInfo) (errCount checkCount : Z)
    : Z * Z :=
  match ts with
  | [] => (errCount, checkCount)
  | ft :: rest =>
      if isFailed ft then countStatus rest (errCount + 1) checkCount
      else if isCheck ft then countStatus rest errCount (checkCount + 1)
      else countStatus rest errCount checkCount
  end.

(** [float64(a) / float64(b) * 100] *)
Definition ratio (a b : Z) : float :=
  PrimFloat.mul (PrimFloat.div (toFloat a) (toFloat b)) 100%float.

Definition lastN {A} (n : Z) (xs : list A) : list A :=
  if len xs >? n then drop (Z.to_nat (len xs - n)) xs else xs.

Definition createStatusFromStats (stats : Stats) (logMessages : list string)
    : SyncStatusDTO * gset string :=
  let currentlyChecking : gset string :=
    match remoteStats stats with
    | Ok rs => list_to_set (orElse (checking rs) [])
    | Err _ => ∅
    end in
  let totalFiles :=
    match remoteStats stats with Ok rs => orElse (totalTransfers rs) 0 | Err _ => 0 end in
  let totalBytes_ :=
    match remoteStats stats with Ok rs => orElse (totalBytes rs) 0 | Err _ => 0 end in
  let filesTransferred :=
    match remoteStats stats with
    | Ok rs => orElse (transfers rs) 0 | Err _ => GetTransfers stats end in
  let bytesTransferred :=
    match remoteStats stats with
    | Ok rs => orElse (bytes rs) 0 | Err _ => GetBytes stats end in
  let errors0 :=
    match remoteStats stats with
    | Ok rs => orElse (errors rs) 0 | Err _ => GetErrors stats end in
  let checks0 :=
    match remoteStats stats with
    | Ok rs => orElse (checks rs) 0 | Err _ => GetChecks stats end in
  let totalChecks_ :=
    match remoteStats stats with Ok rs => orElse (totalChecks rs) 0 | Err _ => 0 end in
  let deletes_ :=
    match remoteStats stats with
    | Ok rs => orElse (deletes rs) 0 | Err _ => GetDeletes stats end in
  let renames_ :=
    match remoteStats stats with Ok rs => orElse (renames rs) 0 | Err _ => 0 end in
  let speed0 :=
    match remoteStats stats with Ok rs => orElse (speed rs) "" | Err _ => "" end in
  let eta_ :=
    match remoteStats stats with Ok rs => orElse (eta rs) "" | Err _ => "" end in
  let transfers_ :=
    match remoteStats stats with
    | Ok rs => composeTransfers rs (Transferred stats) | Err _ => [] end in
  let speed_ :=
    if String.eqb speed0 "" then orElse (fallbackSpeed stats) "" else speed0 in
  let progress :=
    if totalBytes_ >? 0 then ratio bytesTransferred totalBytes_
    else if totalFiles >? 0 then ratio filesTransferred totalFiles
    else if totalChecks_ >? 0 then ratio checks0 totalChecks_
    else 0%float in
  let status :=
    if GetErrors stats >? 0 then "error"
    else if PrimFloat.leb 100%float progress then "completed"
    else "running" in
  let '(errors_, checks_) :=
    if len transfers_ >? 0 then countStatus transfers_ 0 0
    else (errors0, checks0) in
  let logMessages := lastN maxLogMessagesPerStatus logMessages in
  (MkSyncStatusDTO "sync_status" status progress speed_ eta_
     (elapsedText stats) (now stats) totalFiles totalBytes_ filesTransferred
     bytesTransferred errors_ checks_ totalChecks_ deletes_ renames_
     transfers_ logMessages false false,
   currentlyChecking).

(** *** [startProgress] *)

(** The variables captured by the closures of [startProgress]: the closed
    flag, the log accumulator, whether the two log sinks are installed,
    whether [stopCh] is closed and the goroutine has returned, the
    goroutine's two accumulators and the caller's channel. *)
Record Sampler : Type := MkSampler {
  isClosed : bool;
  logAccum : list string;
  sinks : bool;
  stopCh : bool;
  joined : bool;
  prevChecking : gset string;
  completedChecks : list FileTransferInfo;
  outStatus : Chan SyncStatusDTO;
}.

Definition startProgress (outStatus : Chan SyncStatusDTO) : Sampler :=
  MkSampler false [] true false false ∅ [] outStatus.

Definition appendLog (s : Sampler) (msg : string) : Sampler :=
  MkSampler (isClosed s) (logAccum s ++ [msg]) (sinks s) (stopCh s) (joined s)
    (prevChecking s) (completedChecks s) (outStatus s).

Definition drainLogs (s : Sampler) : list string * Sampler :=
  (logAccum s,
   MkSampler (isClosed s) [] (sinks s) (stopCh s) (joined s)
     (prevChecking s) (completedChecks s) (outStatus s)).

(** The callback given to [fslog.Handler.AddOutput]. *)
Definition onLog (s : Sampler) (text : string) : Sampler :=
  if isClosed s then s
  else
    let text := TrimSpace text in
    if String.eqb text "" || shouldSkipLogMessage text then s
    else
      let content := extractLogContent text in
      if String.eqb content "" then s else appendLog s content.

(** The replacement of [operations.SyncPrintf]; [msg] is the formatted
    text. *)
Definition onSyncPrintf (s : Sampler) (msg : string) : Sampler :=
  if isClosed s then s
  else
    let msg := TrimSpace msg in
    if negb (String.eqb msg "") then appendLog s msg else s.

Definition checkedEntry (name : string) : FileTransferInfo :=
  MkFileTransferInfo name 0 0 100%float 0%float "checked" "".

Definition withTransfers (st : SyncStatusDTO) (ts : list FileTransferInfo)
    : SyncStatusDTO :=
  MkSyncStatusDTO (Command st) (Status st) (Progress st) (Speed st) (ETA st)
    (ElapsedTime st) (Timestamp st) (TotalFiles st) (TotalBytes st)
    (FilesTransferred st) (BytesTransferred st) (Errors st) (Checks st)
    (TotalChecks st) (Deletes st) (Renames st) ts (LogMessages st)
    (DeltaMode st) (DeltaSkipped st).

(** One tick of the sampling goroutine.  Go ranges over [prevChecking] in
    an unspecified order; the model uses the order of [elements]. *)
Definition onTick (s : Sampler) (stats : Stats) : Sampler :=
  if stopCh s then s
  else if isClosed s then s
  else
    let '(msgs, s1) := drainLogs s in
    let '(status, curChecking) := createStatusFromStats stats msgs in
    let left :=
      filter (fun name => name ∉ curChecking) (elements (prevChecking s1)) in
    let completed :=
      lastN maxCompletedChecks (completedChecks s1 ++ map checkedEntry left) in
    let existingNames : gset string :=
      list_to_set (map ftName (Transfers status)) in
    let injected :=
      filter (fun cc => ftName cc ∉ existingNames) completed in
    let status := withTransfers status (Transfers status ++ injected) in
    MkSampler (isClosed s1) (logAccum s1) (sinks s1) (stopCh s1) (joined s1)
      curChecking completed (fst (trySend (outStatus s1) status)).

(** The steps of the cleanup closure. *)
Definition setClosed (s : Sampler) : Sampler :=
  MkSampler true (logAccum s) (sinks s) (stopCh s) (joined s)
    (prevChecking s) (completedChecks s) (outStatus s).

Definition detachSinks (s : Sampler) : Sampler :=
  MkSampler (isClosed s) (logAccum s) false (stopCh s) (joined s)
    (prevChecking s) (completedChecks s) (outStatus s).

(** [close(stopCh)] on the open channel. *)
Definition signalStop (s : Sampler) : Sampler :=
  MkSampler (isClosed s) (logAccum s) (sinks s) true (joined s)
    (prevChecking s) (completedChecks s) (outStatus s).

(** [close(stopCh)]: closing a channel that is closed already panics
    ([None]). *)
Definition closeStop (s : Sampler) : option Sampler :=
  if stopCh s then None else Some (signalStop s).

Definition join (s : Sampler) : Sampler :=
  MkSampler (isClosed s) (logAccum s) (sinks s) (stopCh s) true
    (prevChecking s) (completedChecks s) (outStatus s).

Definition emitFinal (s : Sampler) (stats : Stats) : Sampler :=
  let '(remaining, s1) := drainLogs s in
  if len remaining >? 0 then
    let finalStatus := fst (createStatusFromStats stats remaining) in
    MkSampler (isClosed s1) (logAccum s1) (sinks s1) (stopCh s1) (joined s1)
      (prevChecking s1) (completedChecks s1)
      (fst (trySend (outStatus s1) finalStatus))
  else s1.

(** The cleanup closure run to its end, as it is on a sampler whose
    [stopCh] is open: the five steps in the order of the source. *)
Definition cleanup (s : Sampler) (stats : Stats) : Sampler :=
  emitFinal (join (signalStop (detachSinks (setClosed s)))) stats.

(** A call of the cleanup closure on any sampler: [None] when it panics
    at [close(stopCh)], after the first two steps. *)
Definition callCleanup (s : Sampler) (stats : Stats) : option Sampler :=
  match closeStop (detachSinks (setClosed s)) with
  | Some s1 => Some (emitFinal (join s1) stats)
  | None => None
  end.

(** What can happen to a running sampler before the cleanup. *)
Inductive Activity : Type :=
| LogLine (text : string)
| SyncPrint (msg : string)
| Tick (stats : Stats).

Definition act (s : Sampler) (a : Activity) : Sampler :=
  match a with
  | LogLine text => if sinks s then onLog s text else s
  | SyncPrint msg => if sinks s then onSyncPrintf s msg else s
  | Tick stats => onTick s stats
  end.

(** A whole task: start, any activity, cleanup. *)
Definition runTask (outStatus : Chan SyncStatusDTO) (acts : list Activity)
    (final : Stats) : Sampler :=
  cleanup (fold_left act acts (startProgress outStatus)) final.

End Progress.

(** ** The services package: the password vault *)

Module Auth.

(** A Go [[]byte]. *)
Abbreviation bytes := (list byte).

#[global] Instance byte_eq_dec : EqDecision byte := Byte.byte_eq_dec.

(** Rate limit constants *)
Definition maxAttemptsBeforeDelay : Z := 3.
Definition maxAttemptsBeforeLock : Z := 10.
Definition lockoutDuration : Duration := 5 * Minute.
Definition argon2SaltLen : nat := 32.

(** *** Crypto functions *)

(** AES-GCM as provided by [crypto/cipher]: [Seal k n p] is the sealed
    payload (ciphertext and tag) and [Open k n c] authenticates and
    decrypts it. *)
Record AEAD : Type := MkAEAD {
  Seal : bytes -> bytes -> bytes -> bytes;
  Open : bytes -> bytes -> bytes -> option bytes;
}.

(** [gcm.NonceSize()] *)
Definition NonceSize : nat := 12.

(** [aes.KeySizeError(k).Error()] *)
Definition KeySizeError (k : Z) : error :=
  "crypto/aes: invalid key size " +:+ Itoa k.

(** [aes.NewCipher]: the key must be 16, 24 or 32 bytes long; the block it
    returns is identified with the key. *)
Definition NewCipher (key : bytes) : result bytes :=
  if (length key =? 16)%nat || (length key =? 24)%nat || (length key =? 32)%nat
  then Ok key
  else Err (KeySizeError (len key)).

(** [crypto/rand]: a stream of bytes and the position reached so far;
    [Read] fills a buffer of [n] bytes or fails. *)
Record Rand : Type := MkRand {
  entropy : nat -> byte;
  pos : nat;
  broken : bool;
}.

Definition Read (r : Rand) (n : nat) : result bytes * Rand :=
  if broken r then (Err "rand: read failed", r)
  else (Ok (map (entropy r) (seq (pos r) n)),
        MkRand (entropy r) (pos r + n) (broken r)).

Definition EncryptData (g : AEAD) (r : Rand) (data key : bytes)
    : result bytes * Rand :=
  match NewCipher key with
  | Err e => (Err e, r)
  | Ok block =>
      match Read r NonceSize with
      | (Err e, r') => (Err e, r')
      | (Ok nonce, r') => (Ok (nonce ++ Seal g block nonce data), r')
      end
  end.

Definition authFailed : error := "cipher: message authentication failed".

Definition DecryptData (g : AEAD) (ciphertext key : bytes) : result bytes :=
  match NewCipher key with
  | Err e => Err e
  | Ok block =>
      if (length ciphertext <? NonceSize)%nat then Err "ciphertext too short"
      else
        let nonce := take NonceSize ciphertext in
        let ciphertext := drop NonceSize ciphertext in
        match Open g block nonce ciphertext with
        | Some plaintext => Ok plaintext
        | None => Err authFailed
        end
  end.

(** The encoded password hash
    [argon2id$v=19$m=..,t=..,p=..$<salt>$<hash>]: either both base64 fields
    decode, or only the salt does, or the string does not split into five
    parts with a decodable salt. *)
Inductive EncodedHash : Type :=
| Encoded (salt hash : bytes)
| BadHash (salt : bytes)
| Malformed (s : string).

(** [argon2.IDKey] with the fixed parameters of the package. *)
Definition KDF : Type := string -> bytes -> bytes.

Definition deriveKey (kdf : KDF) (password : string) (salt : bytes) : bytes :=
  kdf password salt.

Definition encodePasswordHash (kdf : KDF) (password : string) (salt : bytes)
    : EncodedHash :=
  Encoded salt (kdf password salt).

Definition extractSalt (encoded : EncodedHash) : result bytes :=
  match encoded with
  | Encoded salt _ => Ok salt
  | BadHash salt => Ok salt
  | Malformed _ => Err "invalid hash format"
  end.

Definition verifyPasswordHash (kdf : KDF) (password : string)
    (encoded : EncodedHash) : bool :=
  match encoded with
  | Encoded salt storedHash => bool_decide (storedHash = kdf password salt)
  | BadHash _ => false
  | Malformed _ => false
  end.

(** *** Vault state *)

(** The [lockout_until] string: empty, an RFC 3339 instant (whole seconds),
    or a text that [time.Parse] rejects. *)
Inductive Stamp : Type :=
| NoStamp
| RFC3339 (sec : Z)
| BadStamp (s : string).

(** [t.Format(time.RFC3339)] drops the fraction of a second. *)
Definition Format (t : Time) : Stamp := RFC3339 (t / Second).

Record AppSettings : Type := MkAppSettings {
  MinimizeToTray : bool;
  StartAtLogin : bool;
  MinimizeToTrayOnStartup : bool;
}.

Record AuthData : Type := MkAuthData {
  Enabled : bool;
  PasswordHash : EncodedHash;
  FailedAttempts : Z;
  LockoutUntil : Stamp;
  AppSettings_ : AppSettings;
}.

Inductive EventType : Type := AuthLocked | AuthUnlocked.

(** The service, the configuration directory, the shared database handle
    and the clock.  [files] holds [rclone.conf], [ng-drive.db], their [.enc]
    forms and the SQLite sidecars; [authFile] is the content of
    [auth.json]. *)
Record World : Type := MkWorld {
  unlocked : bool;
  encKey : option bytes;
  authData : option AuthData;
  files : gmap string bytes;
  authFile : option AuthData;
  dbOpen : bool;
  rand : Rand;
  clock : Time;
  slept : list Duration;
  emitted : list EventType;
}.

(** The surroundings of one call: the key derivation, the cipher, which
    paths cannot be read or written, whether the database opens, whether
    the application service completes its initialisation, whether an event
    bus is installed, and what other goroutines do to the vault while
    [Unlock] sleeps without the mutex. *)
Record Env : Type := MkEnv {
  kdf : KDF;
  gcm : AEAD;
  readFails : string -> bool;
  writeFails : string -> bool;
  initDatabaseFails : bool;
  completeInitializationFails : bool;
  hasBus : bool;
  meanwhile : World -> World;
}.

Definition setVault (w : World) (u : bool) (k : option bytes)
    (a : option AuthData) : World :=
  MkWorld u k a (files w) (authFile w) (dbOpen w) (rand w) (clock w)
    (slept w) (emitted w).

Definition setFiles (w : World) (fs : gmap string bytes) : World :=
  MkWorld (unlocked w) (encKey w) (authData w) fs (authFile w) (dbOpen w)
    (rand w) (clock w) (slept w) (emitted w).

Definition setRand (w : World) (r : Rand) : World :=
  MkWorld (unlocked w) (encKey w) (authData w) (files w) (authFile w)
    (dbOpen w) r (clock w) (slept w) (emitted w).

Definition setDb (w : World) (b : bool) : World :=
  MkWorld (unlocked w) (encKey w) (authData w) (files w) (authFile w) b
    (rand w) (clock w) (slept w) (emitted w).

Definition withHash (a : AuthData) (h : EncodedHash) : AuthData :=
  MkAuthData (Enabled a) h (FailedAttempts a) (LockoutUntil a) (AppSettings_ a).

Definition withAttempts (a : AuthData) (n : Z) (l : Stamp) : AuthData :=
  MkAuthData (Enabled a) (PasswordHash a) n l (AppSettings_ a).

Definition emitAuthEvent (env : Env) (w : World) (e : EventType) : World :=
  if hasBus env
  then MkWorld (unlocked w) (encKey w) (authData w) (files w) (authFile w)
         (dbOpen w) (rand w) (clock w) (slept w) (emitted w ++ [e])
  else w.

(** [time.Sleep] *)
Definition Sleep (w : World) (d : Duration) : World :=
  MkWorld (unlocked w) (encKey w) (authData w) (files w) (authFile w)
    (dbOpen w) (rand w) (clock w + d) (slept w ++ [d]) (emitted w).

(** [saveAuthData]: writes the in-memory record to [auth.json].  The
    write succeeds or is refused before a byte is written; of the error
    the text of this package is kept. *)
Definition saveAuthData (env : Env) (w : World) : World * option error :=
  if writeFails env "auth.json"
  then (w, Some "failed to write auth.json")
  else (MkWorld (unlocked w) (encKey w) (authData w) (files w) (authData w)
          (dbOpen w) (rand w) (clock w) (slept w) (emitted w), None).

Definition ReadFile (env : Env) (w : World) (path : string) : result bytes :=
  if readFails env path then Err "read error"
  else match files w !! path with
       | Some b => Ok b
       | None => Err "no such file"
       end.

(** [os.WriteFile]: the write succeeds, or it is refused before a byte
    is written (the file cannot be opened or created), which leaves the
    directory as it was. *)
Definition WriteFile (env : Env) (w : World) (path : string) (data : bytes)
    : World * option error :=
  if writeFails env path then (w, Some "write error")
  else (setFiles w (<[path := data]> (files w)), None).

(** [os.Remove], its error ignored as in the source. *)
Definition Remove (w : World) (path : string) : World :=
  setFiles w (delete path (files w)).

Definition exists_ (w : World) (path : string) : bool :=
  bool_decide (is_Some (files w !! path)).

Definition encryptFile (env : Env) (w : World) (srcPath dstPath : string)
    (key : bytes) : World * option error :=
  match ReadFile env w srcPath with
  | Err e => (w, Some ("failed to read file: " +:+ e))
  | Ok plaintext =>
      match NewCipher key with
      | Err e => (w, Some ("failed to create cipher: " +:+ e))
      | Ok block =>
          match Read (rand w) NonceSize with
          | (Err e, r) => (setRand w r, Some ("failed to generate nonce: " +:+ e))
          | (Ok nonce, r) =>
              let ciphertext := nonce ++ Seal (gcm env) block nonce plaintext in
              match WriteFile env (setRand w r) dstPath ciphertext with
              | (w', Some e) =>
                  (w', Some ("failed to write encrypted file: " +:+ e))
              | (w', None) => (w', None)
              end
          end
      end
  end.

Definition decryptFile (env : Env) (w : World) (srcPath dstPath : string)
    (key : bytes) : World * option error :=
  match ReadFile env w srcPath with
  | Err e => (w, Some ("failed to read file: " +:+ e))
  | Ok ciphertext =>
      match NewCipher key with
      | Err e => (w, Some ("failed to create cipher: " +:+ e))
      | Ok block =>
          if (length ciphertext <? NonceSize)%nat
          then (w, Some "ciphertext too short")
          else
            let nonce := take NonceSize ciphertext in
            let ciphertext := drop NonceSize ciphertext in
            match Open (gcm env) block nonce ciphertext with
            | None =>
                (w, Some "decryption failed (wrong password or corrupted data)")
            | Some plaintext =>
                match WriteFile env w dstPath plaintext with
                | (w', Some e) =>
                    (w', Some ("failed to write decrypted file: " +:+ e))
                | (w', None) => (w', None)
                end
            end
      end
  end.

Definition configFiles : list string := ["rclone.conf"; "ng-drive.db"].

Fixpoint encryptEach (env : Env) (w : World) (paths : list string)
    (key : bytes) : World * option error :=
  match paths with
  | [] => (w, None)
  | srcPath :: rest =>
      if negb (exists_ w srcPath) then encryptEach env w rest key
      else
        match encryptFile env w srcPath (srcPath +:+ ".enc") key with
        | (w', Some e) => (w', Some ("failed to encrypt " +:+ srcPath +:+ ": " +:+ e))
        | (w', None) =>
            let w1 := Remove w' srcPath in
            let w2 := Remove w1 (srcPath +:+ "-wal") in
            let w3 := Remove w2 (srcPath +:+ "-shm") in
            encryptEach env w3 rest key
        end
  end.

Definition encryptConfigFiles (env : Env) (w : World) (key : bytes)
    : World * option error :=
  encryptEach env w configFiles key.

Fixpoint decryptEach (env : Env) (w : World) (paths : list string)
    (key : bytes) : World * option error :=
  match paths with
  | [] => (w, None)
  | basePath :: rest =>
      let encPath := basePath +:+ ".enc" in
      if negb (exists_ w encPath) then decryptEach env w rest key
      else
        match decryptFile env w encPath basePath key with
        | (w', Some e) => (w', Some ("failed to decrypt " +:+ encPath +:+ ": " +:+ e))
        | (w', None) => decryptEach env (Remove w' encPath) rest key
        end
  end.

Definition decryptConfigFiles (env : Env) (w : World) (key : bytes)
    : World * option error :=
  decryptEach env w configFiles key.

(** [CloseDatabase(); ResetSharedDB()] *)
Definition closeDatabase (w : World) : World := setDb w false.

Definition InitDatabase (env : Env) (w : World) : World * option error :=
  if initDatabaseFails env then (w, Some "database error")
  else (setDb w true, None).

Definition initializeApp (env : Env) (w : World) : World * option error :=
  match InitDatabase env (setDb w false) with
  | (w', Some e) => (w', Some ("failed to initialize database: " +:+ e))
  | (w', None) =>
      if completeInitializationFails env
      then (w', Some "failed to complete app initialization")
      else (w', None)
  end.

(** [int(math.Ceil(d.Seconds()))] *)
Definition ceilSeconds (d : Duration) : Z := (d + Second - 1) / Second.

(** The lockout check at the head of [Unlock]: the remaining seconds while
    the lockout holds. *)
Definition lockedFor (now : Time) (l : Stamp) : option Z :=
  match l with
  | RFC3339 sec =>
      let lockoutTime := sec * Second in
      if now <? lockoutTime then Some (ceilSeconds (Sub lockoutTime now))
      else None
  | NoStamp => None
  | BadStamp _ => None
  end.

(** What [Unlock] reports besides the error: for a lockout the seconds left
    as printed in the message. *)
Inductive Outcome : Type :=
| Done
| Failed (e : error)
| Locked (remaining : Z).

(** [Unlock], lines 787-831: the password check and what follows it, for
    the record [a] read after the delay. *)
Definition checkPassword (env : Env) (w : World) (a : AuthData)
    (password : string) : World * Outcome :=
  if negb (verifyPasswordHash (kdf env) password (PasswordHash a)) then
    let n := wrapInt (FailedAttempts a + 1) in
    let a' :=
      if n >=? maxAttemptsBeforeLock
      then withAttempts a 0 (Format (clock w + lockoutDuration))
      else withAttempts a n (LockoutUntil a) in
    let w := setVault w (unlocked w) (encKey w) (Some a') in
    (fst (saveAuthData env w), Failed "incorrect password")
  else
    match extractSalt (PasswordHash a) with
    | Err e => (w, Failed ("failed to extract salt: " +:+ e))
    | Ok salt =>
        let key := deriveKey (kdf env) password salt in
        match decryptConfigFiles env w key with
        | (w, Some e) => (w, Failed ("failed to decrypt files: " +:+ e))
        | (w, None) =>
            let w := setVault w (unlocked w) (encKey w)
                       (Some (withAttempts a 0 NoStamp)) in
            let w := fst (saveAuthData env w) in
            match initializeApp env w with
            | (w, Some e) =>
                (fst (encryptConfigFiles env w key),
                 Failed ("failed to initialize app after unlock: " +:+ e))
            | (w, None) =>
                let w := setVault w true (Some key) (authData w) in
                (emitAuthEvent env w AuthUnlocked, Done)
            end
        end
    end.

(** [Unlock], lines 751-785, then [checkPassword]. *)
Definition Unlock (env : Env) (w : World) (password : string)
    : World * Outcome :=
  match authData w with
  | None => (w, Failed "auth not enabled")
  | Some a0 =>
  if negb (Enabled a0) then (w, Failed "auth not enabled")
  else if unlocked w then (w, Done)
  else
    match lockedFor (clock w) (LockoutUntil a0) with
    | Some remaining => (w, Locked remaining)
    | None =>
    (* an expired or unreadable lockout is cleared *)
    let w := setVault w (unlocked w) (encKey w)
               (Some (withAttempts a0 (FailedAttempts a0) NoStamp)) in
    let '(w, back) :=
      if (FailedAttempts a0 >=? maxAttemptsBeforeDelay)
         && (FailedAttempts a0 <? maxAttemptsBeforeLock)
      then
        let delaySecs := 2 ^ (FailedAttempts a0 - maxAttemptsBeforeDelay) in
        let w := meanwhile env (Sleep w (delaySecs * Second)) in
        (w, unlocked w)
      else (w, false) in
    if back then (w, Done)
    else
      match authData w with
      | None => (w, Failed "auth not enabled") (* no code path clears it *)
      | Some a => checkPassword env w a password
      end
    end
  end.

(** The three statements that end every locking branch of
    [ChangePassword]: [zeroBytes(a.encKey); a.encKey = nil],
    [a.unlocked = false], [a.emitAuthEvent(AuthLocked)]. *)
Definition lockVault (env : Env) (w : World) : World :=
  emitAuthEvent env (setVault w false None (authData w)) AuthLocked.

Definition setHash (w : World) (a : AuthData) (h : EncodedHash) : World :=
  setVault w (unlocked w) (encKey w) (Some (withHash a h)).

Definition ChangePassword (env : Env) (w : World)
    (oldPassword newPassword : string) : World * option error :=
  match authData w with
  | None => (w, Some "auth not enabled")
  | Some a =>
  if negb (Enabled a) then (w, Some "auth not enabled")
  else if negb (unlocked w)
  then (w, Some "app must be unlocked to change password")
  else if negb (verifyPasswordHash (kdf env) oldPassword (PasswordHash a))
  then (w, Some "incorrect current password")
  else if Z.of_nat (String.length newPassword) <? 4
  then (w, Some "new password must be at least 4 characters")
  else
    match Read (rand w) argon2SaltLen with
    | (Err e, r) => (setRand w r, Some ("failed to generate salt: " +:+ e))
    | (Ok newSalt, r) =>
    let w := setRand w r in
    let newKey := deriveKey (kdf env) newPassword newSalt in
    let newHash := encodePasswordHash (kdf env) newPassword newSalt in
    let w := closeDatabase w in
    let oldHash := PasswordHash a in
    match encryptConfigFiles env w newKey with
    | (w, Some e) =>
        match decryptConfigFiles env w newKey with
        | (w, Some _) =>
            (lockVault env w,
             Some ("failed to re-encrypt files and recovery failed, please restart and re-unlock: " +:+ e))
        | (w, None) =>
            (fst (InitDatabase env w),
             Some ("failed to re-encrypt files: " +:+ e))
        end
    | (w, None) =>
        let w := setHash w a newHash in
        match saveAuthData env w with
        | (w, Some e) =>
            let w := setHash w a oldHash in
            match decryptConfigFiles env w newKey with
            | (w, Some _) =>
                let w := setHash w a newHash in
                let w := fst (saveAuthData env w) in
                (lockVault env w,
                 Some ("failed to save auth data and recovery failed, please re-unlock with new password: " +:+ e))
            | (w, None) =>
                (fst (InitDatabase env w),
                 Some ("failed to save auth data: " +:+ e))
            end
        | (w, None) =>
            match decryptConfigFiles env w newKey with
            | (w, Some e) =>
                (lockVault env w,
                 Some ("failed to decrypt files after password change, please re-unlock: " +:+ e))
            | (w, None) =>
                match InitDatabase env w with
                | (w, Some e) =>
                    (lockVault env w,
                     Some ("failed to re-initialize database after password change, please re-unlock: " +:+ e))
                | (w, None) =>
                    (setVault w (unlocked w) (Some newKey) (authData w), None)
                end
            end
        end
    end
    end
  end.

(** *** The remaining service methods *)

(** [a.authData != nil && a.authData.Enabled] *)
Definition IsAuthEnabled (w : World) : bool :=
  match authData w with
  | Some a => Enabled a
  | None => false
  end.

Definition IsUnlocked (w : World) : bool := unlocked w.

Record LockoutStatus : Type := MkLockoutStatus {
  ls_FailedAttempts : Z;
  LockedUntil : Stamp;
  IsLocked : bool;
  RetryAfterSecs : Z;
}.

(** [int(math.Pow(2, float64(e)))] for [0 <= e]: exact while the power
    fits an [int]; beyond that Go leaves the conversion to the
    implementation, for which [huge] stands. *)
Definition pow2Int (huge : Z -> Z) (e : Z) : Z :=
  if e <? 63 then 2 ^ e else huge e.

Definition GetLockoutStatus (huge : Z -> Z) (w : World) : LockoutStatus :=
  match authData w with
  | None => MkLockoutStatus 0 NoStamp false 0
  | Some a =>
      let status :=
        match lockedFor (clock w) (LockoutUntil a) with
        | Some remaining =>
            MkLockoutStatus (FailedAttempts a) (LockoutUntil a) true remaining
        | None => MkLockoutStatus (FailedAttempts a) (LockoutUntil a) false 0
        end in
      if negb (IsLocked status) && (FailedAttempts a >=? maxAttemptsBeforeDelay)
      then
        let delaySecs :=
          pow2Int huge (FailedAttempts a - maxAttemptsBeforeDelay) in
        MkLockoutStatus (ls_FailedAttempts status) (LockedUntil status)
          (IsLocked status) delaySecs
      else status
  end.

(** [AppSettings{}] and [&AuthData{Enabled: false}] *)
Definition noSettings : AppSettings := MkAppSettings false false false.

Definition noAuth : AuthData :=
  MkAuthData false (Malformed "") 0 NoStamp noSettings.

Definition GetPreUnlockSettings (w : World) : AppSettings :=
  match authData w with
  | Some a => AppSettings_ a
  | None => noSettings
  end.

Definition legacyFiles : list string :=
  ["profiles.json"; "schedules.json"; "boards.json"; "history.json";
   "app_settings.json"].

Definition deleteLegacyFiles (w : World) : World :=
  fold_left (fun w f => if exists_ w f then Remove w f else w) legacyFiles w.

(** [SetupPassword]; [appSettings] is what the notification service
    reports, the zero value when none is installed. *)
Definition SetupPassword (env : Env) (appSettings : AppSettings) (w : World)
    (password : string) : World * option error :=
  if IsAuthEnabled w
  then (w, Some "password already configured, use ChangePassword instead")
  else if Z.of_nat (String.length password) <? 4
  then (w, Some "password must be at least 4 characters")
  else
    match Read (rand w) argon2SaltLen with
    | (Err e, r) => (setRand w r, Some ("failed to generate salt: " +:+ e))
    | (Ok salt, r) =>
        let w := setRand w r in
        let key := deriveKey (kdf env) password salt in
        let hash := encodePasswordHash (kdf env) password salt in
        let w := deleteLegacyFiles w in
        let w := setVault w (unlocked w) (encKey w)
                   (Some (MkAuthData true hash 0 NoStamp appSettings)) in
        match saveAuthData env w with
        | (w, Some e) => (w, Some ("failed to save auth data: " +:+ e))
        | (w, None) => (setVault w (unlocked w) (Some key) (authData w), None)
        end
    end.

(** [lockInternal]: a failure to encrypt is logged and the vault is locked
    all the same. *)
Definition lockInternal (env : Env) (w : World) : World :=
  match encKey w with
  | None => w
  | Some key =>
      if negb (unlocked w) then w
      else
        let w := closeDatabase w in
        let w := fst (encryptConfigFiles env w key) in
        setVault w false None (authData w)
  end.

(** [Lock] returns nil on every path. *)
Definition Lock (env : Env) (w : World) : World :=
  if negb (unlocked w) then w
  else emitAuthEvent env (lockInternal env w) AuthLocked.

Definition cleanupEncryptedFiles (w : World) : World :=
  fold_left Remove ["rclone.conf.enc"; "ng-drive.db.enc"] w.

(** [os.Remove(a.authFilePath)] *)
Definition removeAuthFile (w : World) : World :=
  MkWorld (unlocked w) (encKey w) (authData w) (files w) None (dbOpen w)
    (rand w) (clock w) (slept w) (emitted w).

Definition RemovePassword (env : Env) (w : World) (password : string)
    : World * option error :=
  match authData w with
  | None => (w, Some "auth not enabled")
  | Some a =>
      if negb (Enabled a) then (w, Some "auth not enabled")
      else if negb (unlocked w)
      then (w, Some "app must be unlocked to remove password")
      else if negb (verifyPasswordHash (kdf env) password (PasswordHash a))
      then (w, Some "incorrect password")
      else
        let w := cleanupEncryptedFiles w in
        let w := removeAuthFile w in
        (setVault w true None (Some noAuth), None)
  end.

Definition withSettings (a : AuthData) (settings : AppSettings) : AuthData :=
  MkAuthData (Enabled a) (PasswordHash a) (FailedAttempts a) (LockoutUntil a)
    settings.

Definition SyncAppSettings (env : Env) (w : World) (settings : AppSettings)
    : World :=
  match authData w with
  | None => w
  | Some a =>
      if negb (Enabled a) then w
      else
        fst (saveAuthData env
               (setVault w (unlocked w) (encKey w)
                  (Some (withSettings a settings))))
  end.

(** The loop of [recoverFromCrash]. *)
Fixpoint recoverEach (w : World) (paths : list string) : World :=
  match paths with
  | [] => w
  | basePath :: rest =>
      let encPath := basePath +:+ ".enc" in
      if exists_ w basePath && exists_ w encPath then
        if IsAuthEnabled w then
          let w1 := Remove w basePath in
          let w2 := Remove w1 (basePath +:+ "-wal") in
          let w3 := Remove w2 (basePath +:+ "-shm") in
          recoverEach w3 rest
        else recoverEach (Remove w encPath) rest
      else recoverEach w rest
  end.

Definition recoverFromCrash (w : World) : World := recoverEach w configFiles.

(** [loadAuthData]: [auth.json] is kept in parsed form, so the only
    failures are a missing or unreadable file. *)
Definition loadAuthData (env : Env) (w : World) : result AuthData :=
  if readFails env "auth.json" then Err "read error"
  else match authFile w with
       | Some a => Ok a
       | None => Err "no such file"
       end.

(** [NewAuthService]: the service of a fresh process over the directory,
    the database handle and the clock it finds. *)
Definition NewAuthService (w : World) : World :=
  MkWorld false None None (files w) (authFile w) false (rand w) (clock w)
    (slept w) (emitted w).

(** [ServiceStartup]; [cfg] tells whether the shared configuration is
    set. *)
Definition ServiceStartup (env : Env) (cfg : bool) (w : World)
    : World * option error :=
  if negb cfg then (w, Some "shared config not set")
  else
    let loaded :=
      match loadAuthData env w with
      | Ok a => a
      | Err _ => noAuth
      end in
    let w := setVault w (unlocked w) (encKey w) (Some loaded) in
    let w := recoverFromCrash w in
    if negb (Enabled loaded) then
      match initializeApp env w with
      | (w, Some e) => (w, Some ("failed to initialize app: " +:+ e))
      | (w, None) =>
          (emitAuthEvent env (setVault w true (encKey w) (authData w))
             AuthUnlocked, None)
      end
    else
      (emitAuthEvent env (setVault w false (encKey w) (authData w))
         AuthLocked, None).

(** [ServiceShutdown] returns nil on every path. *)
Definition ServiceShutdown (env : Env) (w : World) : World :=
  if IsAuthEnabled w && unlocked w then lockInternal env w else w.

(** [DeriveExportKey] ignores the error of [rand.Read]; the salt is then
    the zeroed buffer [make] returned. *)
Definition DeriveExportKey (kdf : KDF) (r : Rand) (password : string)
    : bytes * bytes * Rand :=
  let '(salt, r') :=
    match Read r 16 with
    | (Ok salt, r') => (salt, r')
    | (Err _, r') => (replicate 16 Byte.x00, r')
    end in
  (deriveKey kdf password salt, salt, r').

Definition DeriveExportKeyWithSalt (kdf : KDF) (password : string)
    (salt : bytes) : bytes :=
  deriveKey kdf password salt.

End Auth.

(** ** The rclone package: temporary crypt remotes *)

Module Crypt.
Import Progress.

Definition tempCryptPrefix : string := "_tmp_crypt_".

(** The fields of [models.Profile] that [ApplyCryptWrapping] reads or
    writes. *)
Record Profile : Type := MkProfile {
  From : string;
  To : string;
  EncryptSource : bool;
  EncryptDest : bool;
  EncryptPassword : string;
  EncryptPassword2 : string;
  EncryptFilename : string;
  EncryptDirectory : bool;
}.

(** rclone's configuration: sections by remote name, each with its backend
    type and its [rc.Params]. *)
Abbreviation Params := (gmap string string).

Record Section : Type := MkSection {
  sType : string;
  sParams : Params;
}.

Abbreviation Config := (gmap string Section).

(** The collaborators: [obscure.Obscure], [config.CreateRemote] and the
    first eight characters of the successive [uuid.New()] values. *)
Record Env : Type := MkEnv {
  Obscure : string -> result string;
  CreateRemote : Config -> string -> string -> Params -> Config * option error;
  uuid8 : nat -> string;
}.

(** The loaded configuration and the number of identifiers drawn. *)
Record State : Type := MkState {
  config : Config;
  drawn : nat;
}.

Definition setConfig (s : State) (cfg : Config) : State :=
  MkState cfg (drawn s).

(** [tempCryptPrefix + uuid.New().String()[:8]] *)
Definition newName (env : Env) (s : State) : string * State :=
  (tempCryptPrefix +:+ uuid8 env (drawn s), MkState (config s) (S (drawn s))).

Definition createTempCryptRemote (env : Env) (cfg : Config)
    (name wrappedPath password password2 filenameEncrypt : string)
    (dirEncrypt : bool) : Config * option error :=
  match Obscure env password with
  | Err e => (cfg, Some ("failed to obscure password: " +:+ e))
  | Ok obscuredPassword =>
      let dirNameEncrypt := if negb dirEncrypt then "false" else "true" in
      let params : Params :=
        <["remote" := wrappedPath]>
          (<["password" := obscuredPassword]>
             (<["filename_encryption" := filenameEncrypt]>
                (<["directory_name_encryption" := dirNameEncrypt]> ∅))) in
      let params2 : result Params :=
        if negb (String.eqb password2 "") then
          match Obscure env password2 with
          | Err e => Err ("failed to obscure password2: " +:+ e)
          | Ok obscuredPassword2 => Ok (<["password2" := obscuredPassword2]> params)
          end
        else Ok params in
      match params2 with
      | Err e => (cfg, Some e)
      | Ok params =>
          match CreateRemote env cfg name "crypt" params with
          | (cfg', Some e) => (cfg', Some ("failed to create crypt remote: " +:+ e))
          | (cfg', None) => (cfg', None)
          end
      end
  end.

(** [config.DeleteRemote] *)
Definition deleteTempCryptRemote (cfg : Config) (name : string) : Config :=
  delete name cfg.

(** The closure [cleanup] over the names it ranges over. *)
Definition runCleanup (cfg : Config) (names : list string) : Config :=
  fold_left deleteTempCryptRemote names cfg.

Definition withFrom (p : Profile) (from : string) : Profile :=
  MkProfile from (To p) (EncryptSource p) (EncryptDest p) (EncryptPassword p)
    (EncryptPassword2 p) (EncryptFilename p) (EncryptDirectory p).

Definition withTo (p : Profile) (to : string) : Profile :=
  MkProfile (From p) to (EncryptSource p) (EncryptDest p) (EncryptPassword p)
    (EncryptPassword2 p) (EncryptFilename p) (EncryptDirectory p).

Definition clearPasswords (p : Profile) : Profile :=
  MkProfile (From p) (To p) (EncryptSource p) (EncryptDest p) "" ""
    (EncryptFilename p) (EncryptDirectory p).

(** What [ApplyCryptWrapping] leaves behind: the configuration, the
    profile it edits in place, the names the returned [cleanup] deletes
    ([None] for a nil function) and the error. *)
Record Wrapping : Type := MkWrapping {
  wState : State;
  wProfile : Profile;
  wCleanup : option (list string);
  wErr : option error;
}.

Definition ApplyCryptWrapping (env : Env) (s : State) (profile : Profile)
    : Wrapping :=
  if negb (EncryptSource profile) && negb (EncryptDest profile)
  then MkWrapping s profile (Some []) None
  else if String.eqb (EncryptPassword profile) ""
  then MkWrapping s profile (Some [])
         (Some "encryption password is required when encryption is enabled")
  else
    let filenameEncrypt :=
      if String.eqb (EncryptFilename profile) "" then "standard"
      else EncryptFilename profile in
    let source : State * Profile * list string * option error :=
      if EncryptSource profile then
        let '(remoteName, s1) := newName env s in
        match createTempCryptRemote env (config s1) remoteName (From profile)
                (EncryptPassword profile) (EncryptPassword2 profile)
                filenameEncrypt (EncryptDirectory profile) with
        | (cfg, Some e) =>
            (setConfig s1 (runCleanup cfg []), profile, [],
             Some ("failed to create source crypt remote: " +:+ e))
        | (cfg, None) =>
            (setConfig s1 cfg, withFrom profile (remoteName +:+ ":"),
             [remoteName], None)
        end
      else (s, profile, [], None) in
    match source with
    | (s1, profile1, tempRemotes, Some e) =>
        MkWrapping s1 profile1 None (Some e)
    | (s1, profile1, tempRemotes, None) =>
        if EncryptDest profile1 then
          let '(remoteName, s2) := newName env s1 in
          match createTempCryptRemote env (config s2) remoteName (To profile1)
                  (EncryptPassword profile1) (EncryptPassword2 profile1)
                  filenameEncrypt (EncryptDirectory profile1) with
          | (cfg, Some e) =>
              MkWrapping (setConfig s2 (runCleanup cfg tempRemotes)) profile1
                None (Some ("failed to create dest crypt remote: " +:+ e))
          | (cfg, None) =>
              MkWrapping (setConfig s2 cfg)
                (clearPasswords (withTo profile1 (remoteName +:+ ":")))
                (Some (tempRemotes ++ [remoteName])) None
          end
        else
          MkWrapping s1 (clearPasswords profile1) (Some tempRemotes) None
    end.

(** [config.FileSections()] *)
Definition FileSections (cfg : Config) : list string :=
  map fst (map_to_list cfg).

Definition CleanupOrphanedTempCryptRemotes (cfg : Config) : Config :=
  fold_left
    (fun c r => if HasPrefix r tempCryptPrefix then delete r c else c)
    (FileSections cfg) cfg.

End Crypt.

(** ** Traces and concrete scenarios *)

Module Scenario.
Import Delta Dto Rclone.

(** The remote key a delta-service call was made with. *)
Definition keyOf (e : Event) : option string :=
  match e with
  | CallShouldSkipSync k => Some k
  | CallGetChanges k => Some k
  | CallRestoreChanges k _ => Some k
  | CallCommitDelta k => Some k
  | CallCommitFullSync k => Some k
  | SentSkipped => None
  | Transfer _ => None
  end.

(** The specification's [<remote>:] prefix, as rclone reads a location: a
    colon that follows a non-empty name and has no slash before it.  A
    location without such a prefix is a bare local path. *)
Definition specRemotePrefix (path : string) : bool :=
  let idx := Index path ":" in
  (0 <? idx) && (Index (String.substring 0 (Z.to_nat idx) path) "/" =? -1).

(** What can happen to one watcher between its start and its stop. *)
Inductive WatcherOp : Type :=
| Notify (now : Time) (path : string) (entryType : EntryType)
| Drain
| Restore (cs : list FileChange).

(** Runs the operations in order; the second component collects what the
    [DrainChanges] calls handed out. *)
Fixpoint runOps (w : Watcher) (ops : list WatcherOp)
    : Watcher * list FileChange :=
  match ops with
  | [] => (w, [])
  | Notify now path entryType :: rest =>
      runOps (notifyCallback w now path entryType) rest
  | Drain :: rest =>
      let '(got, w1) := Watcher_DrainChanges w in
      let '(w2, later) := runOps w1 rest in
      (w2, got ++ later)
  | Restore cs :: rest => runOps (Watcher_RestoreChanges w cs) rest
  end.

Fixpoint notifications (ops : list WatcherOp) : Z :=
  match ops with
  | [] => 0
  | Notify _ _ _ :: rest => 1 + notifications rest
  | _ :: rest => notifications rest
  end.

Fixpoint restored (ops : list WatcherOp) : Z :=
  match ops with
  | [] => 0
  | Restore cs :: rest => len cs + restored rest
  | _ :: rest => restored rest
  end.

(** Every registered watcher runs: [EnsureWatcher] registers started
    watchers only, and [StopAll] empties the registry. *)
Definition allRunning (d : DeltaService) : Prop :=
  forall key w, watchers d !! key = Some w -> running w = true.

(** A watcher right after its buffer was handed out. *)
Definition drained (w : Watcher) : Watcher :=
  MkWatcher (Delta.remoteKey w) (remoteFs w) (pollCh w) [] (running w).

(** The changes the notifications for [key] append to its watcher. *)
Definition arrivedAt (key : string) (ars : list Arrival) : list FileChange :=
  map (fun a => MkFileChange (arPath a) (arEntryType a) ChangeModified (arAt a))
    (filter (fun a => arKey a = key) ars).

(** The context a transfer ran under carries the scope filter of [cs]. *)
Definition scopedBy (env : Env) (ctx : Context) (cs : list FileChange)
    (ran : Context) : Prop :=
  ran = ReplaceConfig ctx (MkFilter (scopeOpt env ctx cs)).

(** A change is the first one reported for its path. *)
Definition firstFor (cs : list FileChange) (c : FileChange) : Prop :=
  exists pre post, cs = pre ++ c :: post /\ Path c ∉ map Path pre.

(** *** Concrete inputs *)

Definition noRules : FilterOpt := MkFilterOpt [] [].

Definition currentOpt (ctx : Context) : FilterOpt :=
  match ctx with f :: _ => Opt f | [] => noRules end.

Definition quietRun : RunOutcome := MkRunOutcome None [] 7200 [].

(** Every remote resolves and supports change notification, every rule
    list compiles, the transfer succeeds. *)
Definition envOk : Env :=
  MkEnv (fun p => Ok (MkFs p true)) (fun _ => None) currentOpt
    (fun _ => true) (fun c _ => Ok c) (fun _ => None)
    (fun _ _ _ => quietRun).

(** As [envOk], but a rule with an opening bracket does not compile (an
    unmatched bracket is a malformed glob). *)
Definition wellFormed (rule : string) : bool := Index rule "[" =? -1.

Definition envStrict : Env :=
  MkEnv (fun p => Ok (MkFs p true)) (fun _ => None) currentOpt
    (fun opt => forallb wellFormed (IncludeRule opt ++ ExcludeRule opt))
    (fun c _ => Ok c) (fun _ => None) (fun _ _ _ => quietRun).

(** As [envOk], but the transfer fails while one more change arrives. *)
Definition envFailing : Env :=
  MkEnv (fun p => Ok (MkFs p true)) (fun _ => None) currentOpt
    (fun _ => true) (fun c _ => Ok c) (fun _ => None)
    (fun _ _ _ =>
       MkRunOutcome (Some "Sync failed") [] 7200
         [MkArrival "local:/a" "later.md" EntryObject 7100]).

(** As [envStrict], and the transfer fails. *)
Definition envStrictFailing : Env :=
  MkEnv (fun p => Ok (MkFs p true)) (fun _ => None) currentOpt
    (fun opt => forallb wellFormed (IncludeRule opt ++ ExcludeRule opt))
    (fun c _ => Ok c) (fun _ => None)
    (fun _ _ _ => MkRunOutcome (Some "Sync failed") [] 7200 []).

Definition pushA : Profile :=
  MkProfile "/a" "gdrive:/a" 0 0 [] [] false.

Definition watching (key : string) (cs : list FileChange) : Watcher :=
  MkWatcher key (MkFs key true) (Some [DefaultPollInterval]) cs true.

Definition row (key : string) (count : Z) : DeltaState :=
  MkDeltaState key key true (Some 3600) count.

Definition serviceWith (cs : list FileChange) : DeltaService :=
  MkDeltaService
    (MkDeltaStore
       (<["local:/a" := row "local:/a" 10]>
          (<["gdrive:/a" := row "gdrive:/a" 10]> ∅)) true)
    (<["local:/a" := watching "local:/a" cs]>
       (<["gdrive:/a" := watching "gdrive:/a" []]> ∅)).

Definition notes : FileChange :=
  MkFileChange "notes.md" EntryObject ChangeModified 3700.

Definition odd : FileChange :=
  MkFileChange "a[b" EntryObject ChangeModified 3700.

Definition outbox : Chan SyncStatusDTO := MkChan 64 [] false.

(** What [prepare] yields for [pushA] under the environments above. *)
Definition preparedA : Prepared :=
  MkPrepared pushA (MkFs "/a" true) (MkFs "gdrive:/a" true) [MkFilter noRules].

End Scenario.

Module Samples.
Import Dto Progress.

(** The number of listed transfers that failed, and the number that are
    checked or being checked. *)
Definition failedCount (ts : list FileTransferInfo) : Z :=
  len (filter (fun ft => ftStatus ft = "failed") ts).

Definition checkCount (ts : list FileTransferInfo) : Z :=
  len (filter (fun ft => ftStatus ft = "checked" \/ ftStatus ft = "checking") ts).

(** The counters the accounting snapshot reports by itself. *)
Definition rawErrors (stats : Stats) : Z :=
  match remoteStats stats with
  | Ok rs => orElse (errors rs) 0
  | Err _ => GetErrors stats
  end.

Definition rawChecks (stats : Stats) : Z :=
  match remoteStats stats with
  | Ok rs => orElse (checks rs) 0
  | Err _ => GetChecks stats
  end.

(** The channel has room for one more sample. *)
Definition hasRoom {A} (c : Chan A) : Prop := (length (buf c) < cap c)%nat.

(** *** Concrete inputs *)

Definition noStats : RemoteStats :=
  MkRemoteStats None None None None None None None None None None None None None.

(** A listing error was counted, no file is listed. *)
Definition listingFailed : Stats :=
  MkStats
    (Ok (MkRemoteStats None None None None (Some 2) None None None None None
           None None None))
    [] 0 0 2 0 0 500 "0s" None.

(** One file is being checked. *)
Definition checkingA : Stats :=
  MkStats
    (Ok (MkRemoteStats None None None None None None None None None None None
           None (Some ["a.txt"])))
    [] 0 0 0 0 0 500 "0s" None.

(** Nothing is in flight and nothing is recorded as done. *)
Definition idle : Stats :=
  MkStats (Ok noStats) [] 0 0 0 0 0 1000 "1s" None.

(** One transfer failed, one file was checked. *)
Definition mixed : Stats :=
  MkStats (Ok noStats)
    [MkTransferSnapshot "bad.bin" 10 0 (Some "boom") false;
     MkTransferSnapshot "same.txt" 5 5 None true]
    1 0 3 7 0 1000 "1s" None.

(** One byte of 2^60 is still to be moved. *)
Definition almostDone : Stats :=
  MkStats
    (Ok (MkRemoteStats None (Some (2 ^ 60)) None (Some (2 ^ 60 - 1)) None None
           None None None None None None None))
    [] 0 0 0 0 0 1000 "1s" None.

Definition emptyBox : Chan SyncStatusDTO := MkChan 64 [] false.

End Samples.

Module Vault.
Import Auth.

(** The contract of the cipher: what was sealed under a key and a nonce
    opens to the plaintext under the same key and nonce. *)
Definition opensSealed (g : AEAD) : Prop :=
  forall key nonce plaintext,
    Open g key nonce (Seal g key nonce plaintext) = Some plaintext.

(** A key length [aes.NewCipher] accepts. *)
Definition validKey (key : bytes) : Prop :=
  length key = 16%nat \/ length key = 24%nat \/ length key = 32%nat.

(** No other goroutine touches the vault while [Unlock] sleeps. *)
Definition quiet (env : Env) : Prop := forall w, meanwhile env w = w.

(** Nothing fails around the vault. *)
Definition healthy (env : Env) : Prop :=
  (forall path, readFails env path = false)
  /\ (forall path, writeFails env path = false)
  /\ initDatabaseFails env = false
  /\ completeInitializationFails env = false
  /\ quiet env.

(** The vault has no lockout pending and no failed attempt counted. *)
Definition clean (a : AuthData) : Prop :=
  FailedAttempts a = 0 /\ LockoutUntil a = NoStamp.

(** Where a configuration file stands relative to the directory [fs0] it
    started from: untouched plaintext without an [.enc] file, or only an
    [.enc] file holding the original content sealed under [key]. *)
Definition plainAt (fs0 fs : gmap string bytes) (path : string) : Prop :=
  fs !! path = fs0 !! path /\ fs !! (path +:+ ".enc") = None.

Definition sealedAt (g : AEAD) (key : bytes) (fs0 fs : gmap string bytes)
    (path : string) : Prop :=
  fs !! path = None
  /\ NewCipher key = Ok key
  /\ exists nonce plaintext,
       fs0 !! path = Some plaintext
       /\ length nonce = NonceSize
       /\ fs !! (path +:+ ".enc") = Some (nonce ++ Seal g key nonce plaintext).

Definition kept (g : AEAD) (key : bytes) (fs0 fs : gmap string bytes) : Prop :=
  forall path, path ∈ configFiles ->
    plainAt fs0 fs path \/ sealedAt g key fs0 fs path.

(** The directory after one file was sealed (its [.enc] written, the
    plaintext and the SQLite sidecars removed), and after one file was
    opened again. *)
Definition sealStep (fs : gmap string bytes) (path : string) (ct : bytes)
    : gmap string bytes :=
  delete (path +:+ "-shm")
    (delete (path +:+ "-wal") (delete path (<[path +:+ ".enc" := ct]> fs))).

Definition openStep (fs : gmap string bytes) (path : string) (pt : bytes)
    : gmap string bytes :=
  delete (path +:+ ".enc") (<[path := pt]> fs).

(** The re-encryption step of [ChangePassword] (salt, key, database
    closed, files encrypted), when the salt could be drawn. *)
Definition reencrypt (env : Env) (w : World) (newPassword : string)
    : option (World * option error) :=
  match Read (rand w) argon2SaltLen with
  | (Ok newSalt, r) =>
      Some (encryptConfigFiles env (closeDatabase (setRand w r))
              (deriveKey (kdf env) newPassword newSalt))
  | (Err _, _) => None
  end.

(** Consecutive [Unlock] calls with the given passwords. *)
Fixpoint attempts (env : Env) (w : World) (passwords : list string)
    : World * list Outcome :=
  match passwords with
  | [] => (w, [])
  | password :: rest =>
      let '(w1, o) := Unlock env w password in
      let '(w2, os) := attempts env w1 rest in
      (w2, o :: os)
  end.

(** *** Concrete inputs *)

Definition x00 : byte := Byte.x00.

(** A stand-in cipher: the sealed payload is the key, the nonce and the
    plaintext in a row; opening checks the first two. *)
Definition toyGcm : AEAD :=
  MkAEAD
    (fun key nonce plaintext => key ++ nonce ++ plaintext)
    (fun key nonce sealed =>
       if bool_decide (take (length (key ++ nonce)) sealed = key ++ nonce)
       then Some (drop (length (key ++ nonce)) sealed)
       else None).

(** A stand-in key derivation: the first 32 bytes of the password, the
    salt and zero padding in a row. *)
Definition toyKdf : KDF :=
  fun password salt =>
    take 32 (String.list_byte_of_string password ++ salt ++ replicate 32 x00).

Definition zeros : Rand := MkRand (fun _ => x00) 0 false.

Definition envWith (readFails writeFails : string -> bool) : Env :=
  MkEnv toyKdf toyGcm readFails writeFails false false true (fun w => w).

Definition envGood : Env := envWith (fun _ => false) (fun _ => false).

(** The disk refuses to create [rclone.conf.enc]. *)
Definition envNoEnc : Env :=
  envWith (fun _ => false) (fun p => String.eqb p "rclone.conf.enc").

(** The disk refuses to write the plaintext [rclone.conf] back. *)
Definition envNoPlain : Env :=
  envWith (fun _ => false) (fun p => String.eqb p "rclone.conf").

(** The disk refuses [ng-drive.db.enc] and, after that, [rclone.conf]. *)
Definition envDiskFull : Env :=
  envWith (fun _ => false)
    (fun p => String.eqb p "ng-drive.db.enc" || String.eqb p "rclone.conf").

Definition salt0 : bytes := replicate 32 x00.

Definition settings0 : AppSettings := MkAppSettings false false false.

Definition authFor (password : string) (failed : Z) (until : Stamp) : AuthData :=
  MkAuthData true (encodePasswordHash toyKdf password salt0) failed until
    settings0.

Definition conf : bytes := [Byte.x72; Byte.x63].
Definition db : bytes := [Byte.x64; Byte.x62].

(** An unlocked vault with both configuration files in plaintext. *)
Definition unlockedVault : World :=
  MkWorld true (Some (toyKdf "abcd" salt0)) (Some (authFor "abcd" 0 NoStamp))
    (<["rclone.conf" := conf]> (<["ng-drive.db" := db]> ∅))
    (Some (authFor "abcd" 0 NoStamp)) true zeros 0 [] [].

(** A locked vault without files, [failed] attempts counted. *)
Definition lockedVault (failed : Z) (until : Stamp) : World :=
  MkWorld false None (Some (authFor "abcd" failed until)) ∅
    (Some (authFor "abcd" failed until)) false zeros 0 [] [].

End Vault.

Module Lifecycle.
Import Auth Vault.

(** The record [Unlock] could have started from: same switch, same hash,
    same settings. *)
Definition sameSecret (a a' : AuthData) : Prop :=
  Enabled a' = Enabled a /\ PasswordHash a' = PasswordHash a
  /\ AppSettings_ a' = AppSettings_ a.

(** The failure counter is one [Unlock] can have left behind. *)
Definition counted (a : AuthData) : Prop := 0 <= FailedAttempts a < 10.

(** The entropy source has not failed. *)
Definition sound (r : Rand) : Prop := broken r = false.

(** The [k]-th stretch of 12 bytes the entropy source [r] delivers from
    where it stands. *)
Definition draw (r : Rand) (k : nat) : bytes :=
  map (entropy r) (seq (pos r + NonceSize * k) NonceSize).

(** How many of the configuration files listed in [paths] before [path]
    exist in [fs0]: the files [encryptConfigFiles] seals before it. *)
Fixpoint sealedBefore (fs0 : gmap string bytes) (paths : list string)
    (path : string) : nat :=
  match paths with
  | [] => 0
  | q :: rest =>
      if String.eqb q path then 0
      else ((if bool_decide (is_Some (fs0 !! q)) then 1 else 0)
            + sealedBefore fs0 rest path)%nat
  end.

(** A configuration file that exists is sealed under [key]: no plaintext,
    no SQLite sidecar, and an [.enc] file holding the nonce read from the
    entropy source [r] for this file, followed by the content sealed with
    that nonce. *)
Definition sealedWith (g : AEAD) (key : bytes) (r : Rand)
    (fs0 fs : gmap string bytes) (path : string) : Prop :=
  fs !! path = None
  /\ forall plaintext, fs0 !! path = Some plaintext ->
       let nonce := draw r (sealedBefore fs0 configFiles path) in
       fs !! (path +:+ "-wal") = None /\ fs !! (path +:+ "-shm") = None
       /\ fs !! (path +:+ ".enc") = Some (nonce ++ Seal g key nonce plaintext).

(** [decryptFile] cannot open [ct] under [key]: too short to hold a nonce,
    or rejected by the cipher, as an [.enc] file is that a write cut short
    left behind. *)
Definition unopenable (g : AEAD) (key ct : bytes) : Prop :=
  (length ct < NonceSize)%nat
  \/ Open g key (take NonceSize ct) (drop NonceSize ct) = None.

(** Where a file stands besides the two states of [kept] when a
    decryption was interrupted, or an encryption after its [.enc] file was
    written: the [.enc] file complete and some plaintext (whole or
    partial) beside it. *)
Definition bothAt (g : AEAD) (key : bytes) (fs0 fs : gmap string bytes)
    (path : string) : Prop :=
  is_Some (fs !! path)
  /\ NewCipher key = Ok key
  /\ exists nonce plaintext,
       fs0 !! path = Some plaintext
       /\ length nonce = NonceSize
       /\ fs !! (path +:+ ".enc") = Some (nonce ++ Seal g key nonce plaintext).

Definition interrupted (g : AEAD) (key : bytes) (fs0 fs : gmap string bytes)
    : Prop :=
  forall path, path ∈ configFiles ->
    plainAt fs0 fs path \/ sealedAt g key fs0 fs path \/ bothAt g key fs0 fs path.

(** Both forms of a configuration file are present. *)
Definition both (w : World) (path : string) : bool :=
  exists_ w path && exists_ w (path +:+ ".enc").

(** *** Concrete inputs *)

(** A vault without password, both configuration files in plaintext. *)
Definition openVault : World :=
  MkWorld true None (Some noAuth)
    (<["rclone.conf" := conf]> (<["ng-drive.db" := db]> ∅))
    None true zeros 0 [] [].

(** The directory an interrupted [Unlock] left behind: [rclone.conf] still
    sealed and its plaintext, cut short, beside it; [ng-drive.db]
    untouched. *)
Definition nonce0 : bytes := replicate 12 x00.

Definition crashedVault : World :=
  MkWorld false None None
    (<["rclone.conf" := [Byte.x72]]>
       (<["rclone.conf.enc" :=
            nonce0 ++ Seal toyGcm (toyKdf "abcd" salt0) nonce0 conf]>
          (<["ng-drive.db" := db]> ∅)))
    (Some (authFor "abcd" 0 NoStamp)) false zeros 0 [] [].

(** The directory an interrupted [Lock] left behind: [rclone.conf] whole
    and, beside it, the first five bytes of its [.enc] file. *)
Definition tornVault : World :=
  MkWorld false None None
    (<["rclone.conf" := conf]>
       (<["rclone.conf.enc" := replicate 5 x00]>
          (<["ng-drive.db" := db]> ∅)))
    (Some (authFor "abcd" 0 NoStamp)) false zeros 0 [] [].

(** An entropy source that delivers the bytes 0, 1, 2, ... *)
Definition counting : Rand :=
  MkRand (fun n => default x00 (Byte.of_nat (n mod 256))) 0 false.

(** [unlockedVault] with that entropy source. *)
Definition countingVault : World := setRand unlockedVault counting.

End Lifecycle.

Module Registry.
Import Delta Dto Rclone Scenario.

(** What can be asked of a delta service during its life. *)
Inductive ServiceOp : Type :=
| AskEnsureWatcher (remoteFs : Fs) (key : string)
| AskNotify (now : Time) (key path : string) (entryType : EntryType)
| AskGetChanges (key : string)
| AskRestoreChanges (key : string) (cs : list FileChange)
| AskCommitDelta (key : string)
| AskCommitFullSync (now : Time) (remoteFs : Fs) (key : string)
| AskStopAll
| AskSync (env : Env) (now : Time) (ctx : Context) (task : string)
    (profile : Profile) (outStatus : option (Chan SyncStatusDTO)).

Definition serve (d : DeltaService) (op : ServiceOp) : DeltaService :=
  match op with
  | AskEnsureWatcher remoteFs key => EnsureWatcher d remoteFs key
  | AskNotify now key path entryType => notify d now key path entryType
  | AskGetChanges key => snd (GetChanges d key)
  | AskRestoreChanges key cs => RestoreChanges d key cs
  | AskCommitDelta key => fst (CommitDelta d key)
  | AskCommitFullSync now remoteFs key => fst (CommitFullSync d now remoteFs key)
  | AskStopAll => StopAll d
  | AskSync env now ctx task profile outStatus =>
      match svc (Sync env now ctx task profile outStatus (Some d)) with
      | Some d' => d'
      | None => d
      end
  end.

(** The service after the requests [ops], starting from
    [NewDeltaService]. *)
Definition reached (store : DeltaStore) (ops : list ServiceOp) : DeltaService :=
  fold_left serve ops (NewDeltaService store).

(** A watcher as [EnsureWatcher] registers it under [key]. *)
Definition started (key : string) (w : Watcher) : Prop :=
  running w = true /\ Delta.remoteKey w = key
  /\ ChangeNotify (remoteFs w) = true
  /\ pollCh w = Some [DefaultPollInterval].

Definition wellRegistered (d : DeltaService) : Prop :=
  forall key w, watchers d !! key = Some w -> started key w.

(** The profile with its two ends exchanged. *)
Definition swapEnds (p : Profile) : Profile :=
  MkProfile (To p) (From p) (Parallel p) (Bandwidth p) (IncludedPaths p)
    (ExcludedPaths p) (UseRegex p).

Definition isTransfer (e : Event) : bool :=
  match e with
  | Transfer _ => true
  | _ => false
  end.

Definition isSkip (e : Event) : bool :=
  match e with
  | SentSkipped => true
  | _ => false
  end.

(** How many events of a trace satisfy [f]. *)
Definition count (f : Event -> bool) (t : list Event) : nat :=
  length (List.filter f t).

Definition isCommit (e : Event) : bool :=
  match e with
  | CallCommitDelta _ => true
  | CallCommitFullSync _ => true
  | _ => false
  end.

End Registry.

Module Remotes.
Import Progress Crypt.

(** What this package relies on from [config.CreateRemote]: the section is
    stored under the name with the given type and parameters, or the call
    fails and leaves the configuration as it was. *)
Definition storesOrFails (env : Env) : Prop :=
  forall cfg name ty params,
    CreateRemote env cfg name ty params
    = (<[name := MkSection ty params]> cfg, None)
    \/ exists e, CreateRemote env cfg name ty params = (cfg, Some e).

(** What this package relies on from [config.CreateRemote], whether it
    succeeds or fails: no section but the named one is touched. *)
Definition touchesOwn (env : Env) : Prop :=
  forall cfg name ty params other,
    other <> name ->
    fst (CreateRemote env cfg name ty params) !! other = cfg !! other.

(** The next two names drawn are not in use and differ. *)
Definition freshNames (env : Env) (s : State) : Prop :=
  let n1 := tempCryptPrefix +:+ uuid8 env (drawn s) in
  let n2 := tempCryptPrefix +:+ uuid8 env (S (drawn s)) in
  config s !! n1 = None /\ config s !! n2 = None /\ n1 <> n2.

(** The remote [location] is a temporary crypt remote of the
    configuration that wraps [wrapped]. *)
Definition wraps (cfg : Config) (location wrapped : string) : Prop :=
  exists name sec,
    location = name +:+ ":"
    /\ HasPrefix name tempCryptPrefix = true
    /\ cfg !! name = Some sec
    /\ sType sec = "crypt"
    /\ sParams sec !! "remote" = Some wrapped.

(** *** Concrete inputs *)

Definition envToy : Env :=
  MkEnv (fun p => Ok ("obscured-" +:+ p))
    (fun cfg name ty params =>
       if String.eqb name "_tmp_crypt_00000001"
       then (cfg, Some "config is read-only")
       else (<[name := MkSection ty params]> cfg, None))
    (fun n => if (n =? 0)%nat then "00000000" else "00000001").

(** [config.CreateRemote] stores the section and then fails for the
    name [_tmp_crypt_00000001], which stays half-made. *)
Definition envHalf : Env :=
  MkEnv (fun p => Ok ("obscured-" +:+ p))
    (fun cfg name ty params =>
       (<[name := MkSection ty params]> cfg,
        if String.eqb name "_tmp_crypt_00000001"
        then Some "config could not be saved" else None))
    (fun n => if (n =? 0)%nat then "00000000" else "00000001").

Definition start : State :=
  MkState (<["gdrive" := MkSection "drive" ∅]> ∅) 0.

Definition bothEnds : Profile :=
  MkProfile "/a" "gdrive:/a" true true "secret" "" "" true.

Definition sourceOnly : Profile :=
  MkProfile "/a" "gdrive:/a" true false "secret" "" "" true.

End Remotes.

Module Lines.
Import Dto Progress Samples.

(** A log line as the sampler stores it: not empty, no white space at
    either end. *)
Definition cleanLine (s : string) : Prop := s <> "" /\ TrimSpace s = s.

(** A sample whose log lines are clean and at most 50. *)
Definition cleanLogs (st : SyncStatusDTO) : Prop :=
  Forall cleanLine (LogMessages st) /\ len (LogMessages st) <= 50.

(** The accumulator holds clean lines and so does every sample offered so
    far. *)
Definition tidy (s : Sampler) : Prop :=
  Forall cleanLine (logAccum s) /\ Forall cleanLogs (buf (outStatus s)).

(** The sampler is running: not torn down and its goroutine not stopped. *)
Definition live (s : Sampler) : Prop := isClosed s = false /\ stopCh s = false.

(** The names a sample lists. *)
Definition listed (st : SyncStatusDTO) : list string :=
  map ftName (Transfers st).

(** The files being checked according to [stats]. *)
Definition checkingNow (stats : Stats) : gset string :=
  snd (createStatusFromStats stats []).

(** The files that were being checked at the previous tick and no longer
    are. *)
Definition leftChecking (s : Sampler) (stats : Stats) : list string :=
  filter (fun name => name ∉ checkingNow stats) (elements (prevChecking s)).

(** The accumulator of completed checks is within its bound and holds
    entries made by the sampler only. *)
Definition bounded (s : Sampler) : Prop :=
  len (completedChecks s) <= maxCompletedChecks
  /\ Forall (fun ft => ft = checkedEntry (ftName ft)) (completedChecks s).

(** *** Concrete inputs *)

(** A no-break space, U+00A0, in UTF-8. *)
Definition nbsp : string :=
  String (Ascii.ascii_of_nat 194) (String (Ascii.ascii_of_nat 160) "").

(** Two log lines and a print are waiting when the first tick comes. *)
Definition busy : list Activity :=
  [LogLine "[task-1] 2026/02/10 20:18:46 NOTICE: copied a.txt";
   SyncPrint "  hash ok  "; Tick checkingA; Tick idle].

End Lines.

(** ** Tactics *)

(** Puts the concatenation of two literal names in literal form. *)
Ltac literal :=
  repeat match goal with
    | |- context [String.append ?a ?b] =>
        let s := eval vm_compute in (String.append a b) in
        progress change (String.append a b) with s
    end.

(** Splits on the outcome of the [createTempCryptRemote] call in [H], as
    the lemma [L] under the contract [Hc] describes it. *)
Ltac create_outcome H L Hc :=
  match type of H with
  | context [Crypt.createTempCryptRemote ?env ?c ?n ?wp ?p1 ?p2 ?f ?d] =>
      let e := fresh "e" in
      let params := fresh "params" in
      let Hr := fresh "Hr" in
      let Hf := fresh "Hf" in
      let Hx := fresh "Hx" in
      destruct (L env c n wp p1 p2 f d Hc)
        as [[e Hx]|(params & Hx & Hr & Hf)];
      rewrite Hx in H; clear Hx
  end.

(** * Properties *)

Section RemoteKeys.
Import Delta Dto Rclone.

Lemma prefix_colon_cons (c : Ascii.ascii) (s : string) :
  String.prefix ":" (String c s) = true <-> c = ":"%char.
Proof.
  change (String.prefix ":" (String c s))
    with (if Ascii.ascii_dec ":" c then String.prefix "" s else false).
  destruct (Ascii.ascii_dec ":" c) as [<-|Hne].
  - split; [reflexivity|]. intros _. now destruct s.
  - split; [discriminate|]. intros ->. now contradiction Hne.
Qed.

Lemma Index_from_found (remote rest : string) (i : Z) :
  i <= Index_from i (remote +:+ ":" +:+ rest) ":".
Proof.
  revert i. induction remote as [|c remote IH]; intros i.
  - change ("" +:+ ":" +:+ rest) with (String ":" rest).
    cbn [Index_from].
    assert (String.prefix ":" (String ":" rest) = true) as ->
      by (apply prefix_colon_cons; reflexivity).
    lia.
  - change (String c remote +:+ ":" +:+ rest)
      with (String c (remote +:+ ":" +:+ rest)).
    cbn [Index_from].
    destruct (String.prefix ":" (String c (remote +:+ ":" +:+ rest))).
    + lia.
    + specialize (IH (i + 1)). lia.
Qed.

Lemma Index_from_absent (path : string) (i : Z) :
  (forall remote rest, path <> remote +:+ ":" +:+ rest) ->
  Index_from i path ":" = -1.
Proof.
  revert i. induction path as [|c path IH]; intros i Hbare.
  - reflexivity.
  - cbn [Index_from].
    destruct (String.prefix ":" (String c path)) eqn:Hp.
    + apply prefix_colon_cons in Hp. subst c.
      now contradiction (Hbare "" path).
    + apply IH. intros remote rest ->.
      now contradiction (Hbare (String c remote) rest).
Qed.

(** A location in which [strings.Index] finds no colon has no
    [<remote>:] prefix. *)
Lemma Index_from_none (path : string) :
  Index_from 0 path ":" = -1 ->
  forall remote rest, path <> remote +:+ ":" +:+ rest.
Proof.
  intros H remote rest ->.
  pose proof (Index_from_found remote rest 0). lia.
Qed.

Lemma remoteKey_remote (remote rest : string) :
  remoteKey (remote +:+ ":" +:+ rest) = remote +:+ ":" +:+ rest.
Proof.
  unfold remoteKey, Index.
  pose proof (Index_from_found remote rest 0) as H.
  destruct (Z.eqb_spec (Index_from 0 (remote +:+ ":" +:+ rest) ":") (-1));
    [lia | reflexivity].
Qed.

Lemma remoteKey_local (path : string) :
  (forall remote rest, path <> remote +:+ ":" +:+ rest) ->
  remoteKey path = "local:" +:+ path.
Proof.
  intros H. unfold remoteKey, Index.
  now rewrite (Index_from_absent path 0 H).
Qed.

End RemoteKeys.

Section SkipPolicy.
Import Delta Dto Rclone Scenario.

Lemma Since_le (now t : Time) (d : Duration) :
  d < maxDuration -> (Since now t >? d) = false -> now - t <= d.
Proof.
  unfold Since, Sub, maxDuration, minDuration. intros Hd H.
  rewrite Z.gtb_ltb, Z.ltb_ge in H.
  destruct (Z.gtb_spec (now - t) (2 ^ 63 - 1)); [lia|].
  destruct (Z.ltb_spec (now - t) (- 2 ^ 63)); lia.
Qed.

Lemma ShouldSkipSync_true (d : DeltaService) (now : Time) (key : string) :
  ShouldSkipSync d now key = true ->
  exists w state,
    watchers d !! key = Some w /\ running w = true
    /\ GetState (store d) key = Ok (Some state)
    /\ DeltaCount state < 50
    /\ (forall t, LastFullSync state = Some t -> now - t <= 24 * Hour)
    /\ changes w = [].
Proof.
  unfold ShouldSkipSync, IsRunning, Watcher_HasChanges.
  destruct (watchers d !! key) as [w|]; [|discriminate].
  destruct (running w) eqn:Hrun; [|discriminate]. cbn [negb].
  destruct (GetState (store d) key) as [[state|]|]; try discriminate.
  destruct (Z.geb_spec (DeltaCount state) MaxDeltaSyncsBeforeFullSync) as [|Hcnt];
    [discriminate|].
  intros H. exists w, state. repeat split; try done.
  - intros t Ht. rewrite Ht in H.
    destruct (Since now t >? MaxTimeBetweenFullSyncs) eqn:Hs; [discriminate|].
    apply Since_le in Hs; [exact Hs | reflexivity].
  - assert (negb (0 <? len (changes w)) = true) as Hc
      by (destruct (LastFullSync state); [destruct (Since now _ >? _)|]; done).
    apply negb_true_iff, Z.ltb_ge in Hc. unfold len in Hc.
    destruct (changes w); [done | cbn in Hc; lia].
Qed.

End SkipPolicy.

Section ScopeFilter.
Import Delta Dto Rclone Scenario.

Lemma len_pos_iff {A} (xs : list A) : (0 <? len xs) = true <-> xs <> [].
Proof. unfold len. destruct xs; cbn; split; done. Qed.

Lemma len_zero_iff {A} (xs : list A) : (len xs =? 0) = true <-> xs = [].
Proof. unfold len. destruct xs; cbn; split; done. Qed.

Lemma ShouldSkipSync_changes (d : DeltaService) (now : Time) (key : string)
    (w : Watcher) :
  watchers d !! key = Some w -> changes w <> [] ->
  ShouldSkipSync d now key = false.
Proof.
  intros Hw Hc. unfold ShouldSkipSync, IsRunning, Watcher_HasChanges.
  rewrite Hw. apply len_pos_iff in Hc. rewrite Hc.
  repeat case_match; reflexivity.
Qed.

Lemma GetChanges_running (d : DeltaService) (key : string) (w : Watcher) :
  watchers d !! key = Some w -> running w = true -> changes w <> [] ->
  GetChanges d key
  = (Some (MkChangeSet key (changes w) true),
     MkDeltaService (store d) (<[key := drained w]> (watchers d))).
Proof.
  intros Hw Hr Hc. unfold GetChanges, IsRunning, Watcher_DrainChanges, drained.
  rewrite Hw, Hr. cbn [negb].
  destruct (len (changes w) =? 0) eqn:Hz.
  - apply len_zero_iff in Hz. contradiction.
  - rewrite Hz. reflexivity.
Qed.

Lemma ReplaceConfig_fresh (ctx : Context) (f : Filter) :
  ReplaceConfig ctx f <> ctx.
Proof.
  unfold ReplaceConfig. intros H. apply (f_equal length) in H. cbn in H. lia.
Qed.

Lemma applyScopeFilter_compiles (env : Env) (ctx : Context)
    (cs : list FileChange) :
  compiles env (scopeOpt env ctx cs) = true ->
  applyScopeFilter env ctx cs = MkFilter (scopeOpt env ctx cs) :: ctx.
Proof. intros H. unfold applyScopeFilter, NewFilter. now rewrite H. Qed.

Lemma applyScopeFilter_rejected (env : Env) (ctx : Context)
    (cs : list FileChange) :
  compiles env (scopeOpt env ctx cs) = false ->
  applyScopeFilter env ctx cs = ctx.
Proof. intros H. unfold applyScopeFilter, NewFilter. now rewrite H. Qed.

(** The include rules only grow. *)
Lemma scopeRules_keeps (cs : list FileChange) (seen : gset string)
    (inc : list string) (rule : string) :
  rule ∈ inc -> rule ∈ scopeRules seen inc cs.
Proof.
  revert seen inc. induction cs as [|c cs IH]; intros seen inc Hin; cbn; [done|].
  case_bool_decide; [by apply IH|].
  apply IH. case_bool_decide; set_solver.
Qed.

Lemma scopeRules_path (cs : list FileChange) (seen : gset string)
    (inc : list string) (c : FileChange) :
  (forall p, p ∈ seen -> "/" +:+ p ∈ inc) ->
  c ∈ cs -> "/" +:+ Path c ∈ scopeRules seen inc cs.
Proof.
  revert seen inc. induction cs as [|c0 cs IH]; intros seen inc Hseen Hin.
  { by apply elem_of_nil in Hin. }
  cbn. apply elem_of_cons in Hin as [->|Hin].
  - case_bool_decide as Hs.
    + apply scopeRules_keeps. by apply Hseen.
    + apply scopeRules_keeps. set_solver.
  - case_bool_decide as Hs; [by apply IH|].
    apply IH; [|done]. intros p Hp.
    apply elem_of_union in Hp as [Hp|Hp].
    + apply elem_of_singleton in Hp as ->. set_solver.
    + specialize (Hseen p Hp). case_bool_decide; set_solver.
Qed.

Lemma scopeRules_directory (pre post : list FileChange) (seen : gset string)
    (inc : list string) (c : FileChange) :
  Path c ∉ seen -> Path c ∉ map Path pre ->
  fcEntryType c = EntryDirectory ->
  "/" +:+ Path c +:+ "/**" ∈ scopeRules seen inc (pre ++ c :: post).
Proof.
  revert seen inc. induction pre as [|c0 pre IH]; intros seen inc Hs Hpre Hdir.
  - cbn. rewrite bool_decide_eq_false_2 by done.
    rewrite bool_decide_eq_true_2 by done.
    apply scopeRules_keeps. set_solver.
  - cbn. cbn in Hpre. apply not_elem_of_cons in Hpre as [Hne Hpre].
    case_bool_decide; [by apply IH|].
    apply IH; [set_solver|done|done].
Qed.

Lemma last_snoc {A} (xs : list A) (x : A) : last (xs ++ [x]) = Some x.
Proof. induction xs as [|y [|z xs] IH]; try done. Qed.

Lemma scopeOpt_rules (env : Env) (ctx : Context) (cs : list FileChange) :
  (forall c, c ∈ cs -> "/" +:+ Path c ∈ IncludeRule (scopeOpt env ctx cs))
  /\ (forall c, firstFor cs c -> fcEntryType c = EntryDirectory ->
        "/" +:+ Path c +:+ "/**" ∈ IncludeRule (scopeOpt env ctx cs))
  /\ last (ExcludeRule (scopeOpt env ctx cs)) = Some "**".
Proof.
  unfold scopeOpt. cbn [IncludeRule ExcludeRule]. split; [|split].
  - intros c Hc. apply scopeRules_path; [set_solver|done].
  - intros c (pre & post & -> & Hpre) Hdir.
    apply scopeRules_directory; [set_solver|done|done].
  - apply last_snoc.
Qed.

End ScopeFilter.

Section SyncPlan.
Import Delta Dto Rclone Scenario.

(** How [Sync] unfolds once the preparation succeeded and the source
    watcher holds changes. *)
Lemma Sync_with_changes (env : Env) (now : Time) (ctx : Context)
    (task : string) (profile : Profile)
    (outStatus : option (Chan SyncStatusDTO)) (d : DeltaService)
    (p : Prepared) (w : Watcher) :
  prepare env ctx task profile = Ok p ->
  watchers d !! remoteKey (From (pProfile p)) = Some w ->
  running w = true -> changes w <> [] ->
  let srcKey := remoteKey (From (pProfile p)) in
  let dstKey := remoteKey (To (pProfile p)) in
  let d1 := MkDeltaService (store d) (<[srcKey := drained w]> (watchers d)) in
  let scoped :=
    (len (changes w) <? MaxChangesBeforeFallback)
    && compiles env (scopeOpt env (pCtx p) (changes w)) in
  let ran :=
    if scoped then MkFilter (scopeOpt env (pCtx p) (changes w)) :: pCtx p
    else pCtx p in
  let r := Run env ran (dstFs p) (srcFs p) in
  let d2 := deliver d1 (arrived r) in
  let head := [CallShouldSkipSync srcKey; CallGetChanges srcKey; Transfer ran] in
  Sync env now ctx task profile outStatus (Some d)
  = match runErr r with
    | None =>
        if scoped then
          MkSyncResult None
            (Some (fst (CommitDelta (fst (CommitDelta d2 srcKey)) dstKey)))
            (offer outStatus (samples r))
            (head ++ [CallCommitDelta srcKey; CallCommitDelta dstKey])
        else
          MkSyncResult None
            (Some (fst (CommitFullSync
                          (fst (CommitFullSync d2 (finishedAt r) (srcFs p) srcKey))
                          (finishedAt r) (dstFs p) dstKey)))
            (offer outStatus (samples r))
            (head ++ [CallCommitFullSync srcKey; CallCommitFullSync dstKey])
    | Some e =>
        if scoped then
          MkSyncResult (Some e) (Some (RestoreChanges d2 srcKey (changes w)))
            (offer outStatus (samples r))
            (head ++ [CallRestoreChanges srcKey (changes w)])
        else
          MkSyncResult (Some e) (Some d2) (offer outStatus (samples r)) head
    end.
Proof.
  intros Hp Hw Hr Hc. cbv zeta. unfold Sync. rewrite Hp.
  rewrite (ShouldSkipSync_changes d now _ w Hw Hc).
  rewrite (GetChanges_running d _ w Hw Hr Hc).
  cbn [andb HasChanges Changes app].
  destruct (len (changes w) <? MaxChangesBeforeFallback) eqn:Hlen; cbn [andb].
  - destruct (compiles env (scopeOpt env (pCtx p) (changes w))) eqn:Hok.
    + rewrite (applyScopeFilter_compiles _ _ _ Hok).
      rewrite bool_decide_eq_true_2
        by apply (ReplaceConfig_fresh (pCtx p) (MkFilter _)).
      destruct (runErr _); [|reflexivity].
      apply len_pos_iff in Hc. rewrite Hc. reflexivity.
    + rewrite (applyScopeFilter_rejected _ _ _ Hok).
      rewrite bool_decide_eq_false_2 by (intros H; by apply H).
      destruct (runErr _); reflexivity.
  - destruct (runErr _); reflexivity.
Qed.

End SyncPlan.

Section ChangeAccounting.
Import Delta Dto Rclone Scenario.

Lemma notify_lookup (d : DeltaService) (now : Time) (key k path : string)
    (entryType : EntryType) (w : Watcher) :
  watchers d !! key = Some w -> running w = true ->
  exists w',
    watchers (notify d now k path entryType) !! key = Some w'
    /\ running w' = true
    /\ changes w'
       = changes w
           ++ arrivedAt key [MkArrival k path entryType now].
Proof.
  intros Hw Hr. unfold notify, arrivedAt, IsRunning.
  destruct (decide (k = key)) as [->|Hne].
  - rewrite Hw, Hr. cbn [watchers]. rewrite lookup_insert_eq.
    eexists; split; [reflexivity|]. split; [done|].
    cbn. rewrite decide_True by done. reflexivity.
  - exists w. cbn. rewrite decide_False by done. cbn. rewrite app_nil_r.
    destruct (watchers d !! k) as [wk|] eqn:Hk; [|done].
    destruct (running wk); [|done].
    cbn [watchers]. by rewrite lookup_insert_ne.
Qed.

Lemma arrivedAt_cons (key : string) (a : Arrival) (ars : list Arrival) :
  arrivedAt key (a :: ars) = arrivedAt key [a] ++ arrivedAt key ars.
Proof.
  unfold arrivedAt. cbn. destruct (decide (arKey a = key)); reflexivity.
Qed.

Lemma deliver_lookup (ars : list Arrival) (d : DeltaService) (key : string)
    (w : Watcher) :
  watchers d !! key = Some w -> running w = true ->
  exists w',
    watchers (deliver d ars) !! key = Some w'
    /\ running w' = true
    /\ changes w' = changes w ++ arrivedAt key ars.
Proof.
  revert d w. induction ars as [|a ars IH]; intros d w Hw Hr.
  - exists w. cbn. by rewrite app_nil_r.
  - destruct (notify_lookup d (arAt a) key (arKey a) (arPath a)
                (arEntryType a) w Hw Hr) as (w1 & Hw1 & Hr1 & Hc1).
    destruct (IH _ w1 Hw1 Hr1) as (w2 & Hw2 & Hr2 & Hc2).
    exists w2. split; [exact Hw2|]. split; [done|].
    rewrite Hc2, Hc1, (arrivedAt_cons key a ars).
    destruct a; cbn. by rewrite <- app_assoc.
Qed.

Lemma runOps_accounts (ops : list WatcherOp) (w : Watcher) :
  len (changes (fst (runOps w ops))) + len (snd (runOps w ops))
  = len (changes w) + notifications ops + restored ops.
Proof.
  revert w. induction ops as [|[now path entryType| |cs] ops IH]; intros w.
  - cbn. unfold len. cbn. lia.
  - cbn [runOps notifications restored]. rewrite IH.
    unfold notifyCallback, len. cbn [changes]. rewrite length_app. cbn. lia.
  - cbn [runOps notifications restored]. unfold Watcher_DrainChanges.
    destruct (len (changes w) =? 0) eqn:Hz.
    + specialize (IH w). destruct (runOps w ops) as [w2 later].
      cbn [fst snd app] in *. exact IH.
    + specialize (IH (MkWatcher (Delta.remoteKey w) (remoteFs w) (pollCh w) []
                        (running w))).
      destruct (runOps _ ops) as [w2 later]. cbn [fst snd changes] in *.
      unfold len in *. rewrite length_app. cbn in IH. lia.
  - cbn [runOps notifications restored]. rewrite IH.
    unfold Watcher_RestoreChanges.
    destruct (len cs =? 0) eqn:Hz.
    + apply len_zero_iff in Hz. subst cs. unfold len. cbn. lia.
    + unfold len. cbn [changes]. rewrite length_app. lia.
Qed.

Lemma restored_nonneg (ops : list WatcherOp) : 0 <= restored ops.
Proof.
  induction ops as [|[now path entryType| |cs] ops IH]; cbn [restored];
    unfold len; lia.
Qed.

Lemma Watcher_RestoreChanges_prepends (w : Watcher) (cs : list FileChange) :
  changes (Watcher_RestoreChanges w cs) = cs ++ changes w.
Proof.
  unfold Watcher_RestoreChanges. destruct (len cs =? 0) eqn:Hz; [|done].
  apply len_zero_iff in Hz. by subst cs.
Qed.

(** C3.  Every change a callback appended is either still buffered or was
    handed out by a drain: over any sequence of callbacks, drains and
    restores the buffered and the delivered changes add up to the initial
    buffer, the callbacks and the restored changes, so once the buffer is
    empty the drains have delivered at least as many changes as there were
    callbacks; [RestoreChanges] puts the restored changes in front of the
    buffer; and a scoped delta sync that fails leaves the source watcher
    with the drained changes followed by those that arrived during the
    transfer. *)
Theorem changes_accounted :
  (forall (w : Watcher) (ops : list WatcherOp),
     len (changes (fst (runOps w ops))) + len (snd (runOps w ops))
     = len (changes w) + notifications ops + restored ops)
  /\ (forall (w : Watcher) (ops : list WatcherOp),
        changes (fst (runOps w ops)) = [] ->
        notifications ops <= len (snd (runOps w ops)))
  /\ (forall (w : Watcher) (cs : list FileChange),
        changes (Watcher_RestoreChanges w cs) = cs ++ changes w)
  /\ (forall (env : Env) (now : Time) (ctx : Context) (task : string)
             (profile : Profile) (outStatus : option (Chan SyncStatusDTO))
             (d : DeltaService) (p : Prepared) (w : Watcher) (e : error),
        prepare env ctx task profile = Ok p ->
        watchers d !! remoteKey (From (pProfile p)) = Some w ->
        running w = true -> changes w <> [] ->
        len (changes w) < MaxChangesBeforeFallback ->
        compiles env (scopeOpt env (pCtx p) (changes w)) = true ->
        let ran := MkFilter (scopeOpt env (pCtx p) (changes w)) :: pCtx p in
        runErr (Run env ran (dstFs p) (srcFs p)) = Some e ->
        exists d' w',
          svc (Sync env now ctx task profile outStatus (Some d)) = Some d'
          /\ watchers d' !! remoteKey (From (pProfile p)) = Some w'
          /\ changes w'
             = changes w
                 ++ arrivedAt (remoteKey (From (pProfile p)))
                      (arrived (Run env ran (dstFs p) (srcFs p)))).
Proof.
  split; [exact (fun w ops => runOps_accounts ops w)|].
  split.
  { intros w ops Hempty. pose proof (runOps_accounts ops w) as H.
    pose proof (restored_nonneg ops). rewrite Hempty in H.
    unfold len in *. cbn [length] in H. lia. }
  split; [exact Watcher_RestoreChanges_prepends|].
  intros env now ctx task profile outStatus d p w e Hp Hw Hr Hc Hlen Hok ran He.
  rewrite (Sync_with_changes env now ctx task profile outStatus d p w Hp Hw Hr Hc).
  apply Z.ltb_lt in Hlen. rewrite Hlen, Hok. cbn [andb].
  fold ran. rewrite He. cbn [svc].
  set (d1 := MkDeltaService _ _).
  assert (watchers d1 !! remoteKey (From (pProfile p)) = Some (drained w)) as H1
    by (subst d1; cbn [watchers]; apply lookup_insert_eq).
  destruct (deliver_lookup (arrived (Run env ran (dstFs p) (srcFs p))) d1 _ _
              H1 Hr) as (w2 & Hw2 & Hr2 & Hc2).
  eexists. exists (Watcher_RestoreChanges w2 (changes w)).
  split; [reflexivity|].
  unfold RestoreChanges, IsRunning. rewrite Hw2, Hr2. cbn [negb watchers].
  rewrite lookup_insert_eq. split; [reflexivity|].
  rewrite Watcher_RestoreChanges_prepends, Hc2. reflexivity.
Qed.

End ChangeAccounting.

Section ScopedSync.
Import Delta Dto Rclone Scenario.

Lemma changes_accounted_witness :
  exists d' w',
    svc (Sync envFailing 3700 [] "push" pushA (Some outbox)
           (Some (serviceWith [notes]))) = Some d'
    /\ watchers d' !! "local:/a" = Some w'
    /\ changes w'
       = [notes; MkFileChange "later.md" EntryObject ChangeModified 7100].
Proof.
  destruct changes_accounted as (_ & _ & _ & H).
  exact (H envFailing 3700 [] "push" pushA (Some outbox) (serviceWith [notes])
           preparedA (watching "local:/a" [notes]) "Sync failed"
           eq_refl ltac:(vm_compute; reflexivity) eq_refl ltac:(discriminate)
           ltac:(vm_compute; reflexivity) eq_refl eq_refl).
Defined.

(** C2, as amended.  When the preparation succeeded and the running source
    watcher holds changes, the sync is never skipped; with fewer than 5000
    changes whose scope filter compiles, the one transfer runs under a
    filter that keeps the rules already in force, includes [/p] for every
    changed path [p] and [/p/**] for every path whose first reported change
    is a directory, and ends its exclude rules with [**]; with 5000 changes
    or more, or when the scope filter does not compile, the one transfer
    runs under the unscoped context (a full sync). *)
Theorem scoped_delta_sync (env : Env) (now : Time) (ctx : Context)
    (task : string) (profile : Profile)
    (outStatus : option (Chan SyncStatusDTO)) (d : DeltaService)
    (p : Prepared) (w : Watcher) :
  prepare env ctx task profile = Ok p ->
  watchers d !! remoteKey (From (pProfile p)) = Some w ->
  running w = true -> changes w <> [] ->
  let r := Sync env now ctx task profile outStatus (Some d) in
  let opt := scopeOpt env (pCtx p) (changes w) in
  (SentSkipped ∉ trace r)
  /\ (len (changes w) < 5000 -> compiles env opt = true ->
      (forall ran, Transfer ran ∈ trace r <-> ran = MkFilter opt :: pCtx p)
      /\ (forall c, c ∈ changes w -> "/" +:+ Path c ∈ IncludeRule opt)
      /\ (forall c, firstFor (changes w) c ->
            fcEntryType c = EntryDirectory ->
            "/" +:+ Path c +:+ "/**" ∈ IncludeRule opt)
      /\ last (ExcludeRule opt) = Some "**")
  /\ (5000 <= len (changes w) \/ compiles env opt = false ->
      forall ran, Transfer ran ∈ trace r <-> ran = pCtx p).
Proof.
  intros Hp Hw Hr Hc r opt. subst r.
  rewrite (Sync_with_changes env now ctx task profile outStatus d p w Hp Hw Hr Hc).
  fold opt. split; [|split].
  - repeat case_match; cbn [trace];
      rewrite ?elem_of_app, !elem_of_cons, elem_of_nil; naive_solver.
  - intros Hlen Hok. apply Z.ltb_lt in Hlen.
    change 5000 with MaxChangesBeforeFallback in Hlen. rewrite Hlen, Hok.
    cbn [andb]. split; [|apply scopeOpt_rules].
    intros ran. repeat case_match; cbn [trace];
      rewrite ?elem_of_app, !elem_of_cons, elem_of_nil; naive_solver.
  - intros Hfull.
    assert (((len (changes w) <? MaxChangesBeforeFallback) && compiles env opt)
            = false) as ->.
    { destruct Hfull as [Hlen| ->]; [|apply andb_false_r].
      apply andb_false_iff. left. apply Z.ltb_ge. exact Hlen. }
    intros ran. repeat case_match; cbn [trace];
      rewrite ?elem_of_app, !elem_of_cons, elem_of_nil; naive_solver.
Qed.

Lemma scoped_delta_sync_witness :
  let r := Sync envOk 3700 [] "push" pushA (Some outbox)
             (Some (serviceWith [notes])) in
  (forall ran,
     Transfer ran ∈ trace r
     <-> ran = [MkFilter (MkFilterOpt ["/notes.md"] ["**"]); MkFilter noRules])
  /\ last ["**"] = Some "**".
Proof.
  destruct (scoped_delta_sync envOk 3700 [] "push" pushA (Some outbox)
              (serviceWith [notes]) preparedA (watching "local:/a" [notes])
              eq_refl ltac:(vm_compute; reflexivity) eq_refl
              ltac:(discriminate)) as (_ & H & _).
  destruct (H ltac:(vm_compute; reflexivity) eq_refl) as (Hran & _ & _ & Hlast).
  split; [exact Hran | exact Hlast].
Defined.

(** C2 as stated fails: the source watcher holds one change (fewer than
    5000) and the sync is not skipped, but the scope filter for the path
    [a[b] does not compile, so the transfer runs unscoped and a full sync is
    committed; no transfer ran under a filter with the include rule and the
    catch-all exclude. *)
Lemma scoped_delta_sync_counterexample :
  let d := serviceWith [odd] in
  let r := Sync envStrict 3700 [] "push" pushA (Some outbox) (Some d) in
  prepare envStrict [] "push" pushA = Ok preparedA
  /\ watchers d !! remoteKey (From (pProfile preparedA))
     = Some (watching "local:/a" [odd])
  /\ len [odd] < 5000
  /\ trace r
     = [CallShouldSkipSync "local:/a"; CallGetChanges "local:/a";
        Transfer (pCtx preparedA);
        CallCommitFullSync "local:/a"; CallCommitFullSync "gdrive:/a"]
  /\ ~ (exists ran,
          Transfer ran ∈ trace r
          /\ "/a[b" ∈ IncludeRule (currentOpt ran)
          /\ last (ExcludeRule (currentOpt ran)) = Some "**").
Proof.
  assert (trace (Sync envStrict 3700 [] "push" pushA (Some outbox)
                   (Some (serviceWith [odd])))
          = [CallShouldSkipSync "local:/a"; CallGetChanges "local:/a";
             Transfer (pCtx preparedA);
             CallCommitFullSync "local:/a"; CallCommitFullSync "gdrive:/a"])
    as Htrace by (vm_compute; reflexivity).
  cbv zeta. rewrite Htrace.
  split; [reflexivity|]. split; [vm_compute; reflexivity|].
  split; [reflexivity|]. split; [reflexivity|].
  intros (ran & Hin & Hrule & _).
  rewrite !elem_of_cons, elem_of_nil in Hin.
  destruct Hin as [|[|[Hin|[|[|[]]]]]]; try discriminate.
  injection Hin as ->. cbn in Hrule.
  by apply elem_of_nil in Hrule.
Qed.

End ScopedSync.

Section RegisteredWatchers.
Import Delta Dto Rclone Scenario.

Lemma allRunning_insert (d : DeltaService) (s : DeltaStore) (key : string)
    (w : Watcher) :
  allRunning d -> running w = true ->
  allRunning (MkDeltaService s (<[key := w]> (watchers d))).
Proof.
  intros Hd Hw k w'. cbn [watchers]. rewrite lookup_insert.
  case_decide; [intros [= <-]; exact Hw | apply Hd].
Qed.

Lemma EnsureWatcher_allRunning (d : DeltaService) (f : Fs) (key : string) :
  allRunning d -> allRunning (EnsureWatcher d f key).
Proof.
  intros Hd. unfold EnsureWatcher, getProviderType.
  destruct (ChangeNotify f) eqn:Hcn; [|exact Hd].
  destruct (String.eqb (Name f) "none"); [exact Hd|].
  assert (running (Start (NewWatcher key f) DefaultPollInterval) = true) as Hs
    by (unfold Start, NewWatcher; cbn; by rewrite Hcn).
  destruct (watchers d !! key) as [w|]; [destruct (IsRunning w); [exact Hd|]|];
    by apply allRunning_insert.
Qed.

Lemma CommitFullSync_allRunning (d : DeltaService) (now : Time) (f : Fs)
    (key : string) :
  allRunning d -> allRunning (fst (CommitFullSync d now f key)).
Proof.
  intros Hd. unfold CommitFullSync.
  destruct (negb (String.eqb (getProviderType f) "none")).
  - pose proof (EnsureWatcher_allRunning d f key Hd) as He.
    destruct (RecordFullSync _ _ _ _ _) as [s e]. exact He.
  - destruct (RecordFullSync _ _ _ _ _) as [s e]. exact Hd.
Qed.

Lemma CommitDelta_allRunning (d : DeltaService) (key : string) :
  allRunning d -> allRunning (fst (CommitDelta d key)).
Proof.
  intros Hd. unfold CommitDelta.
  destruct (IncrementDeltaCount (store d) key) as [s e]. exact Hd.
Qed.

Lemma GetChanges_allRunning (d : DeltaService) (key : string) :
  allRunning d -> allRunning (snd (GetChanges d key)).
Proof.
  intros Hd. unfold GetChanges.
  destruct (watchers d !! key) as [w|] eqn:Hw; [|exact Hd].
  pose proof (Hd key w Hw) as Hr. unfold IsRunning. rewrite Hr. cbn [negb].
  unfold Watcher_DrainChanges.
  destruct (len (changes w) =? 0); [rewrite Z.eqb_refl|];
    [|destruct (len (changes w) =? 0)]; cbn [snd];
    by apply allRunning_insert.
Qed.

Lemma RestoreChanges_allRunning (d : DeltaService) (key : string)
    (cs : list FileChange) :
  allRunning d -> allRunning (RestoreChanges d key cs).
Proof.
  intros Hd. unfold RestoreChanges.
  destruct (watchers d !! key) as [w|] eqn:Hw; [|exact Hd].
  pose proof (Hd key w Hw) as Hr. unfold IsRunning. rewrite Hr. cbn [negb].
  apply allRunning_insert; [exact Hd|].
  unfold Watcher_RestoreChanges. by destruct (len cs =? 0).
Qed.

Lemma deliver_allRunning (ars : list Arrival) (d : DeltaService) :
  allRunning d -> allRunning (deliver d ars).
Proof.
  revert d. induction ars as [|a ars IH]; intros d Hd; [exact Hd|].
  apply IH. unfold notify.
  destruct (watchers d !! arKey a) as [w|] eqn:Hw; [|exact Hd].
  destruct (IsRunning w) eqn:Hr; [|exact Hd].
  by apply allRunning_insert.
Qed.

(** [Sync] hands back a service in which every registered watcher runs,
    when it was given one. *)
Lemma Sync_allRunning (env : Env) (now : Time) (ctx : Context)
    (task : string) (profile : Profile)
    (outStatus : option (Chan SyncStatusDTO)) (d d' : DeltaService) :
  allRunning d ->
  svc (Sync env now ctx task profile outStatus (Some d)) = Some d' ->
  allRunning d'.
Proof.
  intros Hd. unfold Sync.
  destruct (prepare env ctx task profile) as [p|e]; [|by intros [= <-]].
  destruct (ShouldSkipSync d now _ && ShouldSkipSync d now _).
  { cbn [svc]. intros [= <-]. by do 2 apply CommitDelta_allRunning. }
  pose proof (GetChanges_allRunning d (remoteKey (From (pProfile p))) Hd) as Hg.
  destruct (GetChanges d (remoteKey (From (pProfile p)))) as [srcChanges d1].
  cbn [snd] in Hg.
  destruct (match srcChanges with Some _ => _ | None => _ end)
    as [[ctx1 usedDelta] drainedChanges].
  pose proof (deliver_allRunning
                (arrived (Run env ctx1 (dstFs p) (srcFs p))) d1 Hg) as H2.
  destruct (runErr _); [destruct (usedDelta && _)|destruct usedDelta];
    cbn [svc]; intros [= <-].
  - by apply RestoreChanges_allRunning.
  - exact H2.
  - by do 2 apply CommitDelta_allRunning.
  - by do 2 apply CommitFullSync_allRunning.
Qed.

(** When a sync that fell back to a full transfer fails, the changes it
    drained are not put back: the source buffer is empty afterwards and the
    next request is skipped. *)
Lemma failed_full_sync_drops_changes :
  let r := Sync envStrictFailing 3700 [] "push" pushA (Some outbox)
             (Some (serviceWith [odd])) in
  syncErr r = Some "Sync failed"
  /\ exists d',
       svc r = Some d'
       /\ watchers d' !! "local:/a" = Some (watching "local:/a" [])
       /\ SentSkipped
            ∈ trace (Sync envOk 3800 [] "push" pushA (Some outbox) (Some d')).
Proof.
  cbv zeta. split; [vm_compute; reflexivity|].
  eexists. split; [reflexivity|]. split; [vm_compute; reflexivity|].
  vm_compute. do 2 apply list_elem_of_further. apply list_elem_of_here.
Qed.

(** A skip increments both counters (10 becomes 11), and a source counter
    at 50 forces a full sync that resets it and stamps the baseline with
    the whole second of the instant. *)
Lemma skip_and_forced_full_sync :
  (exists d',
     svc (Sync envOk 7200 [] "push" pushA (Some outbox) (Some (serviceWith [])))
     = Some d'
     /\ DeltaCount <$> rows (store d') !! "local:/a" = Some 11
     /\ DeltaCount <$> rows (store d') !! "gdrive:/a" = Some 11)
  /\ (let d50 :=
        MkDeltaService
          (MkDeltaStore (<["local:/a" := row "local:/a" 50]>
                           (rows (store (serviceWith [])))) true)
          (watchers (serviceWith [])) in
      ShouldSkipSync d50 7200 "local:/a" = false
      /\ exists d',
           svc (Sync envOk 7200 [] "push" pushA (Some outbox) (Some d50))
           = Some d'
           /\ rows (store d') !! "local:/a"
              = Some (MkDeltaState "local:/a" "/a" true
                        (Some (wholeSecond 7200)) 0)).
Proof.
  split.
  - eexists. split; [reflexivity|]. split; vm_compute; reflexivity.
  - cbv zeta. split; [vm_compute; reflexivity|].
    eexists. split; [reflexivity|]. vm_compute. reflexivity.
Qed.

End RegisteredWatchers.

Section SkipAndKeys.
Import Delta Dto Rclone Scenario.

Lemma Sync_trace_keys (env : Env) (now : Time) (ctx : Context)
    (task : string) (profile : Profile)
    (outStatus : option (Chan SyncStatusDTO))
    (deltaSvc : option DeltaService) (p : Prepared) (e : Event)
    (key : string) :
  prepare env ctx task profile = Ok p ->
  e ∈ trace (Sync env now ctx task profile outStatus deltaSvc) ->
  keyOf e = Some key ->
  key = remoteKey (From (pProfile p)) \/ key = remoteKey (To (pProfile p)).
Proof.
  intros Hp. unfold Sync. rewrite Hp.
  destruct deltaSvc as [d|]; repeat case_match; cbn [trace];
    rewrite ?elem_of_app, ?elem_of_cons, ?elem_of_nil;
    intros Hin Hkey; intuition subst; cbn in Hkey; try discriminate;
    injection Hkey as <-; auto.
Qed.

Lemma Sync_skipped (env : Env) (now : Time) (ctx : Context)
    (task : string) (profile : Profile)
    (outStatus : option (Chan SyncStatusDTO)) (d : DeltaService) :
  let r := Sync env now ctx task profile outStatus (Some d) in
  SentSkipped ∈ trace r ->
  exists p,
    prepare env ctx task profile = Ok p
    /\ ShouldSkipSync d now (remoteKey (From (pProfile p))) = true
    /\ ShouldSkipSync d now (remoteKey (To (pProfile p))) = true
    /\ syncErr r = None
    /\ out r = sendSkippedStatus now outStatus
    /\ trace r
       = [CallShouldSkipSync (remoteKey (From (pProfile p)));
          CallShouldSkipSync (remoteKey (To (pProfile p)));
          SentSkipped;
          CallCommitDelta (remoteKey (From (pProfile p)));
          CallCommitDelta (remoteKey (To (pProfile p)))].
Proof.
  cbv zeta. unfold Sync. destruct (prepare env ctx task profile) as [p|e].
  2:{ cbn. intros H. by apply elem_of_nil in H. }
  intros H. exists p. split; [done|].
  destruct (ShouldSkipSync d now (remoteKey (From (pProfile p)))) eqn:Hs;
  destruct (ShouldSkipSync d now (remoteKey (To (pProfile p)))) eqn:Hd;
    cbn [andb] in H |- *; try done; exfalso;
    repeat case_match; cbn [trace] in H;
    rewrite ?elem_of_app, ?elem_of_cons, ?elem_of_nil in H; naive_solver.
Qed.

Lemma wholeSecond_bounds (t : Time) :
  t - Second < wholeSecond t /\ wholeSecond t <= t.
Proof.
  unfold wholeSecond, Second.
  pose proof (Z.mul_div_le t 1000000000 ltac:(lia)).
  pose proof (Z.mul_succ_div_gt t 1000000000 ltac:(lia)). lia.
Qed.

Lemma EnsureWatcher_available (d : DeltaService) (f : Fs) (key : string) :
  available (store (EnsureWatcher d f key)) = available (store d).
Proof.
  unfold EnsureWatcher, SetWatching.
  repeat case_match; try reflexivity; cbn; by destruct (available (store d)).
Qed.

Lemma CommitFullSync_recorded (d : DeltaService) (now : Time) (f : Fs)
    (key : string) (state : DeltaState) :
  GetState (store (fst (CommitFullSync d now f key))) key = Ok (Some state) ->
  DeltaCount state = 0 /\ LastFullSync state = Some (wholeSecond now).
Proof.
  unfold CommitFullSync.
  destruct (negb (String.eqb (getProviderType f) "none"));
    unfold RecordFullSync, GetState.
  - rewrite EnsureWatcher_available.
    destruct (available (store d)) eqn:Ha; cbn [fst store].
    + cbn [available rows]. rewrite lookup_insert_eq. by intros [= <-].
    + by rewrite EnsureWatcher_available, Ha.
  - destruct (available (store d)) eqn:Ha; cbn [fst store].
    + cbn [available rows]. rewrite lookup_insert_eq. by intros [= <-].
    + by rewrite Ha.
Qed.

(** C1.  [ShouldSkipSync] answers true only for a key whose watcher exists
    and runs, whose persisted state can be read, whose consecutive-delta
    counter is below 50, whose last full sync (if one is recorded) lies at
    most 24 hours back, and whose change buffer is empty; the instant a
    full sync records is the whole second of its commit, with the counter
    at 0; and [Sync] sends the delta-skip sample only when
    [ShouldSkipSync] is true for the source key and for the destination
    key, in which case it returns without error, having asked both,
    offered the sample and committed a delta on both sides, with no
    transfer. *)
Theorem skip_only_when_quiet (d : DeltaService) (now : Time) :
  (forall key,
     ShouldSkipSync d now key = true ->
     exists w state,
       watchers d !! key = Some w /\ running w = true
       /\ GetState (store d) key = Ok (Some state)
       /\ DeltaCount state < 50
       /\ (forall t, LastFullSync state = Some t -> now - t <= 24 * Hour)
       /\ changes w = [])
  /\ (forall (f : Fs) (key : string) (state : DeltaState),
        GetState (store (fst (CommitFullSync d now f key))) key
        = Ok (Some state) ->
        DeltaCount state = 0
        /\ LastFullSync state = Some (wholeSecond now)
        /\ now - Second < wholeSecond now <= now)
  /\ (forall (env : Env) (ctx : Context) (task : string) (profile : Profile)
             (outStatus : option (Chan SyncStatusDTO)),
        let r := Sync env now ctx task profile outStatus (Some d) in
        SentSkipped ∈ trace r ->
        exists p,
          prepare env ctx task profile = Ok p
          /\ ShouldSkipSync d now (remoteKey (From (pProfile p))) = true
          /\ ShouldSkipSync d now (remoteKey (To (pProfile p))) = true
          /\ syncErr r = None
          /\ out r = sendSkippedStatus now outStatus
          /\ trace r
             = [CallShouldSkipSync (remoteKey (From (pProfile p)));
                CallShouldSkipSync (remoteKey (To (pProfile p)));
                SentSkipped;
                CallCommitDelta (remoteKey (From (pProfile p)));
                CallCommitDelta (remoteKey (To (pProfile p)))]).
Proof.
  split; [|split].
  - intros key. apply ShouldSkipSync_true.
  - intros f key state H.
    destruct (CommitFullSync_recorded d now f key state H) as [H0 Ht].
    split; [exact H0|]. split; [exact Ht|]. apply wholeSecond_bounds.
  - intros env ctx task profile outStatus. apply Sync_skipped.
Qed.

Lemma skip_only_when_quiet_witness :
  (exists w state,
     watchers (serviceWith []) !! "gdrive:/a" = Some w /\ running w = true
     /\ GetState (store (serviceWith [])) "gdrive:/a" = Ok (Some state)
     /\ DeltaCount state < 50
     /\ (forall t, LastFullSync state = Some t -> 7200 - t <= 24 * Hour)
     /\ changes w = [])
  /\ (exists p,
        prepare envOk [] "push" pushA = Ok p
        /\ ShouldSkipSync (serviceWith []) 7200
             (remoteKey (From (pProfile p))) = true
        /\ ShouldSkipSync (serviceWith []) 7200
             (remoteKey (To (pProfile p))) = true).
Proof.
  destruct (skip_only_when_quiet (serviceWith []) 7200) as (Hkey & _ & Hsync).
  split.
  - exact (Hkey "gdrive:/a" ltac:(vm_compute; reflexivity)).
  - destruct (Hsync envOk [] "push" pushA (Some outbox)
                ltac:(vm_compute; do 2 apply list_elem_of_further;
                      apply list_elem_of_here)) as (p & Hp & Hs & Hd & _).
    exists p. split; [exact Hp|]. split; [exact Hs | exact Hd].
Defined.

Lemma specRemotePrefix_colon (path : string) :
  specRemotePrefix path = true -> Index path ":" <> -1.
Proof.
  unfold specRemotePrefix. intros H. apply andb_true_iff in H as [H _].
  apply Z.ltb_lt in H. lia.
Qed.

Lemma remoteKey_colon (path : string) :
  Index path ":" <> -1 -> remoteKey path = path.
Proof.
  intros H. unfold remoteKey.
  destruct (Z.eqb_spec (Index path ":") (-1)); [contradiction | reflexivity].
Qed.

(** C9, as amended.  A location in which a colon occurs anywhere is its
    own key, so every location of the form [<remote>:<rest>] is, whether
    or not the colon ends a remote name; a location without any colon
    gets the key ["local:"] followed by the location; and every call
    [Sync] makes on the delta service carries the key of the source or of
    the destination location. *)
Theorem remote_key_normalisation :
  (forall remote rest : string,
     remoteKey (remote +:+ ":" +:+ rest) = remote +:+ ":" +:+ rest)
  /\ (forall path : string,
        specRemotePrefix path = true -> remoteKey path = path)
  /\ (forall path : string,
        specRemotePrefix path = false -> Index path ":" <> -1 ->
        remoteKey path = path)
  /\ (forall path : string,
        (forall remote rest, path <> remote +:+ ":" +:+ rest) ->
        remoteKey path = "local:" +:+ path)
  /\ (forall (env : Env) (now : Time) (ctx : Context) (task : string)
             (profile : Profile) (outStatus : option (Chan SyncStatusDTO))
             (deltaSvc : option DeltaService) (p : Prepared) (e : Event)
             (key : string),
        prepare env ctx task profile = Ok p ->
        e ∈ trace (Sync env now ctx task profile outStatus deltaSvc) ->
        keyOf e = Some key ->
        key = remoteKey (From (pProfile p))
        \/ key = remoteKey (To (pProfile p))).
Proof.
  split; [exact remoteKey_remote|].
  split; [intros path H; by apply remoteKey_colon, specRemotePrefix_colon|].
  split; [intros path _ H; by apply remoteKey_colon|].
  split; [exact remoteKey_local|].
  exact Sync_trace_keys.
Qed.

Lemma remote_key_normalisation_witness :
  remoteKey "/local/path" = "local:/local/path"
  /\ remoteKey "gdrive:/data" = "gdrive:/data"
  /\ forall e key,
       e ∈ trace (Sync envOk 7200 [] "push" pushA (Some outbox)
                    (Some (serviceWith []))) ->
       keyOf e = Some key -> key = "local:/a" \/ key = "gdrive:/a".
Proof.
  destruct remote_key_normalisation as (_ & Hremote & _ & Hlocal & Hkeys).
  split; [|split].
  - apply (Hlocal "/local/path").
    apply (Index_from_none "/local/path"). vm_compute. reflexivity.
  - apply (Hremote "gdrive:/data"). vm_compute. reflexivity.
  - intros e key.
    exact (Hkeys envOk 7200 [] "push" pushA (Some outbox)
             (Some (serviceWith [])) preparedA e key eq_refl).
Defined.

(** C9 as stated fails for a bare local path that holds a colon:
    [/weird/pa:th] has no [<remote>:] prefix, the colon coming after a
    slash, and yet it is kept as its own key instead of being rewritten to
    [local:/weird/pa:th]. *)
Lemma remote_key_normalisation_counterexample :
  specRemotePrefix "/weird/pa:th" = false
  /\ remoteKey "/weird/pa:th" = "/weird/pa:th"
  /\ remoteKey "/weird/pa:th" <> "local:" +:+ "/weird/pa:th".
Proof. vm_compute. repeat split; discriminate. Qed.

End SkipAndKeys.
Section SampleCounts.
Import Dto Progress Samples.

Lemma isFailed_spec (ft : FileTransferInfo) :
  isFailed ft = true <-> ftStatus ft = "failed".
Proof. unfold isFailed. apply String.eqb_eq. Qed.

Lemma isCheck_spec (ft : FileTransferInfo) :
  isCheck ft = true <-> ftStatus ft = "checked" \/ ftStatus ft = "checking".
Proof.
  unfold isCheck. rewrite orb_true_iff, !String.eqb_eq. reflexivity.
Qed.

Lemma countStatus_counts (ts : list FileTransferInfo) (e c : Z) :
  countStatus ts e c = (e + failedCount ts, c + checkCount ts).
Proof.
  revert e c. unfold failedCount, checkCount, len.
  induction ts as [|ft ts IH]; intros e c; cbn [countStatus].
  - cbn. f_equal; lia.
  - rewrite !filter_cons.
    destruct (isFailed ft) eqn:Hf.
    + apply isFailed_spec in Hf. rewrite IH.
      rewrite decide_True by done.
      rewrite decide_False by (rewrite Hf; intros [|]; discriminate).
      cbn [length]. f_equal; lia.
    + assert (ftStatus ft <> "failed") as Hnf.
      { intros H. apply isFailed_spec in H. congruence. }
      rewrite (decide_False (P := ftStatus ft = "failed")) by done.
      destruct (isCheck ft) eqn:Hc.
      * apply isCheck_spec in Hc. rewrite IH. rewrite decide_True by done.
        cbn [length]. f_equal; lia.
      * assert (~ (ftStatus ft = "checked" \/ ftStatus ft = "checking")) as Hnc.
        { intros H. apply isCheck_spec in H. congruence. }
        rewrite IH. rewrite decide_False by done. reflexivity.
Qed.

(** C7, as amended.  In every sample composed by [createStatusFromStats]
    whose transfer list is not empty, the error count is the number of
    listed transfers with status failed and the check count is the number
    with status checked or checking; with an empty list the counters of the
    accounting snapshot are reported unchanged. *)
Theorem counts_match_listed_transfers (stats : Stats)
    (logMessages : list string) :
  let st := fst (createStatusFromStats stats logMessages) in
  (Transfers st <> [] ->
     Errors st = failedCount (Transfers st)
     /\ Checks st = checkCount (Transfers st))
  /\ (Transfers st = [] ->
        Errors st = rawErrors stats /\ Checks st = rawChecks stats).
Proof.
  cbv zeta. unfold createStatusFromStats, rawErrors, rawChecks.
  set (ts := match remoteStats stats with
             | Ok rs => composeTransfers rs (Transferred stats)
             | Err _ => []
             end).
  destruct (len ts >? 0) eqn:Hlen.
  - rewrite countStatus_counts. cbn [fst Transfers Errors Checks].
    split; [intros _; split; lia|].
    intros ->. discriminate.
  - cbn [fst Transfers Errors Checks]. split; [|done].
    intros Hne. destruct ts; [done|]. discriminate.
Qed.

Lemma counts_match_listed_transfers_witness :
  let st := fst (createStatusFromStats mixed []) in
  Errors st = 1 /\ Checks st = 1.
Proof.
  destruct (counts_match_listed_transfers mixed []) as [H _].
  exact (H ltac:(discriminate)).
Defined.

(** C7 as stated fails: with an error counted by the accounting and no
    file listed, the sample reports two errors and lists no transfer. *)
Lemma counts_match_listed_transfers_counterexample :
  let st := fst (createStatusFromStats listingFailed []) in
  Transfers st = [] /\ Errors st = 2 /\ failedCount (Transfers st) = 0
  /\ Errors st <> failedCount (Transfers st).
Proof. vm_compute. repeat split; discriminate. Qed.

(** The progress is computed in [float64]: with one byte of 2^60 still to
    be moved the quotient rounds to 1 and the sample says completed. *)
Lemma progress_rounds_to_completed :
  let st := fst (createStatusFromStats almostDone []) in
  BytesTransferred st < TotalBytes st /\ Status st = "completed".
Proof. vm_compute. split; reflexivity. Qed.

End SampleCounts.
Section Teardown.
Import Dto Progress Samples.

Lemma trySend_closed {A} (c : Chan A) (v : A) :
  closed (fst (trySend c v)) = closed c.
Proof. unfold trySend. by destruct (length (buf c) <? cap c)%nat. Qed.

Lemma trySend_room {A} (c : Chan A) (v : A) :
  hasRoom c -> buf (fst (trySend c v)) = buf c ++ [v].
Proof.
  unfold hasRoom, trySend. intros H.
  apply Nat.ltb_lt in H. by rewrite H.
Qed.

Lemma trySend_full {A} (c : Chan A) (v : A) :
  ~ hasRoom c -> fst (trySend c v) = c.
Proof.
  unfold hasRoom, trySend. intros H.
  apply Nat.ltb_nlt in H. by rewrite H.
Qed.

Lemma createStatusFromStats_logs (stats : Stats) (logMessages : list string) :
  LogMessages (fst (createStatusFromStats stats logMessages))
  = lastN maxLogMessagesPerStatus logMessages.
Proof.
  unfold createStatusFromStats.
  destruct (if len _ >? 0 then _ else _) as [e c]. reflexivity.
Qed.

Lemma act_closed (s : Sampler) (a : Activity) :
  closed (outStatus (act s a)) = closed (outStatus s).
Proof.
  destruct a as [text|msg|stats]; cbn [act].
  - unfold onLog. repeat case_match; reflexivity.
  - unfold onSyncPrintf. repeat case_match; reflexivity.
  - unfold onTick, drainLogs. repeat case_match; try reflexivity.
    cbn [outStatus]. apply trySend_closed.
Qed.

Lemma emitFinal_closed (s : Sampler) (stats : Stats) :
  closed (outStatus (emitFinal s stats)) = closed (outStatus s).
Proof.
  unfold emitFinal, drainLogs. case_match; [|reflexivity].
  cbn [outStatus]. apply trySend_closed.
Qed.

Lemma runTask_closed (acts : list Activity) (s : Sampler) (final : Stats) :
  closed (outStatus (cleanup (fold_left act acts s) final))
  = closed (outStatus s).
Proof.
  revert s. induction acts as [|a acts IH]; intros s; cbn [fold_left].
  - unfold cleanup. rewrite emitFinal_closed. reflexivity.
  - rewrite IH. apply act_closed.
Qed.

(** C8, as amended.  The teardown sets the closed flag, detaches the
    sinks, signals and joins the sampler and empties the log accumulator;
    it offers exactly one final sample, carrying the last 50 residual log
    lines, when there are residual lines and the channel has room, and no
    sample otherwise; and neither the teardown nor anything the running
    sampler does closes the caller's channel. *)
Theorem teardown_final_sample (s : Sampler) (stats : Stats) :
  let s' := cleanup s stats in
  isClosed s' = true /\ sinks s' = false /\ stopCh s' = true
  /\ joined s' = true /\ logAccum s' = []
  /\ (logAccum s <> [] -> hasRoom (outStatus s) ->
      exists final,
        buf (outStatus s') = buf (outStatus s) ++ [final]
        /\ LogMessages final = lastN maxLogMessagesPerStatus (logAccum s))
  /\ (logAccum s = [] \/ ~ hasRoom (outStatus s) ->
      buf (outStatus s') = buf (outStatus s))
  /\ (forall (out : Chan SyncStatusDTO) (acts : list Activity),
        closed (outStatus (runTask out acts stats)) = closed out).
Proof.
  cbv zeta. unfold cleanup, emitFinal, drainLogs.
  cbn [join signalStop detachSinks setClosed logAccum isClosed sinks stopCh
       joined prevChecking completedChecks outStatus].
  destruct (len (logAccum s) >? 0) eqn:Hlen.
  - cbn [isClosed sinks stopCh joined logAccum outStatus].
    repeat (split; [reflexivity|]). split; [|split].
    + intros _ Hroom. eexists. split; [apply trySend_room; exact Hroom|].
      apply createStatusFromStats_logs.
    + intros [Hnil|Hfull].
      * rewrite Hnil in Hlen. discriminate.
      * by rewrite trySend_full.
    + intros out acts. apply runTask_closed.
  - cbn [isClosed sinks stopCh joined logAccum outStatus].
    repeat (split; [reflexivity|]). split; [|split].
    + intros Hne. destruct (logAccum s); [done | discriminate].
    + reflexivity.
    + intros out acts. apply runTask_closed.
Qed.

Lemma teardown_final_sample_witness :
  let s := onSyncPrintf (startProgress emptyBox) "done" in
  exists final,
    buf (outStatus (cleanup s idle)) = [final]
    /\ LogMessages final = ["done"].
Proof.
  destruct (teardown_final_sample
              (onSyncPrintf (startProgress emptyBox) "done") idle)
    as (_ & _ & _ & _ & _ & H & _).
  exact (H ltac:(discriminate) ltac:(vm_compute; lia)).
Defined.

(** C8 as stated fails: a task that ran with no log line left in the
    accumulator is torn down without any final sample; the channel holds
    exactly what the last tick sent. *)
Lemma teardown_final_sample_counterexample :
  let running := fold_left act [Tick idle] (startProgress emptyBox) in
  logAccum running = []
  /\ length (buf (outStatus running)) = 1%nat
  /\ buf (outStatus (cleanup running idle)) = buf (outStatus running)
  /\ buf (outStatus (runTask emptyBox [] idle)) = [].
Proof. vm_compute. repeat split; reflexivity. Qed.

End Teardown.

Section MissedCases.
Import Delta Dto Rclone Scenario Progress Samples.

(** A path reported first as a file and then as a directory gets only its
    file rule: the loop skips every later change of a path it has seen. *)
Lemma scopeRules_path_reported_twice :
  scopeRules ∅ []
    [MkFileChange "d" EntryObject ChangeModified 1;
     MkFileChange "d" EntryDirectory ChangeModified 2]
  = ["/d"].
Proof. vm_compute. reflexivity. Qed.

(** The sampler adds the checks that completed between two ticks after the
    counts were derived: the second sample lists one checked file and
    reports no check. *)
Lemma tick_lists_uncounted_check :
  let s := onTick (onTick (startProgress emptyBox) checkingA) idle in
  exists first second,
    buf (outStatus s) = [first; second]
    /\ Checks second = 0
    /\ checkCount (Transfers second) = 1.
Proof. vm_compute. eauto. Qed.

End MissedCases.

Section Envelope.
Import Auth Vault.

Lemma NewCipher_valid (key : bytes) : validKey key -> NewCipher key = Ok key.
Proof.
  unfold validKey, NewCipher. intros [->|[->| ->]]; reflexivity.
Qed.

Lemma NewCipher_ok (key block : bytes) :
  NewCipher key = Ok block -> block = key /\ validKey key.
Proof.
  unfold NewCipher, validKey. intros H.
  destruct (length key =? 16)%nat eqn:H16;
    [apply Nat.eqb_eq in H16; cbn in H; injection H as <-; auto|].
  destruct (length key =? 24)%nat eqn:H24;
    [apply Nat.eqb_eq in H24; cbn in H; injection H as <-; auto|].
  destruct (length key =? 32)%nat eqn:H32;
    [apply Nat.eqb_eq in H32; cbn in H; injection H as <-; auto|].
  discriminate.
Qed.


Lemma Read_length (r r' : Rand) (n : nat) (b : bytes) :
  Read r n = (Ok b, r') -> length b = n.
Proof.
  unfold Read. destruct (broken r); [discriminate|].
  intros H. injection H as <- _. by rewrite length_map, length_seq.
Qed.

(** The envelope written by [EncryptData]: the nonce drawn for this call,
    12 bytes long, followed by the sealed payload. *)
Lemma EncryptData_layout (g : AEAD) (r r' : Rand) (data key out : bytes) :
  EncryptData g r data key = (Ok out, r') ->
  exists nonce,
    Read r NonceSize = (Ok nonce, r')
    /\ length nonce = 12%nat
    /\ out = nonce ++ Seal g key nonce data.
Proof.
  unfold EncryptData. destruct (NewCipher key) as [block|e] eqn:Hk;
    [|discriminate].
  apply NewCipher_ok in Hk as [-> _].
  destruct (Read r NonceSize) as [[nonce|e] r1] eqn:Hr; [|discriminate].
  intros H. injection H as <- <-. exists nonce.
  split; [reflexivity|]. split; [|reflexivity].
  exact (Read_length _ _ _ _ Hr).
Qed.

(** Decrypting what [EncryptData] produced gives the data back, for a
    cipher that opens what it sealed. *)
Lemma DecryptData_EncryptData (g : AEAD) (r r' : Rand)
    (data key out : bytes) :
  opensSealed g ->
  EncryptData g r data key = (Ok out, r') ->
  DecryptData g out key = Ok data.
Proof.
  intros Hg He.
  destruct (EncryptData_layout _ _ _ _ _ _ He) as (nonce & _ & Hn & ->).
  unfold EncryptData in He. unfold DecryptData.
  destruct (NewCipher key) as [block|e] eqn:Hk; [|discriminate].
  apply NewCipher_ok in Hk as [-> _].
  assert ((length (nonce ++ Seal g key nonce data) <? NonceSize)%nat = false)
    as -> by (apply Nat.ltb_ge; rewrite length_app, Hn; unfold NonceSize; lia).
  change NonceSize with 12%nat. rewrite <- Hn.
  rewrite take_app_length, drop_app_length, Hg. reflexivity.
Qed.





End Envelope.

Section VaultFrames.
Import Auth Vault.

Lemma saveAuthData_vault (env : Env) (w : World) :
  let w' := fst (saveAuthData env w) in
  unlocked w' = unlocked w /\ encKey w' = encKey w /\ authData w' = authData w
  /\ files w' = files w /\ slept w' = slept w /\ clock w' = clock w.
Proof. unfold saveAuthData. destruct (writeFails env _); cbn; auto 10. Qed.

Lemma encryptEach_frame (env : Env) (paths : list string) (key : bytes)
    (w : World) :
  let w' := fst (encryptEach env w paths key) in
  unlocked w' = unlocked w /\ encKey w' = encKey w /\ authData w' = authData w
  /\ authFile w' = authFile w /\ dbOpen w' = dbOpen w
  /\ slept w' = slept w /\ clock w' = clock w /\ emitted w' = emitted w.
Proof.
  revert w. induction paths as [|path paths IH]; intros w; cbn [encryptEach].
  { cbn. auto 10. }
  destruct (negb (exists_ w path)); [apply IH|].
  unfold encryptFile, WriteFile.
  destruct (ReadFile env w path); [|cbn; auto 10].
  destruct (NewCipher key); [|cbn; auto 10].
  destruct (Read (rand w) NonceSize) as [[nonce|e] r]; [|cbn; auto 10].
  destruct (writeFails env _); [cbn; auto 10|].
  cbn [fst snd]. cbv zeta.
  match goal with |- context [encryptEach env ?w1 paths key] =>
    specialize (IH w1); cbv zeta in IH; cbn in IH |- * end.
  exact IH.
Qed.

Lemma decryptEach_frame (env : Env) (paths : list string) (key : bytes)
    (w : World) :
  let w' := fst (decryptEach env w paths key) in
  unlocked w' = unlocked w /\ encKey w' = encKey w /\ authData w' = authData w
  /\ authFile w' = authFile w /\ dbOpen w' = dbOpen w /\ rand w' = rand w
  /\ slept w' = slept w /\ clock w' = clock w /\ emitted w' = emitted w.
Proof.
  revert w. induction paths as [|path paths IH]; intros w; cbn [decryptEach].
  { cbn. auto 10. }
  cbv zeta. destruct (negb (exists_ w _)); [apply IH|].
  unfold decryptFile, WriteFile.
  destruct (ReadFile env w _); [|cbn; auto 10].
  destruct (NewCipher key); [|cbn; auto 10].
  destruct (length _ <? NonceSize)%nat; [cbn; auto 10|].
  destruct (Open _ _ _ _); [|cbn; auto 10].
  destruct (writeFails env _); [cbn; auto 10|].
  cbn [fst snd].
  match goal with |- context [decryptEach env ?w1 paths key] =>
    specialize (IH w1); cbv zeta in IH; cbn in IH |- * end.
  exact IH.
Qed.

End VaultFrames.

Section RateLimit.
Import Auth Vault.

Lemma lockedFor_positive (now : Time) (l : Stamp) (remaining : Z) :
  lockedFor now l = Some remaining -> 1 <= remaining.
Proof.
  destruct l as [|sec|s]; cbn; try discriminate.
  destruct (Z.ltb_spec now (sec * Second)) as [Hlt|]; [|discriminate].
  intros H. injection H as <-.
  unfold ceilSeconds, Sub, maxDuration, minDuration, Second in *.
  destruct (Z.gtb_spec (sec * 1000000000 - now) (2 ^ 63 - 1)).
  - apply Z.div_le_lower_bound; lia.
  - destruct (Z.ltb_spec (sec * 1000000000 - now) (- 2 ^ 63)); [lia|].
    apply Z.div_le_lower_bound; lia.
Qed.

Lemma initializeApp_frame (env : Env) (w : World) :
  let w' := fst (initializeApp env w) in
  unlocked w' = unlocked w /\ encKey w' = encKey w /\ authData w' = authData w
  /\ files w' = files w /\ slept w' = slept w /\ clock w' = clock w.
Proof.
  unfold initializeApp, InitDatabase.
  destruct (initDatabaseFails env); [cbn; auto 10|].
  destruct (completeInitializationFails env); cbn; auto 10.
Qed.

Lemma emitAuthEvent_frame (env : Env) (w : World) (e : EventType) :
  let w' := emitAuthEvent env w e in
  unlocked w' = unlocked w /\ encKey w' = encKey w /\ authData w' = authData w
  /\ files w' = files w /\ slept w' = slept w /\ clock w' = clock w
  /\ authFile w' = authFile w /\ dbOpen w' = dbOpen w.
Proof. unfold emitAuthEvent. destruct (hasBus env); cbn; auto 10. Qed.

(** The password check never sleeps. *)
Lemma checkPassword_slept (env : Env) (w : World) (a : AuthData)
    (password : string) :
  slept (fst (checkPassword env w a password)) = slept w
  /\ clock (fst (checkPassword env w a password)) = clock w.
Proof.
  unfold checkPassword.
  destruct (verifyPasswordHash _ _ _); cbn [negb].
  2:{ cbn [fst]. 
      match goal with |- context [saveAuthData env ?wx] =>
        destruct (saveAuthData_vault env wx) as (_ & _ & _ & _ & -> & ->) end.
      done. }
  destruct (extractSalt _) as [salt|e]; [|done].
  unfold decryptConfigFiles, encryptConfigFiles.
  match goal with |- context [decryptEach env ?wx ?ps ?k] =>
    pose proof (decryptEach_frame env ps k wx) as Hf; cbv zeta in Hf;
    destruct (decryptEach env wx ps k) as [w1 [e|]] end;
    cbn [fst] in Hf; destruct Hf as (_ & _ & _ & _ & _ & _ & Hs & Hc & _);
    [done|].
  match goal with |- context [initializeApp env ?wx] =>
    pose proof (initializeApp_frame env wx) as Hi; cbv zeta in Hi;
    destruct (initializeApp env wx) as [w2 [e|]] end;
    cbn [fst] in Hi; destruct Hi as (_ & _ & _ & _ & Hs2 & Hc2).
  - cbn [fst].
    match goal with |- context [encryptEach env ?wx ?ps ?k] =>
      destruct (encryptEach_frame env ps k wx)
        as (_ & _ & _ & _ & _ & -> & -> & _) end.
    rewrite Hs2, Hc2.
    match goal with |- context [saveAuthData env ?wx] =>
      destruct (saveAuthData_vault env wx) as (_ & _ & _ & _ & -> & ->) end.
    done.
  - cbn [fst].
    match goal with |- context [emitAuthEvent env ?wx ?ev] =>
      destruct (emitAuthEvent_frame env wx ev)
        as (_ & _ & _ & _ & -> & -> & _) end.
    cbn [setVault slept clock]. rewrite Hs2, Hc2.
    match goal with |- context [saveAuthData env ?wx] =>
      destruct (saveAuthData_vault env wx) as (_ & _ & _ & _ & -> & ->) end.
    done.
Qed.

Lemma checkPassword_wrong (env : Env) (w : World) (a : AuthData)
    (password : string) :
  verifyPasswordHash (kdf env) password (PasswordHash a) = false ->
  snd (checkPassword env w a password) = Failed "incorrect password"
  /\ authData (fst (checkPassword env w a password))
     = Some (if wrapInt (FailedAttempts a + 1) >=? maxAttemptsBeforeLock
             then withAttempts a 0 (Format (clock w + lockoutDuration))
             else withAttempts a (wrapInt (FailedAttempts a + 1))
                    (LockoutUntil a)).
Proof.
  intros Hv. unfold checkPassword. rewrite Hv. cbn [negb fst snd].
  split; [reflexivity|].
  match goal with |- context [saveAuthData env ?wx] =>
    destruct (saveAuthData_vault env wx) as (_ & _ & -> & _) end.
  reflexivity.
Qed.

Lemma checkPassword_done (env : Env) (w : World) (a : AuthData)
    (password : string) :
  snd (checkPassword env w a password) = Done ->
  unlocked (fst (checkPassword env w a password)) = true
  /\ authData (fst (checkPassword env w a password))
     = Some (withAttempts a 0 NoStamp).
Proof.
  unfold checkPassword.
  destruct (verifyPasswordHash _ _ _); cbn [negb]; [|discriminate].
  destruct (extractSalt _) as [salt|e]; [|discriminate].
  destruct (decryptConfigFiles env w _) as [w1 [e|]]; [discriminate|].
  match goal with |- context [initializeApp env ?wx] =>
    pose proof (initializeApp_frame env wx) as Hi; cbv zeta in Hi;
    destruct (initializeApp env wx) as [w2 [e|]] end; [discriminate|].
  cbn [fst] in Hi. destruct Hi as (_ & _ & Ha & _).
  intros _. cbn [fst].
  match goal with |- context [emitAuthEvent env ?wx ?ev] =>
    destruct (emitAuthEvent_frame env wx ev) as (-> & _ & -> & _) end.
  cbn [setVault unlocked authData]. split; [reflexivity|].
  rewrite Ha.
  match goal with |- context [saveAuthData env ?wx] =>
    destruct (saveAuthData_vault env wx) as (_ & _ & -> & _) end.
  reflexivity.
Qed.

Lemma wrapInt_small (n : Z) : minInt <= n <= maxInt -> wrapInt n = n.
Proof.
  unfold wrapInt, minInt, maxInt. intros H. rewrite Z.mod_small; lia.
Qed.

Lemma wrapInt_max : wrapInt (maxInt + 1) = minInt.
Proof. reflexivity. Qed.

(** [Unlock] on a locked, enabled vault, by the outcome of its lockout
    check. *)
Lemma Unlock_cases (env : Env) (w : World) (a : AuthData)
    (password : string) :
  quiet env -> authData w = Some a -> Enabled a = true ->
  unlocked w = false ->
  let w' := fst (Unlock env w password) in
  let o := snd (Unlock env w password) in
  (forall remaining,
     lockedFor (clock w) (LockoutUntil a) = Some remaining ->
     w' = w /\ o = Locked remaining /\ 1 <= remaining)
  /\ (lockedFor (clock w) (LockoutUntil a) = None ->
      (FailedAttempts a < 3 \/ 10 <= FailedAttempts a -> slept w' = slept w)
      /\ (3 <= FailedAttempts a < 10 ->
          slept w' = slept w ++ [2 ^ (FailedAttempts a - 3) * Second])
      /\ (verifyPasswordHash (kdf env) password (PasswordHash a) = false ->
          o = Failed "incorrect password"
          /\ authData w'
             = Some (if wrapInt (FailedAttempts a + 1) >=? 10
                     then withAttempts a 0
                            (Format (clock w' + lockoutDuration))
                     else withAttempts a (wrapInt (FailedAttempts a + 1))
                            NoStamp))
      /\ (o = Done ->
          unlocked w' = true
          /\ authData w' = Some (withAttempts a 0 NoStamp))).
Proof.
  intros Hq Ha He Hu. cbv zeta. unfold Unlock. rewrite Ha, He, Hu. cbn [negb].
  destruct (lockedFor (clock w) (LockoutUntil a)) as [rem|] eqn:Hl.
  { split; [|discriminate]. intros remaining H. injection H as <-.
    cbn [fst snd]. repeat split. by eapply lockedFor_positive. }
  split; [discriminate|]. intros _.
  set (a1 := withAttempts a (FailedAttempts a) NoStamp).
  set (w0 := setVault w false (encKey w) (Some a1)).
  assert (exists w1,
            (if (FailedAttempts a >=? maxAttemptsBeforeDelay)
                && (FailedAttempts a <? maxAttemptsBeforeLock)
             then
               (meanwhile env
                  (Sleep w0 (2 ^ (FailedAttempts a - maxAttemptsBeforeDelay)
                             * Second)),
                unlocked
                  (meanwhile env
                     (Sleep w0 (2 ^ (FailedAttempts a - maxAttemptsBeforeDelay)
                                * Second))))
             else (w0, false)) = (w1, false)
            /\ authData w1 = Some a1
            /\ (FailedAttempts a < 3 \/ 10 <= FailedAttempts a ->
                slept w1 = slept w)
            /\ (3 <= FailedAttempts a < 10 ->
                slept w1 = slept w ++ [2 ^ (FailedAttempts a - 3) * Second]))
    as (w1 & -> & Ha1 & Hfast & Hslow).
  { unfold maxAttemptsBeforeDelay, maxAttemptsBeforeLock.
    destruct (Z.geb_spec (FailedAttempts a) 3);
      destruct (Z.ltb_spec (FailedAttempts a) 10); cbn [andb].
    - rewrite Hq. eexists. split; [reflexivity|]. cbn. split; [done|].
      split; [lia | done].
    - exists w0. split; [done|]. split; [done|]. split; [done | lia].
    - exists w0. split; [done|]. split; [done|]. split; [done | lia].
    - exists w0. split; [done|]. split; [done|]. split; [done | lia]. }
  rewrite Ha1.
  destruct (checkPassword_slept env w1 a1 password) as [Hs Hc].
  split; [|split; [|split]].
  - intros H. rewrite Hs. by apply Hfast.
  - intros H. rewrite Hs. by apply Hslow.
  - intros Hv.
    destruct (checkPassword_wrong env w1 a1 password Hv) as [Ho Hd].
    split; [exact Ho|]. rewrite Hd, Hc. reflexivity.
  - intros Hd. destruct (checkPassword_done env w1 a1 password Hd) as [H1 H2].
    split; [exact H1|]. rewrite H2. reflexivity.
Qed.

(** The lockout check inside a window of at most five minutes. *)
Lemma lockedFor_window (now : Time) (sec : Z) :
  now < sec * Second -> sec * Second - now <= lockoutDuration ->
  lockedFor now (RFC3339 sec) = Some (ceilSeconds (sec * Second - now))
  /\ 1 <= ceilSeconds (sec * Second - now) <= 300.
Proof.
  intros Hlt Hle. cbn [lockedFor].
  destruct (Z.ltb_spec now (sec * Second)) as [_|]; [|lia].
  unfold lockoutDuration, Minute in Hle.
  assert (Sub (sec * Second) now = sec * Second - now) as ->.
  { unfold Sub, maxDuration, minDuration, Second in *.
    destruct (Z.gtb_spec (sec * 1000000000 - now) (2 ^ 63 - 1)); [lia|].
    destruct (Z.ltb_spec (sec * 1000000000 - now) (- 2 ^ 63)); lia. }
  split; [reflexivity|]. unfold ceilSeconds, Second in *. split.
  - apply Z.div_le_lower_bound; lia.
  - apply Z.lt_succ_r, Z.div_lt_upper_bound; lia.
Qed.

Lemma lockedFor_expired (now : Time) (l : Stamp) :
  (forall sec, l = RFC3339 sec -> sec * Second <= now) ->
  lockedFor now l = None.
Proof.
  intros H. destruct l as [|sec|s]; cbn [lockedFor]; try reflexivity.
  specialize (H sec eq_refl).
  destruct (Z.ltb_spec now (sec * Second)); [lia | reflexivity].
Qed.

(** C4.  For a locked, enabled vault with nobody else touching it, whose
    failure counter is a Go [int].  While a lockout that lies at most five
    minutes ahead holds, [Unlock] fails with the seconds that remain,
    between 1 and 300, and changes nothing.  Once no lockout holds: with
    fewer than 3 failures counted it does not sleep, and with [n]
    failures counted, [3 <= n < 10], it first sleeps [2^(n-3)] seconds
    (1, 2, 4, 8, 16, 32 s before attempts 4 to 9, where [n] runs from 3
    to 8); a wrong password then counts one more failure, and the failure
    that brings the count to 10 or more instead resets it to 0 and sets
    the lockout to the whole second five minutes from now, so that every
    attempt before that instant is refused with the seconds left; a
    successful unlock leaves the count at 0 with no lockout.  A counter
    at the largest [int] wraps around to the smallest and sets no
    lockout. *)
Theorem unlock_rate_limit (env : Env) (w : World) (a : AuthData)
    (password : string) :
  quiet env -> authData w = Some a -> Enabled a = true ->
  unlocked w = false -> minInt <= FailedAttempts a <= maxInt ->
  let w' := fst (Unlock env w password) in
  let o := snd (Unlock env w password) in
  (forall sec,
     LockoutUntil a = RFC3339 sec -> clock w < sec * Second ->
     sec * Second - clock w <= lockoutDuration ->
     w' = w
     /\ o = Locked (ceilSeconds (sec * Second - clock w))
     /\ 1 <= ceilSeconds (sec * Second - clock w) <= 300)
  /\ ((forall sec, LockoutUntil a = RFC3339 sec -> sec * Second <= clock w) ->
      (FailedAttempts a < 3 \/ 10 <= FailedAttempts a -> slept w' = slept w)
      /\ (3 <= FailedAttempts a < 10 ->
          slept w' = slept w ++ [2 ^ (FailedAttempts a - 3) * Second])
      /\ (verifyPasswordHash (kdf env) password (PasswordHash a) = false ->
          o = Failed "incorrect password"
          /\ (FailedAttempts a + 1 < 10 ->
              authData w'
              = Some (withAttempts a (FailedAttempts a + 1) NoStamp))
          /\ (10 <= FailedAttempts a + 1 <= maxInt ->
              authData w'
              = Some (withAttempts a 0 (Format (clock w' + lockoutDuration)))
              /\ forall (w2 : World) (password2 : string),
                   authData w2 = authData w' -> unlocked w2 = false ->
                   clock w' <= clock w2 ->
                   clock w2 < (clock w' + lockoutDuration) / Second * Second ->
                   exists remaining,
                     Unlock env w2 password2 = (w2, Locked remaining)
                     /\ 1 <= remaining <= 300)
          /\ (FailedAttempts a = maxInt ->
              authData w' = Some (withAttempts a minInt NoStamp)))
      /\ (o = Done ->
          unlocked w' = true
          /\ authData w' = Some (withAttempts a 0 NoStamp))).
Proof.
  intros Hq Ha He Hu Hint.
  destruct (Unlock_cases env w a password Hq Ha He Hu) as [Hlocked Hfree].
  cbv zeta in *. split.
  - intros sec Hl Hlt Hle.
    destruct (lockedFor_window (clock w) sec Hlt Hle) as [Hf Hb].
    rewrite <- Hl in Hf. destruct (Hlocked _ Hf) as (H1 & H2 & _). done.
  - intros Hexp.
    destruct (Hfree (lockedFor_expired _ _ Hexp)) as (Hfast & Hslow & Hwrong & Hdone).
    split; [exact Hfast|]. split; [exact Hslow|]. split; [|exact Hdone].
    intros Hv. destruct (Hwrong Hv) as [Ho Hd]. split; [exact Ho|].
    split; [|split].
    + intros H. rewrite Hd, wrapInt_small by (unfold maxInt; lia).
      destruct (Z.geb_spec (FailedAttempts a + 1) 10); [lia | reflexivity].
    + intros H. rewrite wrapInt_small in Hd by lia.
      destruct (Z.geb_spec (FailedAttempts a + 1) 10); [|lia].
      split; [exact Hd|].
      intros w2 password2 Ha2 Hu2 Hge Hlt. rewrite Hd in Ha2.
      set (sec := (clock (fst (Unlock env w password)) + lockoutDuration)
                  / Second) in *.
      assert (sec * Second - clock w2 <= lockoutDuration) as Hwin.
      { pose proof (Z.mul_div_le
                      (clock (fst (Unlock env w password)) + lockoutDuration)
                      Second ltac:(reflexivity)) as Hm.
        fold sec in Hm. lia. }
      destruct (lockedFor_window (clock w2) sec Hlt Hwin) as [Hf Hb].
      exists (ceilSeconds (sec * Second - clock w2)). split; [|exact Hb].
      unfold Unlock. rewrite Ha2. cbn [Enabled withAttempts negb LockoutUntil].
      rewrite He, Hu2. cbn [negb]. unfold Format. fold sec. by rewrite Hf.
    + intros H. rewrite Hd, H, wrapInt_max. reflexivity.
Qed.

End RateLimit.

Section RateLimitScenario.
Import Auth Vault.

Lemma unlock_rate_limit_witness :
  Unlock envGood (lockedVault 0 (RFC3339 300)) "abcd"
  = (lockedVault 0 (RFC3339 300), Locked 300)
  /\ let r := Unlock envGood (lockedVault 9 NoStamp) "wrong" in
     slept (fst r) = [64 * Second]
     /\ snd r = Failed "incorrect password"
     /\ authData (fst r) = Some (authFor "abcd" 0 (RFC3339 364)).
Proof.
  split.
  - destruct (unlock_rate_limit envGood (lockedVault 0 (RFC3339 300))
                (authFor "abcd" 0 (RFC3339 300)) "abcd"
                (fun _ => eq_refl) eq_refl eq_refl eq_refl
                ltac:(vm_compute; split; discriminate)) as [H _].
    destruct (H 300 eq_refl ltac:(reflexivity)
                ltac:(vm_compute; discriminate)) as (Hw & Ho & _).
    rewrite (surjective_pairing (Unlock _ _ _)), Hw, Ho. reflexivity.
  - destruct (unlock_rate_limit envGood (lockedVault 9 NoStamp)
                (authFor "abcd" 9 NoStamp) "wrong"
                (fun _ => eq_refl) eq_refl eq_refl eq_refl
                ltac:(vm_compute; split; discriminate)) as [_ H].
    destruct (H ltac:(discriminate)) as (_ & Hslow & Hwrong & _).
    destruct (Hwrong ltac:(vm_compute; reflexivity)) as (Ho & _ & Hlock & _).
    split; [exact (Hslow ltac:(cbn; lia))|]. split; [exact Ho|].
    cbv zeta. destruct (Hlock ltac:(vm_compute; split; discriminate)) as [-> _].
    vm_compute. reflexivity.
Defined.

(** Ten wrong passwords in a row, an eleventh one inside the lockout, and
    the right one after it: the sleeps are 1, 2, 4, 8, 16, 32 and 64
    seconds (the last one before the tenth check), the tenth failure sets
    the lockout and clears the counter, the eleventh attempt is refused
    with 300 seconds left, and the right password then unlocks. *)
Lemma ten_wrong_attempts :
  let '(w, os) := attempts envGood (lockedVault 0 NoStamp)
                    (replicate 11 "wrong") in
  os = replicate 10 (Failed "incorrect password") ++ [Locked 300]
  /\ slept w = map (fun s => s * Second) [1; 2; 4; 8; 16; 32; 64]
  /\ authData w = Some (authFor "abcd" 0 (RFC3339 427))
  /\ let '(w', o) := Unlock envGood (Sleep w (300 * Second)) "abcd" in
     o = Done /\ unlocked w' = true
     /\ authData w' = Some (authFor "abcd" 0 NoStamp).
Proof. vm_compute. repeat split; reflexivity. Qed.

End RateLimitScenario.

Section KeptFiles.
Import Auth Vault.

(** The names the vault touches never collide. *)
Lemma names_apart (p q : string) :
  p ∈ configFiles -> q ∈ configFiles ->
  q <> p +:+ ".enc" /\ q <> p +:+ "-wal" /\ q <> p +:+ "-shm"
  /\ q +:+ ".enc" <> p +:+ "-wal" /\ q +:+ ".enc" <> p +:+ "-shm"
  /\ (q +:+ ".enc" = p +:+ ".enc" -> q = p).
Proof.
  unfold configFiles. rewrite !elem_of_cons, !elem_of_nil.
  intros [->|[->|[]]] [->|[->|[]]]; vm_compute;
    repeat split; try discriminate; done.
Qed.

Lemma sealStep_same (fs : gmap string bytes) (p : string) (ct : bytes) :
  p ∈ configFiles ->
  sealStep fs p ct !! p = None /\ sealStep fs p ct !! (p +:+ ".enc") = Some ct.
Proof.
  intros Hp. destruct (names_apart p p Hp Hp) as (H1 & H2 & H3 & H4 & H5 & _).
  unfold sealStep. split.
  - rewrite lookup_delete_ne by done. rewrite lookup_delete_ne by done.
    apply lookup_delete_eq.
  - rewrite lookup_delete_ne by done. rewrite lookup_delete_ne by done.
    rewrite lookup_delete_ne by done. apply lookup_insert_eq.
Qed.

Lemma sealStep_other (fs : gmap string bytes) (p q : string) (ct : bytes) :
  p ∈ configFiles -> q ∈ configFiles -> q <> p ->
  sealStep fs p ct !! q = fs !! q
  /\ sealStep fs p ct !! (q +:+ ".enc") = fs !! (q +:+ ".enc").
Proof.
  intros Hp Hq Hne.
  destruct (names_apart p q Hp Hq) as (H1 & H2 & H3 & H4 & H5 & H6).
  destruct (names_apart q p Hq Hp) as (G1 & _).
  unfold sealStep. split.
  - rewrite !lookup_delete_ne by done. by rewrite lookup_insert_ne.
  - rewrite !lookup_delete_ne by done.
    rewrite lookup_insert_ne; [done|]. intros H. by apply Hne, H6.
Qed.

Lemma openStep_same (fs : gmap string bytes) (p : string) (pt : bytes) :
  p ∈ configFiles ->
  openStep fs p pt !! p = Some pt /\ openStep fs p pt !! (p +:+ ".enc") = None.
Proof.
  intros Hp. destruct (names_apart p p Hp Hp) as (H1 & _).
  unfold openStep. split.
  - rewrite lookup_delete_ne by done. apply lookup_insert_eq.
  - apply lookup_delete_eq.
Qed.

Lemma openStep_other (fs : gmap string bytes) (p q : string) (pt : bytes) :
  p ∈ configFiles -> q ∈ configFiles -> q <> p ->
  openStep fs p pt !! q = fs !! q
  /\ openStep fs p pt !! (q +:+ ".enc") = fs !! (q +:+ ".enc").
Proof.
  intros Hp Hq Hne.
  destruct (names_apart p q Hp Hq) as (H1 & _ & _ & _ & _ & H6).
  destruct (names_apart q p Hq Hp) as (G1 & _).
  unfold openStep. split.
  - rewrite lookup_delete_ne by done. by rewrite lookup_insert_ne.
  - rewrite lookup_delete_ne by (intros H; by apply Hne, H6).
    by rewrite lookup_insert_ne.
Qed.

Lemma kept_sealStep (g : AEAD) (key nonce pt : bytes)
    (fs0 fs : gmap string bytes) (p : string) :
  p ∈ configFiles -> fs !! p = Some pt -> NewCipher key = Ok key ->
  length nonce = NonceSize ->
  kept g key fs0 fs ->
  kept g key fs0 (sealStep fs p (nonce ++ Seal g key nonce pt)).
Proof.
  intros Hp Hpt Hk Hn Hkept q Hq.
  destruct (decide (q = p)) as [->|Hne].
  - right. destruct (sealStep_same fs p (nonce ++ Seal g key nonce pt) Hp)
      as [H1 H2].
    split; [exact H1|]. split; [exact Hk|].
    exists nonce, pt. split; [|split; [exact Hn | exact H2]].
    destruct (Hkept p Hp) as [[Hsame _]|[Hnone _]].
    + exact (eq_trans (eq_sym Hsame) Hpt).
    + pose proof (eq_trans (eq_sym Hnone) Hpt). discriminate.
  - destruct (sealStep_other fs p q (nonce ++ Seal g key nonce pt) Hp Hq Hne)
      as [H1 H2].
    destruct (Hkept q Hq) as [[Ha Hb]|(Ha & Hb & n & x & Hc & Hd & He)].
    + left. split; [exact (eq_trans H1 Ha) | exact (eq_trans H2 Hb)].
    + right. split; [exact (eq_trans H1 Ha)|]. split; [done|].
      exists n, x. split; [done|]. split; [done|]. exact (eq_trans H2 He).
Qed.

Lemma kept_openStep (g : AEAD) (key : bytes) (fs0 fs : gmap string bytes)
    (p : string) (pt : bytes) :
  p ∈ configFiles -> fs0 !! p = Some pt ->
  kept g key fs0 fs -> kept g key fs0 (openStep fs p pt).
Proof.
  intros Hp Hpt Hkept q Hq.
  destruct (decide (q = p)) as [->|Hne].
  - left. destruct (openStep_same fs p pt Hp) as [H1 H2].
    split; [exact (eq_trans H1 (eq_sym Hpt)) | exact H2].
  - destruct (openStep_other fs p q pt Hp Hq Hne) as [H1 H2].
    destruct (Hkept q Hq) as [[Ha Hb]|(Ha & Hb & n & x & Hc & Hd & He)].
    + left. split; [exact (eq_trans H1 Ha) | exact (eq_trans H2 Hb)].
    + right. split; [exact (eq_trans H1 Ha)|]. split; [done|].
      exists n, x. split; [done|]. split; [done|]. exact (eq_trans H2 He).
Qed.

End KeptFiles.

Section FileSteps.
Import Auth Vault.

Lemma exists_true (w : World) (path : string) :
  exists_ w path = true -> exists b, files w !! path = Some b.
Proof.
  unfold exists_. intros H. apply bool_decide_eq_true in H as [b Hb]. eauto.
Qed.

Lemma exists_false (w : World) (path : string) :
  exists_ w path = false -> files w !! path = None.
Proof.
  unfold exists_. intros H. apply bool_decide_eq_false in H.
  destruct (files w !! path) eqn:E; [|done]. exfalso. apply H. eauto.
Qed.

(** One file of [encryptConfigFiles]: either an error and the directory
    untouched, or the file sealed under the key. *)
Lemma encrypt_step (env : Env) (w : World) (path : string) (key : bytes) :
  let r := encryptFile env w path (path +:+ ".enc") key in
  (snd r <> None /\ files (fst r) = files w)
  \/ (snd r = None
      /\ exists nonce pt,
           files w !! path = Some pt /\ NewCipher key = Ok key
           /\ length nonce = NonceSize
           /\ files (Remove (Remove (Remove (fst r) path) (path +:+ "-wal"))
                       (path +:+ "-shm"))
              = sealStep (files w) path (nonce ++ Seal (gcm env) key nonce pt)).
Proof.
  cbv zeta. unfold encryptFile, ReadFile, WriteFile.
  destruct (readFails env path); [left; by cbn|].
  destruct (files w !! path) as [pt|] eqn:Hpt; [|left; by cbn].
  destruct (NewCipher key) as [block|e] eqn:Hk; [|left; by cbn].
  apply NewCipher_ok in Hk as [-> Hv].
  destruct (Read (rand w) NonceSize) as [[nonce|e] r] eqn:Hr; [|left; by cbn].
  destruct (writeFails env (path +:+ ".enc")); [left; by cbn|].
  right. cbn [fst snd]. split; [reflexivity|].
  exists nonce, pt. split; [reflexivity|].
  split; [reflexivity|].
  split; [exact (Read_length _ _ _ _ Hr)|]. reflexivity.
Qed.

Lemma encryptEach_kept (env : Env) (key : bytes) (fs0 : gmap string bytes)
    (paths : list string) (w : World) :
  (forall p, p ∈ paths -> p ∈ configFiles) ->
  kept (gcm env) key fs0 (files w) ->
  kept (gcm env) key fs0 (files (fst (encryptEach env w paths key))).
Proof.
  revert w. induction paths as [|path paths IH]; intros w Hsub Hkept;
    cbn [encryptEach]; [exact Hkept|].
  assert (path ∈ configFiles) as Hp by (apply Hsub; left).
  assert (forall p, p ∈ paths -> p ∈ configFiles) as Hsub'
    by (intros p Hin; apply Hsub; by right).
  destruct (exists_ w path); cbn [negb]; [|by apply IH].
  destruct (encrypt_step env w path key)
    as [[Herr Hfs]|(Hok & nonce & pt & Hpt & Hk & Hn & Hfs)].
  - destruct (encryptFile env w path (path +:+ ".enc") key) as [w1 [e|]];
      cbn [fst snd] in *; [by rewrite Hfs | done].
  - destruct (encryptFile env w path (path +:+ ".enc") key) as [w1 [e|]];
      cbn [fst snd] in *; [discriminate|].
    apply IH; [exact Hsub'|]. rewrite Hfs. by apply kept_sealStep.
Qed.

(** One file of [decryptConfigFiles] whose [.enc] form is where the
    re-encryption left it: either an error and the directory untouched, or
    the original content back in place; nothing fails when the file can be
    read and the plaintext written. *)
Lemma decrypt_step (env : Env) (w : World) (path : string) (key : bytes)
    (fs0 : gmap string bytes) :
  opensSealed (gcm env) ->
  sealedAt (gcm env) key fs0 (files w) path ->
  let r := decryptFile env w (path +:+ ".enc") path key in
  ((snd r <> None /\ files (fst r) = files w)
   \/ (snd r = None
       /\ exists pt,
            fs0 !! path = Some pt
            /\ files (Remove (fst r) (path +:+ ".enc"))
               = openStep (files w) path pt))
  /\ (readFails env (path +:+ ".enc") = false ->
      writeFails env path = false -> snd r = None).
Proof.
  intros Hg (Hnone & Hk & nonce & pt & H0 & Hn & Henc). cbv zeta.
  unfold decryptFile, ReadFile, WriteFile.
  destruct (readFails env (path +:+ ".enc")); [split; [left; by cbn|done]|].
  rewrite Henc, Hk.
  assert ((length (nonce ++ Seal (gcm env) key nonce pt) <? NonceSize)%nat
          = false) as ->
    by (apply Nat.ltb_ge; rewrite length_app, Hn; unfold NonceSize; lia).
  rewrite <- Hn, take_app_length, drop_app_length, Hg.
  destruct (writeFails env path); [split; [left; by cbn|done]|].
  cbn [fst snd]. split; [|done]. right. split; [reflexivity|].
  exists pt. split; [exact H0 | reflexivity].
Qed.

Lemma kept_enc (g : AEAD) (key : bytes) (fs0 fs : gmap string bytes)
    (path : string) (b : bytes) :
  kept g key fs0 fs -> path ∈ configFiles ->
  fs !! (path +:+ ".enc") = Some b -> sealedAt g key fs0 fs path.
Proof.
  intros Hkept Hp Hb. destruct (Hkept path Hp) as [[_ Hnone]|Hs]; [|exact Hs].
  pose proof (eq_trans (eq_sym Hnone) Hb). discriminate.
Qed.

Lemma kept_plain (g : AEAD) (key : bytes) (fs0 fs : gmap string bytes)
    (path : string) :
  kept g key fs0 fs -> path ∈ configFiles ->
  fs !! (path +:+ ".enc") = None -> plainAt fs0 fs path.
Proof.
  intros Hkept Hp Hb. destruct (Hkept path Hp) as [Hpl|Hs]; [exact Hpl|].
  destruct Hs as (_ & _ & n & x & _ & _ & He).
  pose proof (eq_trans (eq_sym Hb) He). discriminate.
Qed.

Lemma decryptEach_kept (env : Env) (key : bytes) (fs0 : gmap string bytes)
    (paths : list string) (w : World) :
  opensSealed (gcm env) ->
  (forall p, p ∈ paths -> p ∈ configFiles) ->
  kept (gcm env) key fs0 (files w) ->
  kept (gcm env) key fs0 (files (fst (decryptEach env w paths key)))
  /\ (snd (decryptEach env w paths key) = None ->
      forall p, p ∈ paths ->
        plainAt fs0 (files (fst (decryptEach env w paths key))) p)
  /\ ((forall p, readFails env p = false) ->
      (forall p, writeFails env p = false) ->
      snd (decryptEach env w paths key) = None)
  /\ (forall q, q ∈ configFiles -> files w !! (q +:+ ".enc") = None ->
      files (fst (decryptEach env w paths key)) !! (q +:+ ".enc") = None).
Proof.
  intros Hg. revert w. induction paths as [|path paths IH]; intros w Hsub Hkept;
    cbn [decryptEach].
  { cbn [fst snd]. split; [exact Hkept|]. split; [|done].
    intros _ p Hin. by apply elem_of_nil in Hin. }
  assert (path ∈ configFiles) as Hp by (apply Hsub; left).
  assert (forall p, p ∈ paths -> p ∈ configFiles) as Hsub'
    by (intros p Hin; apply Hsub; by right).
  cbv zeta. destruct (exists_ w (path +:+ ".enc")) eqn:Hex; cbn [negb].
  2:{ apply exists_false in Hex.
      destruct (IH w Hsub' Hkept) as (H1 & H2 & H3 & H4).
      split; [exact H1|]. split; [|split; [exact H3 | exact H4]].
      intros Hok p Hin. apply elem_of_cons in Hin as [->|Hin]; [|by apply H2].
      apply (kept_plain _ _ _ _ _ H1 Hp). by apply H4. }
  apply exists_true in Hex as [b Hb].
  pose proof (kept_enc _ _ _ _ _ _ Hkept Hp Hb) as Hsealed.
  destruct (decrypt_step env w path key fs0 Hg Hsealed) as [Hstep Hgood].
  cbv zeta in Hstep, Hgood.
  destruct (decryptFile env w (path +:+ ".enc") path key) as [w1 [e|]];
    cbn [fst snd] in *.
  - destruct Hstep as [[_ Hfs]|[Hbad _]]; [|discriminate].
    rewrite Hfs. split; [exact Hkept|]. split; [discriminate|].
    split; [|done]. intros Hr Hw. by specialize (Hgood (Hr _) (Hw _)).
  - destruct Hstep as [[Hbad _]|(_ & pt & H0 & Hfs)]; [done|].
    assert (kept (gcm env) key fs0 (files (Remove w1 (path +:+ ".enc"))))
      as Hkept1 by (rewrite Hfs; by apply kept_openStep).
    destruct (IH _ Hsub' Hkept1) as (H1 & H2 & H3 & H4).
    split; [exact H1|]. split; [|split; [exact H3|]].
    + intros Hok p Hin. apply elem_of_cons in Hin as [->|Hin]; [|by apply H2].
      apply (kept_plain _ _ _ _ _ H1 Hp). apply H4; [exact Hp|].
      rewrite Hfs. by apply openStep_same.
    + intros q Hq Hnone. apply H4; [exact Hq|]. rewrite Hfs.
      destruct (decide (q = path)) as [->|Hne]; [by apply openStep_same|].
      destruct (openStep_other (files w) path q pt Hp Hq Hne) as [_ He].
      exact (eq_trans He Hnone).
Qed.

End FileSteps.

Section Recovery.
Import Auth Vault.

Lemma kept_initial (g : AEAD) (key : bytes) (fs : gmap string bytes) :
  (forall p, p ∈ configFiles -> fs !! (p +:+ ".enc") = None) ->
  kept g key fs fs.
Proof. intros H p Hp. left. split; [reflexivity | by apply H]. Qed.

Lemma all_plain_kept (g : AEAD) (key : bytes) (fs0 fs : gmap string bytes) :
  (forall p, p ∈ configFiles -> plainAt fs0 fs p) -> kept g key fs0 fs.
Proof. intros H p Hp. left. by apply H. Qed.

(** Unlocking with the password whose hash is stored opens every file the
    re-encryption sealed, when nothing fails around the vault. *)
Lemma unlock_recovers (env : Env) (w : World) (a : AuthData) (salt : bytes)
    (password : string) (fs0 : gmap string bytes) :
  healthy env -> opensSealed (gcm env) ->
  authData w = Some a -> Enabled a = true -> clean a ->
  PasswordHash a = encodePasswordHash (kdf env) password salt ->
  unlocked w = false ->
  kept (gcm env) (kdf env password salt) fs0 (files w) ->
  snd (Unlock env w password) = Done
  /\ unlocked (fst (Unlock env w password)) = true
  /\ encKey (fst (Unlock env w password)) = Some (kdf env password salt)
  /\ forall p, p ∈ configFiles ->
       plainAt fs0 (files (fst (Unlock env w password))) p.
Proof.
  intros (Hr & Hw & Hdb & Hci & Hq) Hg Ha He [Hfa Hlu] Hh Hu Hkept.
  unfold Unlock. rewrite Ha, He, Hu, Hlu, Hfa. cbn [negb lockedFor andb].
  change (0 >=? maxAttemptsBeforeDelay) with false. cbn [andb authData setVault].
  unfold checkPassword.
  cbn [withAttempts PasswordHash FailedAttempts LockoutUntil].
  rewrite Hh. unfold encodePasswordHash.
  cbn [verifyPasswordHash extractSalt]. rewrite bool_decide_eq_true_2 by done.
  cbn [negb]. unfold deriveKey, decryptConfigFiles.
  match goal with |- context [decryptEach env ?wx configFiles ?k] =>
    destruct (decryptEach_kept env k fs0 configFiles wx Hg (fun p H => H) Hkept)
      as (_ & Hplain & Hok & _);
    pose proof (decryptEach_frame env configFiles k wx) as Hf;
    specialize (Hok Hr Hw);
    destruct (decryptEach env wx configFiles k) as [w1 [e|]] end;
    [discriminate|].
  cbn [fst snd] in *. specialize (Hplain eq_refl).
  unfold saveAuthData. rewrite Hw. cbn [fst].
  unfold initializeApp, InitDatabase. rewrite Hdb, Hci.
  cbn [fst snd]. split; [reflexivity|].
  unfold emitAuthEvent. destruct (hasBus env); cbn; auto.
Qed.

End Recovery.

Section LockedRecovery.
Import Auth Vault.

Lemma withHash_same (a : AuthData) : withHash a (PasswordHash a) = a.
Proof. by destruct a. Qed.

(** A vault locked by [ChangePassword] with the new hash in memory and the
    files where the re-encryption left them is opened again by the new
    password. *)
Lemma locked_recovers (env : Env) (wx : World) (a : AuthData) (salt : bytes)
    (password : string) (fs0 : gmap string bytes) :
  opensSealed (gcm env) -> Enabled a = true -> clean a ->
  authData wx
  = Some (withHash a (encodePasswordHash (kdf env) password salt)) ->
  kept (gcm env) (kdf env password salt) fs0 (files wx) ->
  let w' := lockVault env wx in
  unlocked w' = false /\ encKey w' = None
  /\ forall env',
       healthy env' -> kdf env' = kdf env -> gcm env' = gcm env ->
       snd (Unlock env' w' password) = Done
       /\ unlocked (fst (Unlock env' w' password)) = true
       /\ forall p, p ∈ configFiles ->
            plainAt fs0 (files (fst (Unlock env' w' password))) p.
Proof.
  intros Hg He Hc Ha Hkept. cbv zeta. unfold lockVault.
  destruct (emitAuthEvent_frame env (setVault wx false None (authData wx))
              AuthLocked) as (Hu & Hk & Had & Hf & _).
  cbn [setVault unlocked encKey authData files] in Hu, Hk, Had, Hf.
  set (wl := emitAuthEvent env (setVault wx false None (authData wx))
               AuthLocked) in *.
  split; [exact Hu|]. split; [exact Hk|].
  intros env' Hh Hkdf Hgcm.
  destruct (unlock_recovers env' wl (withHash a (encodePasswordHash (kdf env)
                                      password salt)) salt password fs0 Hh)
    as (H1 & H2 & _ & H4).
  - by rewrite Hgcm.
  - by rewrite Had.
  - exact He.
  - exact Hc.
  - cbn. by rewrite Hkdf.
  - exact Hu.
  - rewrite Hgcm, Hkdf, Hf. exact Hkept.
  - auto.
Qed.

End LockedRecovery.

Section ChangePassword.
Import Auth Vault.

(** C5, as amended.  For an unlocked vault whose files are in plaintext,
    [ChangePassword] ends in one of three ways.  It succeeds: the vault
    stays unlocked, the new key is held, [auth.json] and the memory carry
    the new hash, the database is open and both files are back in
    plaintext with their content.  Or it fails with the vault still
    unlocked, the old key held, the stored hash unchanged and both files in
    plaintext with their content (a rejected request, or a failure that
    was rolled back).  Or it fails with the vault locked and the key
    cleared; when the files had been re-encrypted before the failure, the
    new password then unlocks the vault and restores both files as soon as
    nothing fails around it. *)
Theorem change_password_outcomes (env : Env) (w : World) (a : AuthData)
    (oldPassword newPassword : string) :
  opensSealed (gcm env) ->
  authData w = Some a -> Enabled a = true -> unlocked w = true -> clean a ->
  (forall p, p ∈ configFiles -> files w !! (p +:+ ".enc") = None) ->
  let w' := fst (ChangePassword env w oldPassword newPassword) in
  let r := snd (ChangePassword env w oldPassword newPassword) in
  (r = None ->
   unlocked w' = true /\ dbOpen w' = true /\ authFile w' = authData w'
   /\ (exists salt,
         encKey w' = Some (kdf env newPassword salt)
         /\ authData w'
            = Some (withHash a
                      (encodePasswordHash (kdf env) newPassword salt)))
   /\ (forall p, p ∈ configFiles -> plainAt (files w) (files w') p))
  /\ (r <> None ->
      (unlocked w' = true /\ encKey w' = encKey w /\ authData w' = authData w
       /\ authFile w' = authFile w
       /\ forall p, p ∈ configFiles -> plainAt (files w) (files w') p)
      \/ (unlocked w' = false /\ encKey w' = None
          /\ ((exists w1 e, reencrypt env w newPassword = Some (w1, Some e))
              \/ forall env',
                   healthy env' -> kdf env' = kdf env -> gcm env' = gcm env ->
                   snd (Unlock env' w' newPassword) = Done
                   /\ unlocked (fst (Unlock env' w' newPassword)) = true
                   /\ forall p, p ∈ configFiles ->
                        plainAt (files w)
                          (files (fst (Unlock env' w' newPassword))) p))).
Proof.
  intros Hg Ha He Hu Hc Hnoenc. cbv zeta.
  assert (forall p, p ∈ configFiles -> plainAt (files w) (files w) p) as Hplain0
    by (intros p Hp; split; [reflexivity | by apply Hnoenc]).
  unfold ChangePassword. rewrite Ha, He, Hu. cbn [negb].
  destruct (verifyPasswordHash (kdf env) oldPassword (PasswordHash a));
    cbn [negb fst snd]; [|split; [discriminate | intros _; left; auto 10]].
  destruct (Z.of_nat (String.length newPassword) <? 4);
    cbn [fst snd]; [split; [discriminate | intros _; left; auto 10]|].
  unfold reencrypt.
  destruct (Read (rand w) argon2SaltLen) as [[newSalt|e] r0];
    cbn [fst snd]; [|split; [discriminate | intros _; left; auto 10]].
  unfold deriveKey, encryptConfigFiles, decryptConfigFiles.
  set (newKey := kdf env newPassword newSalt).
  set (newHash := encodePasswordHash (kdf env) newPassword newSalt).
  set (w1 := closeDatabase (setRand w r0)).
  assert (kept (gcm env) newKey (files w) (files w1)) as Hk1
    by (apply kept_initial; exact Hnoenc).
  pose proof (encryptEach_kept env newKey (files w) configFiles w1
                (fun p H => H) Hk1) as Hk2.
  pose proof (encryptEach_frame env configFiles newKey w1) as Hf2.
  cbv zeta in Hf2.
  destruct (encryptEach env w1 configFiles newKey) as [w2 oe].
  cbn [fst] in Hk2, Hf2.
  destruct Hf2 as (Hu2 & Hek2 & Had2 & Haf2 & _).
  cbn [w1 closeDatabase setDb setRand unlocked encKey authData authFile]
    in Hu2, Hek2, Had2, Haf2.
  destruct oe as [e|].
  - (* the re-encryption failed *)
    destruct (decryptEach_kept env newKey (files w) configFiles w2 Hg
                (fun p H => H) Hk2) as (Hk3 & Hpl3 & _).
    pose proof (decryptEach_frame env configFiles newKey w2) as Hf3.
    cbv zeta in Hf3.
    destruct (decryptEach env w2 configFiles newKey) as [w3 od].
    cbn [fst snd] in Hk3, Hpl3, Hf3.
    destruct Hf3 as (Hu3 & Hek3 & Had3 & Haf3 & _).
    destruct od as [e'|]; cbn [fst snd]; (split; [discriminate|]); intros _.
    + right. unfold lockVault.
      destruct (emitAuthEvent_frame env (setVault w3 false None (authData w3))
                  AuthLocked) as (-> & -> & _).
      split; [reflexivity|]. split; [reflexivity|]. left. eauto.
    + left. unfold InitDatabase.
      destruct (initDatabaseFails env); cbn [fst setDb unlocked encKey
                                             authData authFile files];
        rewrite Hu3, Hek3, Had3, Haf3, Hu2, Hek2, Had2, Haf2;
        auto 10.
  - (* the files are sealed under the new key *)
    unfold setHash, saveAuthData.
    destruct (writeFails env "auth.json") eqn:Hsave.
    + (* auth.json could not be written *)
      cbn [setVault unlocked encKey authData files].
      match goal with |- context [decryptEach env ?wx configFiles newKey] =>
        set (w2' := wx) end.
      assert (kept (gcm env) newKey (files w) (files w2')) as Hk2' by exact Hk2.
      destruct (decryptEach_kept env newKey (files w) configFiles w2' Hg
                  (fun p H => H) Hk2') as (Hk3 & Hpl3 & _).
      pose proof (decryptEach_frame env configFiles newKey w2') as Hf3.
      cbv zeta in Hf3.
      destruct (decryptEach env w2' configFiles newKey) as [w3 od].
      cbn [fst snd] in Hk3, Hpl3, Hf3.
      destruct Hf3 as (Hu3 & Hek3 & Had3 & Haf3 & _).
      cbn [w2' setVault unlocked encKey authData authFile]
        in Hu3, Hek3, Had3, Haf3.
      destruct od as [e'|]; cbn [fst snd]; (split; [discriminate|]); intros _.
      * right.
        destruct (locked_recovers env
                    (MkWorld (unlocked w3) (encKey w3)
                       (Some (withHash a newHash)) (files w3) (authFile w3)
                       (dbOpen w3) (rand w3) (clock w3) (slept w3)
                       (emitted w3))
                    a newSalt newPassword (files w) Hg He Hc eq_refl Hk3)
          as (H1 & H2 & H3).
        split; [exact H1|]. split; [exact H2|]. right. exact H3.
      * left. rewrite withHash_same in Had3. unfold InitDatabase.
        destruct (initDatabaseFails env); cbn [fst setDb unlocked encKey
                                               authData authFile files];
          rewrite Hu3, Hek3, Had3, Haf3, Hu2, Hek2, Haf2; auto 10.
    + (* auth.json carries the new hash *)
      cbn [setVault unlocked encKey authData files].
      match goal with |- context [decryptEach env ?wx configFiles newKey] =>
        set (w2' := wx) end.
      assert (kept (gcm env) newKey (files w) (files w2')) as Hk2' by exact Hk2.
      destruct (decryptEach_kept env newKey (files w) configFiles w2' Hg
                  (fun p H => H) Hk2') as (Hk3 & Hpl3 & _).
      pose proof (decryptEach_frame env configFiles newKey w2') as Hf3.
      cbv zeta in Hf3.
      destruct (decryptEach env w2' configFiles newKey) as [w3 od].
      cbn [fst snd] in Hk3, Hpl3, Hf3.
      destruct Hf3 as (Hu3 & Hek3 & Had3 & Haf3 & _).
      cbn [w2' setVault unlocked encKey authData authFile]
        in Hu3, Hek3, Had3, Haf3.
      destruct od as [e'|]; cbn [fst snd].
      * split; [discriminate|]. intros _. right.
        destruct (locked_recovers env w3 a newSalt newPassword (files w)
                    Hg He Hc Had3 Hk3) as (H1 & H2 & H3).
        split; [exact H1|]. split; [exact H2|]. right. exact H3.
      * unfold InitDatabase. destruct (initDatabaseFails env); cbn [fst snd].
        -- split; [discriminate|]. intros _. right.
           destruct (locked_recovers env w3 a newSalt newPassword (files w)
                       Hg He Hc Had3 Hk3) as (H1 & H2 & H3).
           split; [exact H1|]. split; [exact H2|]. right. exact H3.
        -- split; [|done]. intros _.
           cbn [setVault setDb unlocked dbOpen authFile authData encKey files].
           rewrite Hu3, Haf3, Had3, Hu2, Hu.
           split; [reflexivity|]. split; [reflexivity|].
           split; [reflexivity|]. split; [exists newSalt; auto|].
           by apply Hpl3.
Qed.

End ChangePassword.

Section ChangePasswordScenarios.
Import Auth Vault.

Lemma toyGcm_opens : opensSealed toyGcm.
Proof.
  intros key nonce plaintext. cbn [toyGcm Open Seal].
  rewrite (app_assoc key nonce plaintext), take_app_length, drop_app_length.
  by rewrite bool_decide_eq_true_2.
Qed.

Lemma envGood_healthy : healthy envGood.
Proof. repeat split. Qed.

Lemma unlockedVault_plain (p : string) :
  p ∈ configFiles -> files unlockedVault !! (p +:+ ".enc") = None.
Proof.
  unfold configFiles. rewrite !elem_of_cons, elem_of_nil.
  intros [->|[->|[]]]; vm_compute; reflexivity.
Qed.

Lemma change_password_outcomes_witness :
  let w' := fst (ChangePassword envNoPlain unlockedVault "abcd" "wxyz") in
  snd (Unlock envGood w' "wxyz") = Done
  /\ unlocked (fst (Unlock envGood w' "wxyz")) = true
  /\ forall p, p ∈ configFiles ->
       plainAt (files unlockedVault) (files (fst (Unlock envGood w' "wxyz"))) p.
Proof.
  destruct (change_password_outcomes envNoPlain unlockedVault
              (authFor "abcd" 0 NoStamp) "abcd" "wxyz" toyGcm_opens
              eq_refl eq_refl eq_refl (conj eq_refl eq_refl)
              unlockedVault_plain) as [_ H].
  destruct (H ltac:(vm_compute; discriminate))
    as [(Hu & _)|(_ & _ & [(w1 & e & Hre)|Hrec])].
  - vm_compute in Hu. discriminate.
  - vm_compute in Hre. discriminate.
  - exact (Hrec envGood envGood_healthy eq_refl eq_refl).
Defined.

(** C5 as stated fails: when [rclone.conf.enc] cannot be created the
    re-encryption is rolled back and the call returns an error with the
    vault still unlocked under the old key and the old hash; it neither
    succeeded nor locked the vault. *)
Lemma change_password_outcomes_counterexample :
  let r := ChangePassword envNoEnc unlockedVault "abcd" "wxyz" in
  snd r <> None
  /\ unlocked (fst r) = true
  /\ encKey (fst r) = encKey unlockedVault
  /\ authData (fst r) = authData unlockedVault
  /\ files (fst r) = files unlockedVault.
Proof.
  cbv zeta. split; [vm_compute; discriminate|].
  repeat split; vm_compute; reflexivity.
Qed.

(** The branch left out of C5: the disk fills up after [rclone.conf] was
    sealed under the new key.  The vault is locked with the old hash still
    stored, so the new password is refused, and the old password passes the
    check but cannot open [rclone.conf.enc]. *)
Lemma change_password_stranded :
  let w' := fst (ChangePassword envDiskFull unlockedVault "abcd" "wxyz") in
  unlocked w' = false
  /\ authData w' = authData unlockedVault
  /\ is_Some (files w' !! "rclone.conf.enc")
  /\ snd (Unlock envGood w' "wxyz") = Failed "incorrect password"
  /\ snd (Unlock envGood w' "abcd")
     = Failed "failed to decrypt files: failed to decrypt rclone.conf.enc: decryption failed (wrong password or corrupted data)".
Proof. vm_compute. repeat split; eauto. Qed.

End ChangePasswordScenarios.

Section LockoutStatus.
Import Auth Vault Lifecycle.

Lemma Unlock_locked (env : Env) (w : World) (a : AuthData) (password : string)
    (remaining : Z) :
  authData w = Some a -> Enabled a = true -> unlocked w = false ->
  lockedFor (clock w) (LockoutUntil a) = Some remaining ->
  Unlock env w password = (w, Locked remaining).
Proof.
  intros Ha He Hu Hl. unfold Unlock. by rewrite Ha, He, Hu, Hl.
Qed.

Lemma checkPassword_not_locked (env : Env) (w : World) (a : AuthData)
    (password : string) (remaining : Z) :
  snd (checkPassword env w a password) <> Locked remaining.
Proof.
  unfold checkPassword. repeat case_match; cbn; discriminate.
Qed.

(** What [Unlock] does once no lockout holds, for a vault nobody else
    touches: it sleeps if the counter asks for it and checks the
    password against the record without the expired stamp. *)
Lemma Unlock_unlocked (env : Env) (w : World) (a : AuthData)
    (password : string) :
  quiet env -> authData w = Some a -> Enabled a = true ->
  unlocked w = false -> lockedFor (clock w) (LockoutUntil a) = None ->
  let a1 := withAttempts a (FailedAttempts a) NoStamp in
  let w1 := setVault w false (encKey w) (Some a1) in
  Unlock env w password
  = if (FailedAttempts a >=? maxAttemptsBeforeDelay)
       && (FailedAttempts a <? maxAttemptsBeforeLock)
    then checkPassword env
           (Sleep w1 (2 ^ (FailedAttempts a - maxAttemptsBeforeDelay) * Second))
           a1 password
    else checkPassword env w1 a1 password.
Proof.
  intros Hq Ha He Hu Hl. unfold Unlock. rewrite Ha, He, Hu, Hl. cbn [negb].
  destruct ((FailedAttempts a >=? maxAttemptsBeforeDelay)
            && (FailedAttempts a <? maxAttemptsBeforeLock)); cbn zeta.
  - rewrite Hq. cbn. reflexivity.
  - cbn. reflexivity.
Qed.

(** X1.  What [GetLockoutStatus] announces is what [Unlock] does, for a
    locked vault whose failure counter is below 10 and that no other
    goroutine touches: while the status says locked, [Unlock] refuses with
    the announced number of seconds and changes nothing; otherwise
    [Unlock] is not refused for a lockout and sleeps for exactly the
    announced seconds when the counter is 3 or more, and not at all when
    it is below 3 (the status then announces 0). *)
Theorem lockout_status_matches_unlock (env : Env) (huge : Z -> Z) (w : World)
    (a : AuthData) (password : string) :
  quiet env -> authData w = Some a -> Enabled a = true ->
  unlocked w = false -> FailedAttempts a < 10 ->
  let st := GetLockoutStatus huge w in
  let r := Unlock env w password in
  (IsLocked st = true -> r = (w, Locked (RetryAfterSecs st)))
  /\ (IsLocked st = false ->
      (forall remaining, snd r <> Locked remaining)
      /\ (FailedAttempts a < 3 ->
          RetryAfterSecs st = 0 /\ slept (fst r) = slept w)
      /\ (3 <= FailedAttempts a ->
          slept (fst r) = slept w ++ [RetryAfterSecs st * Second])).
Proof.
  intros Hq Ha He Hu Hn st r. subst st r. unfold GetLockoutStatus.
  rewrite Ha.
  destruct (lockedFor (clock w) (LockoutUntil a)) as [remaining|] eqn:Hl;
    cbn [IsLocked negb andb RetryAfterSecs].
  - split; [|discriminate]. intros _. by apply (Unlock_locked env w a).
  - unfold maxAttemptsBeforeDelay.
    destruct (Z.geb_spec (FailedAttempts a) 3) as [H3|H3];
      cbn [IsLocked RetryAfterSecs]; (split; [discriminate|]); intros _;
      rewrite (Unlock_unlocked env w a password Hq Ha He Hu Hl);
      unfold maxAttemptsBeforeDelay, maxAttemptsBeforeLock.
    + assert ((FailedAttempts a >=? 3) && (FailedAttempts a <? 10) = true)
        as -> by lia.
      split; [apply checkPassword_not_locked|]. split; [lia|]. intros _.
      rewrite (proj1 (checkPassword_slept _ _ _ _)). cbn [Sleep slept].
      unfold pow2Int.
      assert ((FailedAttempts a - 3 <? 63) = true) as -> by lia. reflexivity.
    + assert ((FailedAttempts a >=? 3) && (FailedAttempts a <? 10) = false)
        as -> by lia.
      split; [apply checkPassword_not_locked|]. split; [|lia]. intros _.
      split; [reflexivity|].
      by rewrite (proj1 (checkPassword_slept _ _ _ _)).
Qed.

Lemma lockout_status_matches_unlock_witness :
  let w := lockedVault 4 NoStamp in
  let st := GetLockoutStatus (fun _ => 0) w in
  let r := Unlock envGood w "wrong" in
  (IsLocked st = true -> r = (w, Locked (RetryAfterSecs st)))
  /\ (IsLocked st = false ->
      (forall remaining, snd r <> Locked remaining)
      /\ (FailedAttempts (authFor "abcd" 4 NoStamp) < 3 ->
          RetryAfterSecs st = 0 /\ slept (fst r) = slept w)
      /\ (3 <= FailedAttempts (authFor "abcd" 4 NoStamp) ->
          slept (fst r) = slept w ++ [RetryAfterSecs st * Second])).
Proof.
  apply (lockout_status_matches_unlock envGood (fun _ => 0)
           (lockedVault 4 NoStamp) (authFor "abcd" 4 NoStamp) "wrong");
    [intros w; reflexivity | reflexivity | reflexivity | reflexivity
    | cbn; lia].
Defined.

End LockoutStatus.

Section FailureCounter.
Import Auth Vault Lifecycle.

Lemma sameSecret_refl (a : AuthData) : sameSecret a a.
Proof. by repeat split. Qed.

Lemma sameSecret_trans (a b c : AuthData) :
  sameSecret a b -> sameSecret b c -> sameSecret a c.
Proof. unfold sameSecret. intros (?&?&?) (?&?&?). repeat split; congruence. Qed.

Lemma checkPassword_counted (env : Env) (w : World) (a : AuthData)
    (password : string) :
  authData w = Some a -> counted a ->
  exists a',
    authData (fst (checkPassword env w a password)) = Some a'
    /\ counted a' /\ sameSecret a a'.
Proof.
  intros Ha Hc.
  assert (sameSecret a a) as Hr by apply sameSecret_refl.
  destruct (verifyPasswordHash (kdf env) password (PasswordHash a)) eqn:Hv.
  - unfold checkPassword. rewrite Hv. cbn [negb].
    destruct (extractSalt (PasswordHash a)) as [salt|e].
    2:{ exists a. cbn. done. }
    unfold decryptConfigFiles.
    pose proof (decryptEach_frame env configFiles
                  (deriveKey (kdf env) password salt) w) as Hd.
    cbn zeta in Hd. destruct Hd as (_ & _ & Hd & _).
    destruct (decryptEach env w configFiles _) as [w1 [e|]]; cbn [fst] in Hd.
    { exists a. cbn. rewrite Hd. done. }
    set (w2 := fst (saveAuthData env _)).
    assert (authData w2 = Some (withAttempts a 0 NoStamp)) as H2.
    { unfold w2. by rewrite (proj1 (proj2 (proj2 (saveAuthData_vault env _)))). }
    pose proof (initializeApp_frame env w2) as Hi. cbn zeta in Hi.
    destruct Hi as (_ & _ & Hi & _).
    destruct (initializeApp env w2) as [w3 [e|]]; cbn [fst] in Hi.
    + exists (withAttempts a 0 NoStamp). cbn [fst].
      unfold encryptConfigFiles.
      rewrite (proj1 (proj2 (proj2 (encryptEach_frame env configFiles _ w3)))).
      rewrite Hi, H2. unfold counted, sameSecret. cbn. repeat split; lia.
    + exists (withAttempts a 0 NoStamp). cbn [fst].
      rewrite (proj1 (proj2 (proj2 (emitAuthEvent_frame env _ AuthUnlocked)))).
      cbn. rewrite Hi, H2. unfold counted, sameSecret. cbn. repeat split; lia.
  - destruct (checkPassword_wrong env w a password Hv) as [_ ->].
    eexists. split; [reflexivity|].
    unfold counted, sameSecret, maxAttemptsBeforeLock in *.
    rewrite wrapInt_small by (unfold minInt, maxInt; lia).
    destruct (Z.geb_spec (FailedAttempts a + 1) 10); cbn; repeat split; lia.
Qed.

Lemma Unlock_counted (env : Env) (w : World) (a : AuthData)
    (password : string) :
  quiet env -> authData w = Some a -> counted a ->
  exists a',
    authData (fst (Unlock env w password)) = Some a'
    /\ counted a' /\ sameSecret a a'.
Proof.
  intros Hq Ha Hc.
  assert (sameSecret a a) as Hr by apply sameSecret_refl.
  destruct (Enabled a) eqn:He.
  2:{ exists a. unfold Unlock. rewrite Ha, He. cbn. done. }
  destruct (unlocked w) eqn:Hu.
  { exists a. unfold Unlock. rewrite Ha, He, Hu. cbn. done. }
  destruct (lockedFor (clock w) (LockoutUntil a)) as [remaining|] eqn:Hl.
  { exists a. rewrite (Unlock_locked env w a password remaining) by done.
    done. }
  rewrite (Unlock_unlocked env w a password) by done.
  assert (counted (withAttempts a (FailedAttempts a) NoStamp)
          /\ sameSecret a (withAttempts a (FailedAttempts a) NoStamp))
    as [Hc1 Hs1] by (split; [exact Hc | by repeat split]).
  match goal with
  | |- context [if ?b then _ else _] => destruct b
  end;
    match goal with
    | |- context [checkPassword env ?w1 ?a1 password] =>
        destruct (checkPassword_counted env w1 a1 password)
          as (a' & Hw' & Hc' & Hs'); [reflexivity | exact Hc1 |]
    end;
    exists a'; (split; [done|]); (split; [done|]);
    exact (sameSecret_trans _ _ _ Hs1 Hs').
Qed.

(** X2.  However many times [Unlock] is called, with whatever
    passwords, on a vault that no other goroutine touches, the failure
    counter stays between 0 and 9 (the tenth failure resets it), and the
    stored password hash, the enabled flag and the settings are never
    changed. *)
Theorem failure_counter_stays_below_ten (env : Env) (passwords : list string)
    (w : World) (a : AuthData) :
  quiet env -> authData w = Some a -> counted a ->
  exists a',
    authData (fst (attempts env w passwords)) = Some a'
    /\ 0 <= FailedAttempts a' < 10
    /\ Enabled a' = Enabled a /\ PasswordHash a' = PasswordHash a
    /\ AppSettings_ a' = AppSettings_ a.
Proof.
  intros Hq. revert w a.
  induction passwords as [|password rest IH]; intros w a Ha Hc.
  - exists a. cbn. unfold counted in Hc. repeat split; lia || done.
  - cbn [attempts].
    destruct (Unlock_counted env w a password Hq Ha Hc) as (a1 & H1 & Hc1 & Hs1).
    destruct (Unlock env w password) as [w1 o] eqn:Hw. cbn [fst] in H1.
    destruct (IH w1 a1 H1 Hc1) as (a' & H' & Hc' & He' & Hh' & Hs').
    destruct (attempts env w1 rest) as [w2 os]. cbn [fst] in H' |- *.
    exists a'. destruct Hs1 as (? & ? & ?). repeat split; lia || congruence.
Qed.

Lemma failure_counter_stays_below_ten_witness :
  exists a',
    authData (fst (attempts envGood (lockedVault 8 NoStamp) ["no"; "nope"]))
    = Some a'
    /\ 0 <= FailedAttempts a' < 10
    /\ Enabled a' = true
    /\ PasswordHash a' = encodePasswordHash toyKdf "abcd" salt0
    /\ AppSettings_ a' = settings0.
Proof.
  apply (failure_counter_stays_below_ten envGood ["no"; "nope"]
           (lockedVault 8 NoStamp) (authFor "abcd" 8 NoStamp)).
  - intros w. reflexivity.
  - reflexivity.
  - unfold counted. cbn. lia.
Defined.

End FailureCounter.

Section SetupAndLock.
Import Auth Vault Lifecycle.

Lemma Remove_frame (w : World) (path : string) :
  unlocked (Remove w path) = unlocked w /\ encKey (Remove w path) = encKey w
  /\ authData (Remove w path) = authData w
  /\ authFile (Remove w path) = authFile w /\ dbOpen (Remove w path) = dbOpen w
  /\ rand (Remove w path) = rand w /\ clock (Remove w path) = clock w
  /\ slept (Remove w path) = slept w /\ emitted (Remove w path) = emitted w.
Proof. by repeat split. Qed.

Lemma deleteLegacyFiles_frame (w : World) :
  let w' := deleteLegacyFiles w in
  unlocked w' = unlocked w /\ encKey w' = encKey w /\ authData w' = authData w
  /\ authFile w' = authFile w /\ dbOpen w' = dbOpen w /\ rand w' = rand w
  /\ clock w' = clock w /\ slept w' = slept w /\ emitted w' = emitted w.
Proof.
  unfold deleteLegacyFiles. generalize legacyFiles. intros l. revert w.
  induction l as [|f l IH]; intros w; [by repeat split|].
  cbn [fold_left]. specialize (IH (if exists_ w f then Remove w f else w)).
  cbn zeta in IH |- *. destruct (exists_ w f); [|exact IH].
  destruct IH as (-> & -> & -> & -> & -> & -> & -> & -> & ->).
  by repeat split.
Qed.

Lemma deleteLegacyFiles_lookup (w : World) (q : string) :
  q ∉ legacyFiles ->
  files (deleteLegacyFiles w) !! q = files w !! q.
Proof.
  unfold deleteLegacyFiles. generalize legacyFiles. intros l. revert w.
  induction l as [|f l IH]; intros w Hq; [reflexivity|].
  cbn [fold_left]. rewrite IH by (intros ?; apply Hq; by right).
  destruct (exists_ w f); [|reflexivity].
  cbn. apply lookup_delete_ne. intros ->. apply Hq. by left.
Qed.

Lemma config_not_legacy (p : string) :
  p ∈ configFiles -> (p ∉ legacyFiles) /\ (p +:+ ".enc" ∉ legacyFiles).
Proof.
  intros Hp. unfold configFiles in Hp.
  repeat (apply elem_of_cons in Hp as [->|Hp]); [| |by apply elem_of_nil in Hp];
    split; intros H; unfold legacyFiles in H;
    repeat (apply elem_of_cons in H as [H|H]; [discriminate H|]);
    by apply elem_of_nil in H.
Qed.

(** A successful [SetupPassword]. *)
Lemma SetupPassword_ok (env : Env) (settings : AppSettings) (w : World)
    (password : string) :
  snd (SetupPassword env settings w password) = None ->
  let w1 := fst (SetupPassword env settings w password) in
  IsAuthEnabled w = false
  /\ exists salt,
       authData w1
       = Some (MkAuthData true (encodePasswordHash (kdf env) password salt) 0
                 NoStamp settings)
       /\ encKey w1 = Some (kdf env password salt)
       /\ authFile w1 = authData w1
       /\ unlocked w1 = unlocked w
       /\ forall q, q ∉ legacyFiles -> files w1 !! q = files w !! q.
Proof.
  unfold SetupPassword.
  destruct (IsAuthEnabled w); [discriminate|].
  destruct (_ <? 4); [discriminate|].
  destruct (Read (rand w) argon2SaltLen) as [[salt|e] r]; [|discriminate].
  cbn zeta.
  match goal with
  | |- context [saveAuthData env ?wx] =>
      pose proof (saveAuthData_vault env wx) as Hv; cbn zeta in Hv;
      destruct Hv as (Hu & Hk & Ha & Hf & _);
      assert (snd (saveAuthData env wx) = None ->
              authFile (fst (saveAuthData env wx)) = authData wx) as Hj
        by (unfold saveAuthData; destruct (writeFails env "auth.json");
            [discriminate | reflexivity]);
      destruct (saveAuthData env wx) as [w' [e|]]
  end; [discriminate|].
  cbn [fst snd] in *. intros _. split; [reflexivity|]. exists salt.
  specialize (Hj eq_refl).
  pose proof (deleteLegacyFiles_frame (setRand w r)) as H. cbn zeta in H.
  destruct H as (Hu0 & _).
  cbn [authData encKey authFile unlocked files setVault].
  rewrite Ha, Hj, Hu, Hf. cbn [authData encKey authFile unlocked files setVault].
  rewrite Hu0. repeat split.
  intros q Hq. by rewrite deleteLegacyFiles_lookup.
Qed.

(** [Lock] on an unlocked vault that holds a key. *)
Lemma Lock_with_key (env : Env) (w : World) (key : bytes) :
  unlocked w = true -> encKey w = Some key ->
  let w' := Lock env w in
  unlocked w' = false /\ encKey w' = None /\ authData w' = authData w
  /\ dbOpen w' = false
  /\ files w' = files (fst (encryptConfigFiles env (closeDatabase w) key)).
Proof.
  intros Hu Hk. unfold Lock, lockInternal. rewrite Hu, Hk. cbn [negb].
  set (w1 := fst (encryptConfigFiles env (closeDatabase w) key)).
  pose proof (emitAuthEvent_frame env (setVault w1 false None (authData w1))
                AuthLocked) as H.
  cbn zeta in H. destruct H as (H1 & H2 & H3 & H4 & _ & _ & _ & H5).
  rewrite H1, H2, H3, H4, H5.
  cbn [setVault unlocked encKey authData files dbOpen].
  pose proof (encryptEach_frame env configFiles key (closeDatabase w)) as H.
  cbn zeta in H. fold (encryptConfigFiles env (closeDatabase w) key) in H.
  fold w1 in H. destruct H as (_ & _ & Ha & _ & Hd & _). rewrite Ha, Hd.
  by repeat split.
Qed.

(** X3.  A successful [SetupPassword] leaves the configuration
    files in plaintext and holds the key.  A [Lock] after it during which
    every write succeeds, though a file may be unreadable, the entropy
    source may fail or the key may be one the cipher rejects, leaves a
    locked vault without key and every configuration file either sealed
    under the key of the password or still in plaintext.  An [Unlock]
    with the same password, once nothing fails around the vault, then
    succeeds and puts every configuration file back with the content it
    had before the password was set. *)
Theorem setup_lock_unlock_round_trip (env env' : Env)
    (settings : AppSettings) (w : World) (password : string) :
  opensSealed (gcm env) -> (forall p, writeFails env p = false) ->
  healthy env' -> kdf env' = kdf env -> gcm env' = gcm env ->
  unlocked w = true ->
  (forall p, p ∈ configFiles -> files w !! (p +:+ ".enc") = None) ->
  snd (SetupPassword env settings w password) = None ->
  let w1 := fst (SetupPassword env settings w password) in
  let w2 := Lock env w1 in
  IsAuthEnabled w1 = true /\ unlocked w1 = true
  /\ (forall p, p ∈ configFiles -> plainAt (files w) (files w1) p)
  /\ unlocked w2 = false /\ encKey w2 = None
  /\ (exists salt, kept (gcm env) (kdf env password salt) (files w) (files w2))
  /\ snd (Unlock env' w2 password) = Done
  /\ forall p, p ∈ configFiles ->
       plainAt (files w) (files (fst (Unlock env' w2 password))) p.
Proof.
  intros Hg _ Hh Hk Hc Hu Hplain Hok w1 w2.
  destruct (SetupPassword_ok env settings w password Hok)
    as (_ & salt & Ha & Hkey & _ & Hu1 & Hf1).
  fold w1 in Ha, Hkey, Hu1, Hf1. rewrite Hu in Hu1.
  assert (forall p, p ∈ configFiles -> plainAt (files w) (files w1) p) as Hp1.
  { intros p Hp. destruct (config_not_legacy p Hp) as [Hn He].
    unfold plainAt. rewrite !Hf1 by done.
    split; [reflexivity | by apply Hplain]. }
  destruct (Lock_with_key env w1 _ Hu1 Hkey) as (Hu2 & Hk2 & Ha2 & _ & Hf2).
  fold w2 in Hu2, Hk2, Ha2, Hf2.
  assert (kept (gcm env) (kdf env password salt) (files w) (files w2)) as Hkept.
  { rewrite Hf2. apply encryptEach_kept; [done|].
    apply all_plain_kept. exact Hp1. }
  split; [unfold IsAuthEnabled; by rewrite Ha|]. split; [done|].
  split; [done|]. split; [done|]. split; [done|].
  split; [by exists salt|].
  rewrite Ha in Ha2.
  destruct (unlock_recovers env' w2
              (MkAuthData true (encodePasswordHash (kdf env) password salt) 0
                 NoStamp settings)
              salt password (files w) Hh) as (Hd & _ & _ & Hr).
  - by rewrite Hc.
  - exact Ha2.
  - reflexivity.
  - by split.
  - cbn. by rewrite Hk.
  - exact Hu2.
  - by rewrite Hc, Hk.
  - by split.
Qed.

Lemma openVault_plain (p : string) :
  p ∈ configFiles -> files openVault !! (p +:+ ".enc") = None.
Proof.
  intros Hp. unfold configFiles in Hp.
  repeat (apply elem_of_cons in Hp as [->|Hp]); [done | done |].
  by apply elem_of_nil in Hp.
Qed.

(** The database cannot be read while the vault is locked: it stays in
    plaintext beside the sealed [rclone.conf], and the later [Unlock]
    restores both. *)
Lemma setup_lock_unlock_round_trip_witness :
  let env := envWith (fun p => String.eqb p "ng-drive.db") (fun _ => false) in
  let w1 := fst (SetupPassword env settings0 openVault "abcd") in
  let w2 := Lock env w1 in
  unlocked w2 = false /\ encKey w2 = None
  /\ files w2 !! "rclone.conf" = None
  /\ files w2 !! "ng-drive.db" = Some db
  /\ snd (Unlock envGood w2 "abcd") = Done
  /\ forall p, p ∈ configFiles ->
       plainAt (files openVault) (files (fst (Unlock envGood w2 "abcd"))) p.
Proof.
  destruct (setup_lock_unlock_round_trip
              (envWith (fun p => String.eqb p "ng-drive.db") (fun _ => false))
              envGood settings0 openVault "abcd")
    as (_ & _ & _ & Hu & Hk & _ & Hd & Hp);
    [apply toyGcm_opens | reflexivity | apply envGood_healthy | reflexivity
    | reflexivity | reflexivity | apply openVault_plain
    | vm_compute; reflexivity |].
  split; [exact Hu|]. split; [exact Hk|].
  split; [vm_compute; reflexivity|]. split; [vm_compute; reflexivity|].
  split; [exact Hd | exact Hp].
Defined.

End SetupAndLock.

Section LockSeals.
Import Auth Vault Lifecycle.

Lemma draw_here (r : Rand) :
  map (entropy r) (seq (pos r) NonceSize) = draw r 0.
Proof. unfold draw. by rewrite Nat.mul_0_r, Nat.add_0_r. Qed.

Lemma draw_next (r : Rand) (b : bool) (k : nat) :
  draw (MkRand (entropy r) (pos r + NonceSize) b) k = draw r (S k).
Proof. unfold draw. cbn [entropy pos]. f_equal. f_equal. lia. Qed.

Lemma encryptFile_sound (env : Env) (w : World) (path : string) (key pt : bytes) :
  readFails env path = false -> writeFails env (path +:+ ".enc") = false ->
  files w !! path = Some pt -> validKey key -> sound (rand w) ->
  exists w',
    encryptFile env w path (path +:+ ".enc") key = (w', None)
    /\ files w'
       = <[path +:+ ".enc" :=
             draw (rand w) 0 ++ Seal (gcm env) key (draw (rand w) 0) pt]>
           (files w)
    /\ sound (rand w')
    /\ forall k, draw (rand w') k = draw (rand w) (S k).
Proof.
  intros Hr Hw Hf Hk Hs. unfold encryptFile, ReadFile, WriteFile.
  rewrite Hr, Hf, (NewCipher_valid key Hk).
  unfold Read. unfold sound in Hs. rewrite Hs.
  cbn [setRand rand]. rewrite Hw, draw_here.
  eexists. split; [reflexivity|]. split; [reflexivity|].
  split; [reflexivity|]. intros k. cbn [files setFiles setRand rand].
  apply draw_next.
Qed.

(** X4.  When the disk and the entropy source work and the key
    has a length the cipher accepts, [Lock] leaves a locked vault without
    key and with the database closed, and no configuration file in
    plaintext: every configuration file that existed is gone together
    with its SQLite sidecars, and its [.enc] file holds a nonce followed
    by the content sealed under the key with that nonce.  The nonce is
    read from the entropy source for that file alone: it is the stretch
    of 12 bytes that follows the stretches read for the files sealed
    before it, so two files never share a stretch. *)
Theorem lock_leaves_no_plaintext (env : Env) (w : World) (key : bytes) :
  unlocked w = true -> encKey w = Some key -> validKey key ->
  (forall p, readFails env p = false) -> (forall p, writeFails env p = false) ->
  sound (rand w) ->
  let w' := Lock env w in
  unlocked w' = false /\ encKey w' = None /\ dbOpen w' = false
  /\ (forall p, p ∈ configFiles ->
        sealedWith (gcm env) key (rand w) (files w) (files w') p)
  /\ (forall p q, p ∈ configFiles -> q ∈ configFiles -> p <> q ->
        is_Some (files w !! p) -> is_Some (files w !! q) ->
        sealedBefore (files w) configFiles p
        <> sealedBefore (files w) configFiles q).
Proof.
  intros Hu Hk Hv Hr Hw Hs w'.
  destruct (Lock_with_key env w key Hu Hk) as (Hu' & Hk' & _ & Hd' & Hf').
  fold w' in Hu', Hk', Hd', Hf'. repeat (split; [done|]).
  split.
  2:{ intros p q Hp Hq Hne Hsp Hsq. unfold configFiles in *.
      repeat (apply elem_of_cons in Hp as [->|Hp]);
        [| |by apply elem_of_nil in Hp];
        (repeat (apply elem_of_cons in Hq as [->|Hq]);
         [| |by apply elem_of_nil in Hq]); try done;
        cbn [sealedBefore String.eqb Ascii.eqb Bool.eqb];
        rewrite bool_decide_eq_true_2 by done; cbn; lia. }
  rewrite Hf'. clear Hu' Hk' Hd' Hf' w'.
  unfold encryptConfigFiles, configFiles.
  assert (sound (rand (closeDatabase w))) as Hs0 by exact Hs.
  assert (files (closeDatabase w) = files w) as Hf0 by reflexivity.
  assert (rand (closeDatabase w) = rand w) as Hr0 by reflexivity.
  revert Hs0 Hf0 Hr0. generalize (closeDatabase w). intros w0 Hs0 Hf0 Hr0.
  (* first file *)
  assert (exists w1,
            sound (rand w1)
            /\ encryptEach env w0 ["rclone.conf"; "ng-drive.db"] key
               = encryptEach env w1 ["ng-drive.db"] key
            /\ sealedWith (gcm env) key (rand w) (files w) (files w1)
                 "rclone.conf"
            /\ (forall q, q ∈ ["ng-drive.db"; "ng-drive.db.enc";
                               "ng-drive.db-wal"; "ng-drive.db-shm"] ->
                  files w1 !! q = files w !! q)
            /\ draw (rand w1) 0
               = draw (rand w)
                   (sealedBefore (files w) ["rclone.conf"; "ng-drive.db"]
                      "ng-drive.db"))
    as (w1 & Hs1 & -> & H1 & Hq1 & Hn1).
  { cbn [encryptEach]. unfold exists_ at 1. rewrite Hf0.
    cbn [sealedBefore String.eqb Ascii.eqb Bool.eqb].
    destruct (files w !! "rclone.conf") as [pt|] eqn:Hpt.
    - rewrite !bool_decide_eq_true_2 by eauto. cbn [negb].
      destruct (encryptFile_sound env w0 "rclone.conf" key pt)
        as (wx & -> & Hfx & Hsx & Hdx);
        [done | done | by rewrite Hf0 | done | done |].
      eexists. split; [|split; [reflexivity|]].
      + exact Hsx.
      + cbn [Remove setFiles files rand]. rewrite Hfx, Hf0, Hr0.
        unfold sealedWith, configFiles.
        cbn [sealedBefore String.eqb Ascii.eqb Bool.eqb].
        literal. split; [|split].
        * split; [by simplify_map_eq|]. intros ? Heq. rewrite Hpt in Heq.
          injection Heq as <-. cbv zeta.
          split; [by simplify_map_eq|]. split; by simplify_map_eq.
        * intros q Hq.
          repeat (apply elem_of_cons in Hq as [->|Hq]);
            [| | | |by apply elem_of_nil in Hq]; by simplify_map_eq.
        * rewrite Hdx, Hr0. reflexivity.
    - rewrite !bool_decide_eq_false_2 by (intros [? ?]; done). cbn [negb].
      exists w0. split; [done|]. split; [reflexivity|]. rewrite Hf0, Hr0.
      split; [|split; [done|reflexivity]].
      split; [done|]. intros ? Heq. congruence. }
  (* second file *)
  cbn [encryptEach]. unfold exists_ at 1.
  rewrite (Hq1 "ng-drive.db") by set_solver.
  destruct (files w !! "ng-drive.db") as [pt|] eqn:Hpt.
  - rewrite bool_decide_eq_true_2 by eauto. cbn [negb].
    destruct (encryptFile_sound env w1 "ng-drive.db" key pt)
      as (wx & -> & Hfx & Hsx & _);
      [done | done | rewrite Hq1 by set_solver; done | done | done |].
    cbn [fst Remove setFiles files]. rewrite Hfx, Hn1.
    intros p Hp. unfold configFiles in Hp. unfold sealedWith in H1 |- *.
    unfold configFiles in *. cbv zeta in H1 |- *.
    repeat (apply elem_of_cons in Hp as [->|Hp]);
      [| |by apply elem_of_nil in Hp]; literal;
      repeat match goal with
             | |- context [draw ?r ?k] =>
                 let n := fresh "nonce" in set (n := draw r k) in *; clearbody n
             | H : context [draw ?r ?k] |- _ =>
                 let n := fresh "nonce" in set (n := draw r k) in *; clearbody n
             end.
    + destruct H1 as (H1a & H1b). split; [by simplify_map_eq|].
      intros pt1 Hpt1. destruct (H1b pt1 Hpt1) as (Hw1 & Hs1' & He1).
      split; [by simplify_map_eq|]. split; by simplify_map_eq.
    + split; [by simplify_map_eq|]. intros ? Heq. rewrite Hpt in Heq.
      injection Heq as <-.
      split; [by simplify_map_eq|]. split; by simplify_map_eq.
  - rewrite bool_decide_eq_false_2 by (intros [? ?]; done). cbn [negb fst].
    intros p Hp. unfold configFiles in Hp.
    repeat (apply elem_of_cons in Hp as [->|Hp]);
      [| |by apply elem_of_nil in Hp].
    + exact H1.
    + split; [rewrite Hq1 by set_solver; done|]. intros ? Heq. congruence.
Qed.

(** With an entropy source that counts, [rclone.conf] is sealed with the
    bytes 0 to 11 and [ng-drive.db] with the bytes 12 to 23. *)
Lemma lock_leaves_no_plaintext_witness :
  let w' := Lock envGood countingVault in
  let key := toyKdf "abcd" salt0 in
  unlocked w' = false
  /\ files w' !! "rclone.conf" = None /\ files w' !! "ng-drive.db" = None
  /\ files w' !! "rclone.conf.enc"
     = Some (draw counting 0 ++ Seal toyGcm key (draw counting 0) conf)
  /\ files w' !! "ng-drive.db.enc"
     = Some (draw counting 1 ++ Seal toyGcm key (draw counting 1) db)
  /\ draw counting 0 <> draw counting 1.
Proof.
  destruct (lock_leaves_no_plaintext envGood countingVault
              (toyKdf "abcd" salt0))
    as (Hu & _ & _ & Hsealed & _);
    [reflexivity | reflexivity | right; right; reflexivity
    | intros p; reflexivity | intros p; reflexivity | reflexivity |].
  destruct (Hsealed "rclone.conf" ltac:(apply list_elem_of_here))
    as [Hc1 Hc2].
  destruct (Hsealed "ng-drive.db"
              ltac:(apply list_elem_of_further, list_elem_of_here))
    as [Hd1 Hd2].
  destruct (Hc2 conf eq_refl) as (_ & _ & Hc3).
  destruct (Hd2 db eq_refl) as (_ & _ & Hd3).
  split; [exact Hu|]. split; [exact Hc1|]. split; [exact Hd1|].
  split; [exact Hc3|]. split; [exact Hd3|].
  vm_compute. discriminate.
Defined.

End LockSeals.
Section Unprotected.
Import Auth Vault Lifecycle.

Lemma recoverEach_frame (paths : list string) (w : World) :
  let w' := recoverEach w paths in
  unlocked w' = unlocked w /\ encKey w' = encKey w /\ authData w' = authData w
  /\ authFile w' = authFile w /\ dbOpen w' = dbOpen w /\ rand w' = rand w
  /\ clock w' = clock w /\ slept w' = slept w /\ emitted w' = emitted w.
Proof.
  revert w. induction paths as [|p rest IH]; intros w; [by repeat split|].
  cbn [recoverEach]. cbn zeta.
  destruct (exists_ w p && exists_ w (p +:+ ".enc")); [|apply IH].
  destruct (IsAuthEnabled w).
  - specialize (IH (Remove (Remove (Remove w p) (p +:+ "-wal")) (p +:+ "-shm"))).
    cbn zeta in IH. destruct IH as (-> & -> & -> & -> & -> & -> & -> & -> & ->).
    by repeat split.
  - specialize (IH (Remove w (p +:+ ".enc"))).
    cbn zeta in IH. destruct IH as (-> & -> & -> & -> & -> & -> & -> & -> & ->).
    by repeat split.
Qed.

(** [ServiceStartup] without a readable [auth.json]. *)
Lemma ServiceStartup_unprotected (env : Env) (w0 : World) :
  authFile w0 = None ->
  initDatabaseFails env = false -> completeInitializationFails env = false ->
  let w := recoverFromCrash
             (setVault (NewAuthService w0) false None (Some noAuth)) in
  ServiceStartup env true (NewAuthService w0)
  = (emitAuthEvent env (setVault (setDb w true) true None (Some noAuth))
       AuthUnlocked, None).
Proof.
  intros Hf Hd Hc w. unfold ServiceStartup, loadAuthData.
  cbn [negb NewAuthService authFile unlocked encKey]. rewrite Hf.
  assert ((if readFails env "auth.json"
           then @Err AuthData "read error" else Err "no such file")
          = Err (if readFails env "auth.json"
                 then "read error" else "no such file")) as ->
    by (by destruct (readFails env "auth.json")).
  cbn [Enabled noAuth negb]. fold w.
  unfold initializeApp, InitDatabase. rewrite Hd, Hc.
  pose proof (recoverEach_frame configFiles
                (setVault (NewAuthService w0) false None (Some noAuth))) as H.
  cbn zeta in H. fold (recoverFromCrash
                         (setVault (NewAuthService w0) false None (Some noAuth))) in H.
  fold w in H. destruct H as (_ & Hk & Ha & _).
  cbn [setDb unlocked encKey authData files authFile dbOpen rand clock slept
         emitted setVault].
  rewrite Hk, Ha. reflexivity.
Qed.

(** X5.  In an application that starts without [auth.json] (no
    password configured) and whose database opens, the start-up unlocks
    the vault and announces it; a [Lock] after that changes nothing (the
    vault stays unlocked, the files and the database handle stay as they
    were, no key is held) and yet, when an event bus is installed, the
    locked event is announced. *)
Theorem lock_without_password (env : Env) (w0 : World) :
  authFile w0 = None ->
  initDatabaseFails env = false -> completeInitializationFails env = false ->
  let w1 := fst (ServiceStartup env true (NewAuthService w0)) in
  let w2 := Lock env w1 in
  snd (ServiceStartup env true (NewAuthService w0)) = None
  /\ IsAuthEnabled w1 = false /\ unlocked w1 = true
  /\ unlocked w2 = true /\ encKey w2 = None /\ files w2 = files w1
  /\ dbOpen w2 = true
  /\ (hasBus env = true ->
      emitted w2 = emitted w0 ++ [AuthUnlocked; AuthLocked]).
Proof.
  intros Hf Hd Hc w1 w2. subst w2 w1.
  rewrite (ServiceStartup_unprotected env w0 Hf Hd Hc). cbn [fst snd].
  set (w := recoverFromCrash _).
  pose proof (recoverEach_frame configFiles
                (setVault (NewAuthService w0) false None (Some noAuth))) as H.
  cbn zeta in H. fold (recoverFromCrash
                         (setVault (NewAuthService w0) false None (Some noAuth))) in H.
  fold w in H. destruct H as (_ & _ & _ & _ & _ & _ & _ & _ & He).
  unfold Lock, lockInternal, IsAuthEnabled, emitAuthEvent.
  destruct (hasBus env);
    cbn [setDb unlocked encKey authData files authFile dbOpen rand clock slept
           emitted setVault negb noAuth Enabled];
    repeat (split; [reflexivity|]); [|discriminate].
  intros _. rewrite He. cbn. by rewrite <- app_assoc.
Qed.

Lemma lock_without_password_witness :
  let w1 := fst (ServiceStartup envGood true (NewAuthService openVault)) in
  let w2 := Lock envGood w1 in
  snd (ServiceStartup envGood true (NewAuthService openVault)) = None
  /\ IsAuthEnabled w1 = false /\ unlocked w1 = true
  /\ unlocked w2 = true /\ encKey w2 = None /\ files w2 = files w1
  /\ dbOpen w2 = true
  /\ (hasBus envGood = true ->
      emitted w2 = emitted openVault ++ [AuthUnlocked; AuthLocked]).
Proof.
  apply (lock_without_password envGood openVault); reflexivity.
Defined.

End Unprotected.

Section SetupFailure.
Import Auth Vault Lifecycle.

(** X6.  When [auth.json] cannot be written, [SetupPassword]
    with an acceptable password on a vault without password returns the
    save error, yet the service now counts as protected: the record in
    memory is enabled although nothing was stored and no key is held, and
    every later [SetupPassword], whatever the disk does by then, is
    refused as already configured. *)
Theorem setup_password_failed_save (env : Env) (settings : AppSettings)
    (w : World) (password : string) :
  IsAuthEnabled w = false -> (4 <= String.length password)%nat ->
  sound (rand w) -> writeFails env "auth.json" = true ->
  let r := SetupPassword env settings w password in
  snd r = Some "failed to save auth data: failed to write auth.json"
  /\ IsAuthEnabled (fst r) = true
  /\ encKey (fst r) = encKey w /\ authFile (fst r) = authFile w
  /\ forall env' settings' password',
       SetupPassword env' settings' (fst r) password'
       = (fst r,
          Some "password already configured, use ChangePassword instead").
Proof.
  intros Ha Hl Hs Hw r. subst r. unfold SetupPassword. rewrite Ha.
  assert ((Z.of_nat (String.length password) <? 4) = false) as -> by lia.
  unfold Read. unfold sound in Hs. rewrite Hs. cbn zeta.
  unfold saveAuthData. rewrite Hw. cbn [fst snd].
  pose proof (deleteLegacyFiles_frame
                (setRand w
                   (MkRand (entropy (rand w)) (pos (rand w) + argon2SaltLen)
                      false))) as H.
  cbn zeta in H. destruct H as (_ & Hk & _ & Hf & _).
  split; [reflexivity|].
  assert (forall wx a, IsAuthEnabled (setVault wx (unlocked wx) (encKey wx)
                                        (Some (MkAuthData true a 0 NoStamp settings)))
                       = true) as He by reflexivity.
  split; [apply He|].
  split; [cbn [setVault encKey]; by rewrite Hk|].
  split; [cbn [setVault authFile]; by rewrite Hf|].
  intros env' settings' password'. by rewrite He.
Qed.

Lemma setup_password_failed_save_witness :
  let env := envWith (fun _ => false) (fun p => String.eqb p "auth.json") in
  let r := SetupPassword env settings0 openVault "abcd" in
  snd r = Some "failed to save auth data: failed to write auth.json"
  /\ IsAuthEnabled (fst r) = true
  /\ encKey (fst r) = encKey openVault /\ authFile (fst r) = authFile openVault
  /\ forall env' settings' password',
       SetupPassword env' settings' (fst r) password'
       = (fst r,
          Some "password already configured, use ChangePassword instead").
Proof.
  apply (setup_password_failed_save
           (envWith (fun _ => false) (fun p => String.eqb p "auth.json"))
           settings0 openVault "abcd");
    [reflexivity | cbn; lia | reflexivity | reflexivity].
Defined.

End SetupFailure.

Section RemovePassword.
Import Auth Vault Lifecycle.

(** X7.  [RemovePassword] on an unlocked, protected vault: with a
    wrong password it fails and changes nothing; with the right one it
    succeeds, the protection is off, the vault stays unlocked without key,
    [auth.json] is gone, no [.enc] file is left and the plaintext of every
    configuration file is untouched; after that [Unlock] answers that
    auth is not enabled, [Lock] leaves the files as they are, and a new
    password can be set up. *)
Theorem remove_password_outcome (env : Env) (w : World) (a : AuthData)
    (password : string) :
  authData w = Some a -> Enabled a = true -> unlocked w = true ->
  let r := RemovePassword env w password in
  (verifyPasswordHash (kdf env) password (PasswordHash a) = false ->
   r = (w, Some "incorrect password"))
  /\ (verifyPasswordHash (kdf env) password (PasswordHash a) = true ->
      snd r = None
      /\ IsAuthEnabled (fst r) = false /\ unlocked (fst r) = true
      /\ encKey (fst r) = None /\ authFile (fst r) = None
      /\ (forall p, p ∈ configFiles ->
            files (fst r) !! p = files w !! p
            /\ files (fst r) !! (p +:+ ".enc") = None)
      /\ (forall env' password',
            Unlock env' (fst r) password' = (fst r, Failed "auth not enabled"))
      /\ (forall env', files (Lock env' (fst r)) = files (fst r))
      /\ (forall env' settings password',
            snd (SetupPassword env' settings (fst r) password')
            <> Some "password already configured, use ChangePassword instead")).
Proof.
  intros Ha He Hu r. subst r. unfold RemovePassword. rewrite Ha, He, Hu.
  cbn [negb].
  destruct (verifyPasswordHash (kdf env) password (PasswordHash a));
    (split; [intros ?; try done|intros ?; try done]).
  cbn [negb fst snd]. repeat (split; [reflexivity|]).
  split.
  { intros p Hp. unfold configFiles in Hp. cbn.
    repeat (apply elem_of_cons in Hp as [->|Hp]); [| |by apply elem_of_nil in Hp];
      literal; by simplify_map_eq. }
  split; [reflexivity|].
  split.
  { intros env'. unfold Lock, lockInternal, emitAuthEvent.
    cbn [setVault unlocked encKey negb].
    by destruct (hasBus env'). }
  intros env' settings password'. unfold SetupPassword.
  cbn [IsAuthEnabled setVault authData noAuth Enabled].
  repeat case_match; cbn; discriminate.
Qed.

Lemma remove_password_outcome_witness :
  let r := RemovePassword envGood unlockedVault "abcd" in
  snd r = None /\ IsAuthEnabled (fst r) = false /\ authFile (fst r) = None
  /\ files (fst r) !! "rclone.conf" = Some conf.
Proof.
  destruct (remove_password_outcome envGood unlockedVault
              (authFor "abcd" 0 NoStamp) "abcd") as [_ H];
    [reflexivity | reflexivity | reflexivity |].
  destruct (H eq_refl) as (H1 & H2 & _ & _ & H3 & H4 & _).
  split; [exact H1|]. split; [exact H2|]. split; [exact H3|].
  destruct (H4 "rclone.conf") as [-> _]; [by left | reflexivity].
Defined.

End RemovePassword.

Section CrashRecovery.
Import Auth Vault Lifecycle.

Lemma exists_lookup (w : World) (path : string) :
  exists_ w path = match files w !! path with Some _ => true | None => false end.
Proof.
  unfold exists_. destruct (files w !! path) eqn:H.
  - by rewrite bool_decide_eq_true_2.
  - rewrite bool_decide_eq_false_2; [done|]. by intros [? ?].
Qed.

(** The two forms of each configuration file after [recoverFromCrash]. *)
Lemma recoverFromCrash_lookup (w : World) (p : string) :
  p ∈ configFiles ->
  files (recoverFromCrash w) !! p
  = (if both w p && IsAuthEnabled w then None else files w !! p)
  /\ files (recoverFromCrash w) !! (p +:+ ".enc")
     = (if both w p && negb (IsAuthEnabled w) then None
        else files w !! (p +:+ ".enc")).
Proof.
  intros Hp. unfold recoverFromCrash, configFiles, both in *.
  cbn [recoverEach]. literal.
  assert (forall wx q, IsAuthEnabled (Remove wx q) = IsAuthEnabled wx) as Hr
    by reflexivity.
  repeat (apply elem_of_cons in Hp as [->|Hp]); try (by apply elem_of_nil in Hp);
    literal; rewrite !exists_lookup;
    destruct (files w !! "rclone.conf") as [c|] eqn:Hc;
    destruct (files w !! "rclone.conf.enc") as [ce|] eqn:Hce;
    destruct (IsAuthEnabled w) eqn:Hen;
    cbn [andb negb];
    rewrite ?exists_lookup, ?Hr, ?Hen; cbn [Remove setFiles files];
    rewrite ?lookup_delete_ne by done;
    destruct (files w !! "ng-drive.db") as [d|] eqn:Hdb;
    destruct (files w !! "ng-drive.db.enc") as [de|] eqn:Hde;
    cbn [andb negb]; rewrite ?Hen;
    cbn [Remove setFiles files]; by simplify_map_eq.
Qed.

(** X8.  [recoverFromCrash] touches nothing but the directory,
    and afterwards no configuration file is present in both forms.  A file
    present in one form only is left as it is; of a file present in both
    forms the plaintext is removed when auth is enabled and the [.enc]
    file when it is not, whatever the two files hold. *)
Theorem recover_from_crash_keeps_one_form (w : World) :
  let w' := recoverFromCrash w in
  unlocked w' = unlocked w /\ encKey w' = encKey w /\ authData w' = authData w
  /\ authFile w' = authFile w /\ dbOpen w' = dbOpen w
  /\ forall p, p ∈ configFiles ->
       (files w' !! p = None \/ files w' !! (p +:+ ".enc") = None)
       /\ (files w !! p = None \/ files w !! (p +:+ ".enc") = None ->
           files w' !! p = files w !! p
           /\ files w' !! (p +:+ ".enc") = files w !! (p +:+ ".enc"))
       /\ (is_Some (files w !! p) -> is_Some (files w !! (p +:+ ".enc")) ->
           if IsAuthEnabled w
           then files w' !! p = None
                /\ files w' !! (p +:+ ".enc") = files w !! (p +:+ ".enc")
           else files w' !! p = files w !! p
                /\ files w' !! (p +:+ ".enc") = None).
Proof.
  intros w'.
  pose proof (recoverEach_frame configFiles w) as H. cbn zeta in H.
  fold (recoverFromCrash w) in H. fold w' in H.
  destruct H as (Hu & Hk & Ha & Hf & Hd & _).
  repeat (split; [assumption|]). clear Hu Hk Ha Hf Hd.
  intros p Hp. subst w'.
  destruct (recoverFromCrash_lookup w p Hp) as [-> ->].
  unfold both. rewrite !exists_lookup.
  destruct (files w !! p) as [c|], (files w !! (p +:+ ".enc")) as [ce|],
    (IsAuthEnabled w); cbn [andb negb];
    (split; [auto|]); (split; [intros [?|?]; done|]);
    intros [? ?] [? ?]; done.
Qed.

(** With auth enabled, the recovery turns every interrupted file into a
    sealed one. *)
Lemma recoverFromCrash_kept (g : AEAD) (key : bytes) (fs0 : gmap string bytes)
    (w : World) :
  IsAuthEnabled w = true -> interrupted g key fs0 (files w) ->
  kept g key fs0 (files (recoverFromCrash w)).
Proof.
  intros He Hi p Hp.
  destruct (recoverFromCrash_lookup w p Hp) as [H1 H2].
  rewrite He in H1, H2. cbn [negb] in H2. rewrite andb_false_r in H2.
  rewrite andb_true_r in H1. unfold both in H1. rewrite !exists_lookup in H1.
  destruct (Hi p Hp) as [[Ha Hb]|[(Ha & Hb & nonce & pt & Hc & Hd & Hf)
                                  |([c Ha] & Hb & nonce & pt & Hc & Hd & Hf)]].
  - left. split; [|congruence]. rewrite H1, Hb. by destruct (files w !! p).
  - right. split; [rewrite H1, Ha; done|]. split; [done|].
    exists nonce, pt. rewrite H2. done.
  - right. split; [rewrite H1, Ha, Hf; done|]. split; [done|].
    exists nonce, pt. rewrite H2. done.
Qed.

End CrashRecovery.

Section Restart.
Import Auth Vault Lifecycle.

(** [ServiceStartup] over a readable [auth.json] with auth enabled. *)
Lemma ServiceStartup_protected (env : Env) (w0 : World) (a : AuthData) :
  readFails env "auth.json" = false -> authFile w0 = Some a ->
  Enabled a = true ->
  let w := recoverFromCrash (setVault (NewAuthService w0) false None (Some a)) in
  ServiceStartup env true (NewAuthService w0)
  = (emitAuthEvent env (setVault w false None (Some a)) AuthLocked, None).
Proof.
  intros Hr Hf He w. unfold ServiceStartup, loadAuthData.
  cbn [negb NewAuthService authFile unlocked encKey]. rewrite Hr, Hf, He.
  cbn [negb]. fold w.
  pose proof (recoverEach_frame configFiles
                (setVault (NewAuthService w0) false None (Some a))) as H.
  cbn zeta in H.
  fold (recoverFromCrash (setVault (NewAuthService w0) false None (Some a))) in H.
  fold w in H. destruct H as (_ & Hk & Ha & _).
  rewrite Hk, Ha. reflexivity.
Qed.

(** After such a start-up the vault is locked over a directory in which
    every interrupted file is sealed again. *)
Lemma startup_kept (env : Env) (w0 : World) (a : AuthData) (key : bytes)
    (fs0 : gmap string bytes) :
  readFails env "auth.json" = false -> authFile w0 = Some a ->
  Enabled a = true -> interrupted (gcm env) key fs0 (files w0) ->
  let w1 := fst (ServiceStartup env true (NewAuthService w0)) in
  snd (ServiceStartup env true (NewAuthService w0)) = None
  /\ unlocked w1 = false /\ encKey w1 = None /\ authData w1 = Some a
  /\ dbOpen w1 = false
  /\ kept (gcm env) key fs0 (files w1).
Proof.
  intros Hr Hf He Hi w1. subst w1.
  rewrite (ServiceStartup_protected env w0 a Hr Hf He). cbn [fst snd].
  pose proof (emitAuthEvent_frame env
                (setVault
                   (recoverFromCrash
                      (setVault (NewAuthService w0) false None (Some a)))
                   false None (Some a)) AuthLocked) as H.
  cbn zeta in H. destruct H as (-> & -> & -> & -> & _ & _ & _ & ->).
  cbn [setVault unlocked encKey authData files dbOpen].
  repeat (split; [reflexivity|]).
  pose proof (recoverEach_frame configFiles
                (setVault (NewAuthService w0) false None (Some a))) as H.
  cbn zeta in H.
  fold (recoverFromCrash (setVault (NewAuthService w0) false None (Some a))) in H.
  destruct H as (_ & _ & _ & _ & Hd & _). split; [exact Hd|].
  apply recoverFromCrash_kept; [cbn; exact He | exact Hi].
Qed.

(** [decryptFile] on an [.enc] file that cannot be opened fails and
    leaves the directory as it was. *)
Lemma decryptFile_unopenable (env : Env) (w : World) (p : string)
    (key ct : bytes) :
  files w !! (p +:+ ".enc") = Some ct -> unopenable (gcm env) key ct ->
  exists e, decryptFile env w (p +:+ ".enc") p key = (w, Some e).
Proof.
  intros Hct Hun. unfold decryptFile, ReadFile.
  destruct (readFails env (p +:+ ".enc")); [eauto|]. rewrite Hct.
  destruct (NewCipher key) as [block|e] eqn:Hk; [|eauto].
  apply NewCipher_ok in Hk as [-> _].
  destruct (length ct <? NonceSize)%nat eqn:Hlen; [eauto|].
  destruct Hun as [Hshort|Hopen].
  - apply Nat.ltb_ge in Hlen. unfold NonceSize in *. lia.
  - rewrite Hopen. eauto.
Qed.

(** [decryptFile] writes its destination and nothing else. *)
Lemma decryptFile_others (env : Env) (w : World) (src dst x : string)
    (key : bytes) :
  x <> dst ->
  files (fst (decryptFile env w src dst key)) !! x = files w !! x.
Proof.
  intros Hx. unfold decryptFile, WriteFile.
  destruct (ReadFile env w src); [|done].
  destruct (NewCipher key); [|done].
  destruct (length _ <? NonceSize)%nat; [done|].
  destruct (Open _ _ _ _); [|done].
  destruct (writeFails env dst); [done|].
  cbn [fst files setFiles]. by rewrite lookup_insert_ne.
Qed.

(** [decryptConfigFiles] stops with an error at the latest at a file whose
    [.enc] form cannot be opened, and leaves both forms of that file as
    they were. *)
Lemma decryptEach_stuck (env : Env) (key ct : bytes) (p : string)
    (paths : list string) (w : World) :
  p ∈ configFiles -> (forall q, q ∈ paths -> q ∈ configFiles) -> p ∈ paths ->
  files w !! (p +:+ ".enc") = Some ct -> unopenable (gcm env) key ct ->
  snd (decryptEach env w paths key) <> None
  /\ files (fst (decryptEach env w paths key)) !! p = files w !! p
  /\ files (fst (decryptEach env w paths key)) !! (p +:+ ".enc") = Some ct.
Proof.
  intros Hp. revert w.
  induction paths as [|q paths IH]; intros w Hsub Hin Hct Hun.
  { by apply elem_of_nil in Hin. }
  assert (q ∈ configFiles) as Hq by (apply Hsub; left).
  cbn [decryptEach]. cbv zeta.
  destruct (decide (q = p)) as [->|Hne].
  - rewrite exists_lookup, Hct. cbn [negb].
    destruct (decryptFile_unopenable env w p key ct Hct Hun) as [e ->].
    cbn [fst snd]. done.
  - apply elem_of_cons in Hin as [->|Hin]; [done|].
    assert (forall q', q' ∈ paths -> q' ∈ configFiles) as Hsub'
      by (intros q' Hq'; apply Hsub; by right).
    destruct (negb (exists_ w (q +:+ ".enc"))); [by apply IH|].
    pose proof (decryptFile_others env w (q +:+ ".enc") q p key
                  ltac:(congruence)) as Hfp.
    destruct (names_apart p q Hp Hq) as (Hapart & _ & _ & _ & _ & Hinj).
    destruct (names_apart q p Hq Hp) as (Hapart' & _).
    pose proof (decryptFile_others env w (q +:+ ".enc") q (p +:+ ".enc") key
                  ltac:(congruence)) as Hfe.
    destruct (decryptFile env w (q +:+ ".enc") q key) as [w1 [e|]];
      cbn [fst snd] in *.
    + split; [done|]. split; [exact Hfp | by rewrite Hfe].
    + destruct (IH (Remove w1 (q +:+ ".enc")) Hsub' Hin) as (H1 & H2 & H3).
      * cbn [Remove files setFiles]. rewrite lookup_delete_ne; [by rewrite Hfe|].
        intros Heq. by apply Hne, Hinj.
      * exact Hun.
      * split; [exact H1|]. rewrite H2, H3. cbn [Remove files setFiles].
        rewrite lookup_delete_ne by done. by rewrite Hfp.
Qed.

(** X9.  A start-up over a readable [auth.json] with auth enabled
    returns without error, locked, whatever it finds.  When every [.enc]
    file it finds is complete (each configuration file untouched in
    plaintext, or sealed under the password's key, or sealed with some
    plaintext, whole or partial, still beside it, as an interrupted
    decryption leaves it), an [Unlock] with the password then succeeds and
    leaves every configuration file in plaintext with its original
    content.  But when it finds a plaintext beside an [.enc] file that
    cannot be opened under the password's key, as an encryption whose
    write was cut short leaves it, the start-up deletes the plaintext and
    keeps the [.enc] file, and the [Unlock] with the password fails: the
    vault stays locked and the content of the file is lost.  All this
    when nothing fails around the vault. *)
Theorem interrupted_encryption_outcomes (env : Env) (w0 : World)
    (a : AuthData) (salt : bytes) (password : string) :
  healthy env ->
  authFile w0 = Some a -> Enabled a = true -> clean a ->
  PasswordHash a = encodePasswordHash (kdf env) password salt ->
  let w1 := fst (ServiceStartup env true (NewAuthService w0)) in
  snd (ServiceStartup env true (NewAuthService w0)) = None
  /\ unlocked w1 = false
  /\ (forall fs0 : gmap string bytes,
        opensSealed (gcm env) ->
        interrupted (gcm env) (kdf env password salt) fs0 (files w0) ->
        snd (Unlock env w1 password) = Done
        /\ unlocked (fst (Unlock env w1 password)) = true
        /\ forall p, p ∈ configFiles ->
             plainAt fs0 (files (fst (Unlock env w1 password))) p)
  /\ (forall (p : string) (pt ct : bytes),
        p ∈ configFiles ->
        files w0 !! p = Some pt -> files w0 !! (p +:+ ".enc") = Some ct ->
        unopenable (gcm env) (kdf env password salt) ct ->
        files w1 !! p = None /\ files w1 !! (p +:+ ".enc") = Some ct
        /\ (exists e, snd (Unlock env w1 password) = Failed e)
        /\ unlocked (fst (Unlock env w1 password)) = false
        /\ files (fst (Unlock env w1 password)) !! p = None).
Proof.
  intros Hh Hf He Hc Hp w1.
  pose proof Hh as (Hr & Hw & Hd & Hci & Hq).
  pose proof (ServiceStartup_protected env w0 a (Hr _) Hf He) as Hstart.
  cbv zeta in Hstart.
  set (wx := setVault (NewAuthService w0) false None (Some a)) in Hstart.
  assert (unlocked w1 = false /\ authData w1 = Some a
          /\ files w1 = files (recoverFromCrash wx)) as (Hu1 & Ha1 & Hf1).
  { unfold w1. rewrite Hstart. cbn [fst].
    destruct (emitAuthEvent_frame env
                (setVault (recoverFromCrash wx) false None (Some a))
                AuthLocked) as (-> & _ & -> & -> & _).
    done. }
  split; [by rewrite Hstart|]. split; [exact Hu1|]. split.
  - intros fs0 Hg Hi.
    destruct (startup_kept env w0 a _ fs0 (Hr _) Hf He Hi)
      as (_ & _ & _ & _ & _ & Hk).
    fold w1 in Hk.
    destruct (unlock_recovers env w1 a salt password fs0)
      as (H1 & H2 & _ & H3); done.
  - intros p pt ct Hpc Hpt Hct Hun.
    destruct (recoverFromCrash_lookup wx p Hpc) as [Hl1 Hl2].
    assert (both wx p = true) as Hboth.
    { unfold both. rewrite !exists_lookup. cbn [wx setVault NewAuthService files].
      by rewrite Hpt, Hct. }
    assert (IsAuthEnabled wx = true) as Hen
      by (unfold IsAuthEnabled; cbn; exact He).
    rewrite Hboth, Hen in Hl1, Hl2. cbn [andb negb] in Hl1, Hl2.
    cbn [wx setVault NewAuthService files] in Hl2.
    rewrite <- Hf1 in Hl1, Hl2. rewrite Hct in Hl2.
    split; [exact Hl1|]. split; [exact Hl2|].
    destruct Hc as [Hfa Hlu].
    unfold Unlock. rewrite Ha1, He, Hu1, Hlu, Hfa.
    cbn [negb lockedFor andb].
    change (0 >=? maxAttemptsBeforeDelay) with false.
    cbn [andb authData setVault]. unfold checkPassword.
    cbn [withAttempts PasswordHash FailedAttempts LockoutUntil].
    rewrite Hp. unfold encodePasswordHash.
    cbn [verifyPasswordHash extractSalt].
    rewrite bool_decide_eq_true_2 by done.
    cbn [negb]. unfold deriveKey, decryptConfigFiles.
    match goal with |- context [decryptEach env ?wy configFiles ?k] =>
      destruct (decryptEach_stuck env k ct p configFiles wy Hpc
                  (fun q H => H) Hpc Hl2 Hun) as (Hs1 & Hs2 & _);
      pose proof (decryptEach_frame env configFiles k wy) as Hfr;
      destruct (decryptEach env wy configFiles k) as [w2 [e|]]
    end; [|done].
    cbn [fst snd] in *. destruct Hfr as (Hfu & _).
    split; [eauto|]. split; [exact Hfu|]. by rewrite Hs2.
Qed.

Lemma interrupted_encryption_outcomes_witness :
  (let w1 := fst (ServiceStartup envGood true (NewAuthService crashedVault)) in
   snd (Unlock envGood w1 "abcd") = Done
   /\ forall p, p ∈ configFiles ->
        plainAt (files unlockedVault)
          (files (fst (Unlock envGood w1 "abcd"))) p)
  /\ (let w1 := fst (ServiceStartup envGood true (NewAuthService tornVault)) in
      files tornVault !! "rclone.conf" = Some conf
      /\ files w1 !! "rclone.conf" = None
      /\ (exists e, snd (Unlock envGood w1 "abcd") = Failed e)
      /\ files (fst (Unlock envGood w1 "abcd")) !! "rclone.conf" = None).
Proof.
  split.
  - destruct (interrupted_encryption_outcomes envGood crashedVault
                (authFor "abcd" 0 NoStamp) salt0 "abcd")
      as (_ & _ & H & _);
      [apply envGood_healthy | reflexivity | reflexivity
      | split; reflexivity | reflexivity |].
    destruct (H (files unlockedVault) toyGcm_opens) as (H1 & _ & H3).
    + intros p Hp. unfold configFiles in Hp.
      repeat (apply elem_of_cons in Hp as [->|Hp]);
        [| |by apply elem_of_nil in Hp].
      * right; right. split; [by eexists|]. split; [reflexivity|].
        exists nonce0, conf. repeat split.
      * left. split; reflexivity.
    + split; [exact H1 | exact H3].
  - destruct (interrupted_encryption_outcomes envGood tornVault
                (authFor "abcd" 0 NoStamp) salt0 "abcd")
      as (_ & _ & _ & H);
      [apply envGood_healthy | reflexivity | reflexivity
      | split; reflexivity | reflexivity |].
    destruct (H "rclone.conf" conf (replicate 5 x00)
                ltac:(apply list_elem_of_here) eq_refl eq_refl
                ltac:(left; vm_compute; lia))
      as (H1 & _ & H3 & _ & H5).
    split; [reflexivity|]. split; [exact H1|]. split; [exact H3 | exact H5].
Defined.

Lemma lockInternal_with_key (env : Env) (w : World) (key : bytes) :
  unlocked w = true -> encKey w = Some key ->
  let w' := lockInternal env w in
  unlocked w' = false /\ encKey w' = None /\ authData w' = authData w
  /\ authFile w' = authFile w
  /\ files w' = files (fst (encryptConfigFiles env (closeDatabase w) key)).
Proof.
  intros Hu Hk. unfold lockInternal. rewrite Hu, Hk. cbn [negb].
  cbn [setVault unlocked encKey authData files authFile].
  pose proof (encryptEach_frame env configFiles key (closeDatabase w)) as H.
  cbn zeta in H. fold (encryptConfigFiles env (closeDatabase w) key) in H.
  destruct H as (_ & _ & Ha & Hf & _). rewrite Ha, Hf. by repeat split.
Qed.

(** X10.  The life cycle of a protected vault: a [ServiceShutdown]
    of the unlocked vault during which every write succeeds, though a
    file may be unreadable or the entropy source may fail, locks it,
    drops the key and leaves every configuration file either sealed
    under the key or still in plaintext; the next process starts locked;
    and an [Unlock] with the password then succeeds and restores every
    configuration file with the content it had at shutdown, provided
    nothing fails around the vault by then. *)
Theorem shutdown_restart_unlock (env env' : Env) (w : World) (a : AuthData)
    (salt : bytes) (password : string) :
  opensSealed (gcm env) -> (forall p, writeFails env p = false) ->
  healthy env' -> kdf env' = kdf env -> gcm env' = gcm env ->
  authData w = Some a -> authFile w = Some a -> Enabled a = true -> clean a ->
  PasswordHash a = encodePasswordHash (kdf env) password salt ->
  unlocked w = true -> encKey w = Some (kdf env password salt) ->
  (forall p, p ∈ configFiles -> files w !! (p +:+ ".enc") = None) ->
  let w1 := ServiceShutdown env w in
  let w2 := fst (ServiceStartup env' true (NewAuthService w1)) in
  unlocked w1 = false /\ encKey w1 = None
  /\ kept (gcm env) (kdf env password salt) (files w) (files w1)
  /\ unlocked w2 = false
  /\ snd (Unlock env' w2 password) = Done
  /\ unlocked (fst (Unlock env' w2 password)) = true
  /\ forall p, p ∈ configFiles ->
       plainAt (files w) (files (fst (Unlock env' w2 password))) p.
Proof.
  intros Hg _ Hh Hk Hc Ha Hf He Hcl Hp Hu Hkey Hplain w1 w2.
  assert (w1 = lockInternal env w) as Hw1.
  { unfold w1, ServiceShutdown, IsAuthEnabled. by rewrite Ha, He, Hu. }
  destruct (lockInternal_with_key env w _ Hu Hkey) as (Hu1 & Hk1 & _ & Hf1 & Hfs).
  rewrite <- Hw1 in Hu1, Hk1, Hf1, Hfs.
  assert (kept (gcm env) (kdf env password salt) (files w) (files w1)) as Hkept.
  { rewrite Hfs. apply encryptEach_kept; [done|]. by apply kept_initial. }
  assert (interrupted (gcm env') (kdf env' password salt) (files w)
            (files (NewAuthService w1))) as Hi.
  { rewrite Hc, Hk. intros p Hpc. destruct (Hkept p Hpc); [by left | by right; left]. }
  pose proof Hh as (Hr & _).
  destruct (startup_kept env' (NewAuthService w1) a
              (kdf env' password salt) (files w) (Hr _))
    as (_ & Hu2 & _ & Ha2 & _ & Hk2);
    [cbn; by rewrite Hf1 | done | exact Hi |].
  assert (NewAuthService (NewAuthService w1) = NewAuthService w1) as Hn
    by reflexivity.
  rewrite Hn in Hu2, Ha2, Hk2. fold w2 in Hu2, Ha2, Hk2.
  destruct (unlock_recovers env' w2 a salt password (files w))
    as (H1 & H2 & _ & H3); try done.
  - by rewrite Hc.
  - by rewrite Hk.
Qed.

(** The database cannot be read at shutdown: it stays in plaintext
    beside the sealed [rclone.conf], and the [Unlock] of the next process
    restores both. *)
Lemma shutdown_restart_unlock_witness :
  let env := envWith (fun p => String.eqb p "ng-drive.db") (fun _ => false) in
  let w1 := ServiceShutdown env unlockedVault in
  let w2 := fst (ServiceStartup envGood true (NewAuthService w1)) in
  unlocked w1 = false /\ encKey w1 = None
  /\ files w1 !! "rclone.conf" = None
  /\ files w1 !! "ng-drive.db" = Some db
  /\ unlocked w2 = false
  /\ snd (Unlock envGood w2 "abcd") = Done
  /\ forall p, p ∈ configFiles ->
       plainAt (files unlockedVault) (files (fst (Unlock envGood w2 "abcd"))) p.
Proof.
  destruct (shutdown_restart_unlock
              (envWith (fun p => String.eqb p "ng-drive.db") (fun _ => false))
              envGood unlockedVault (authFor "abcd" 0 NoStamp) salt0 "abcd")
    as (Hu & Hk & _ & Hu2 & Hd & _ & Hp);
    [apply toyGcm_opens | reflexivity | apply envGood_healthy | reflexivity
    | reflexivity | reflexivity | reflexivity | reflexivity
    | split; reflexivity | reflexivity | reflexivity | reflexivity
    | apply unlockedVault_plain |].
  split; [exact Hu|]. split; [exact Hk|].
  split; [vm_compute; reflexivity|]. split; [vm_compute; reflexivity|].
  split; [exact Hu2|]. split; [exact Hd | exact Hp].
Defined.

End Restart.

Section ExportKeys.
Import Auth Vault Lifecycle.

(** X11.  The export key: [DeriveExportKey] returns a 16-byte salt
    (all zero when the entropy source fails, since the error is ignored)
    and the key derived from the password and that salt, so that
    [DeriveExportKeyWithSalt] with the returned salt yields the same key;
    and with a key derivation that yields 32 bytes and a working entropy
    source, what [EncryptData] seals under the derived key,
    [DecryptData] opens under the key re-derived from the salt, for a
    cipher that opens what it sealed. *)
Theorem export_key_round_trip (kdf : KDF) (g : AEAD) (r : Rand)
    (password : string) (data : bytes) :
  opensSealed g -> (forall p s, length (kdf p s) = 32%nat) ->
  let '(key, salt, r1) := DeriveExportKey kdf r password in
  length salt = 16%nat
  /\ (broken r = true -> salt = replicate 16 Byte.x00)
  /\ DeriveExportKeyWithSalt kdf password salt = key
  /\ (broken r = false ->
      exists out r2,
        EncryptData g r1 data key = (Ok out, r2)
        /\ DecryptData g out (DeriveExportKeyWithSalt kdf password salt)
           = Ok data).
Proof.
  intros Hg Hk. unfold DeriveExportKey, Read.
  destruct (broken r) eqn:Hb.
  - repeat split; discriminate.
  - split; [by rewrite length_map, length_seq|]. split; [discriminate|].
    split; [reflexivity|]. intros _.
    set (salt := map (entropy r) (seq (pos r) 16)).
    set (r1 := MkRand (entropy r) (pos r + 16) false).
    destruct (EncryptData g r1 data (deriveKey kdf password salt))
      as [[out|e] r2] eqn:He.
    + exists out, r2. split; [reflexivity|].
      by apply (DecryptData_EncryptData g r1 r2).
    + exfalso. unfold EncryptData in He.
      rewrite NewCipher_valid in He by (right; right; apply Hk).
      unfold Read in He. cbn in He. discriminate He.
Qed.

Lemma export_key_round_trip_witness :
  let '(key, salt, r1) := DeriveExportKey toyKdf zeros "secret" in
  length salt = 16%nat
  /\ (broken zeros = true -> salt = replicate 16 Byte.x00)
  /\ DeriveExportKeyWithSalt toyKdf "secret" salt = key
  /\ (broken zeros = false ->
      exists out r2,
        EncryptData toyGcm r1 conf key = (Ok out, r2)
        /\ DecryptData toyGcm out (DeriveExportKeyWithSalt toyKdf "secret" salt)
           = Ok conf).
Proof.
  apply (export_key_round_trip toyKdf toyGcm zeros "secret" conf);
    [apply toyGcm_opens|].
  intros p s. unfold toyKdf. rewrite length_take, !length_app, length_replicate.
  lia.
Defined.

End ExportKeys.

Section Settings.
Import Auth Vault Lifecycle.

(** X12.  [SyncAppSettings] on a vault without password changes
    nothing.  On a protected vault it replaces the settings and nothing
    else of the record (same hash, same failure counter, same lockout),
    leaves the lock state, the key and the files alone, and, when
    [auth.json] can be written, the settings are what
    [GetPreUnlockSettings] reports after the next start-up, before any
    unlock. *)
Theorem synced_settings_survive_restart (env env' : Env) (w : World)
    (settings : AppSettings) :
  (IsAuthEnabled w = false -> SyncAppSettings env w settings = w)
  /\ (IsAuthEnabled w = true ->
      let w1 := SyncAppSettings env w settings in
      GetPreUnlockSettings w1 = settings
      /\ unlocked w1 = unlocked w /\ encKey w1 = encKey w
      /\ files w1 = files w
      /\ (exists a, authData w = Some a
                    /\ authData w1 = Some (withSettings a settings))
      /\ (writeFails env "auth.json" = false ->
          readFails env' "auth.json" = false ->
          let w2 := fst (ServiceStartup env' true (NewAuthService w1)) in
          unlocked w2 = false /\ GetPreUnlockSettings w2 = settings)).
Proof.
  unfold IsAuthEnabled, SyncAppSettings.
  destruct (authData w) as [a|] eqn:Ha; [|split; [done|discriminate]].
  destruct (Enabled a) eqn:He; (split; [done|]); [|discriminate].
  intros _. cbn [negb]. cbn zeta.
  set (w0 := setVault w (unlocked w) (encKey w) (Some (withSettings a settings))).
  pose proof (saveAuthData_vault env w0) as H. cbn zeta in H.
  destruct H as (Hu & Hk & Had & Hf & _).
  unfold GetPreUnlockSettings. rewrite Hu, Hk, Had, Hf.
  repeat (split; [reflexivity|]).
  split; [by exists a|].
  intros Hw Hr.
  assert (authFile (fst (saveAuthData env w0)) = Some (withSettings a settings))
    as Hfile by (unfold saveAuthData; by rewrite Hw).
  rewrite (ServiceStartup_protected env' _ (withSettings a settings) Hr Hfile He).
  cbn [fst].
  match goal with
  | |- context [emitAuthEvent env' ?wx AuthLocked] =>
      pose proof (emitAuthEvent_frame env' wx AuthLocked) as H; cbn zeta in H;
      destruct H as (-> & _ & -> & _)
  end.
  split; reflexivity.
Qed.

Lemma synced_settings_survive_restart_witness :
  let w1 := SyncAppSettings envGood unlockedVault (MkAppSettings true false true) in
  let w2 := fst (ServiceStartup envGood true (NewAuthService w1)) in
  unlocked w2 = false
  /\ GetPreUnlockSettings w2 = MkAppSettings true false true.
Proof.
  destruct (synced_settings_survive_restart envGood envGood unlockedVault
              (MkAppSettings true false true)) as [_ H].
  destruct (H eq_refl) as (_ & _ & _ & _ & _ & H2).
  apply H2; reflexivity.
Defined.

End Settings.

Section Registry.
Import Delta Dto Rclone Scenario Registry.

Lemma wellRegistered_insert (d : DeltaService) (s : DeltaStore) (key : string)
    (w : Watcher) :
  wellRegistered d -> started key w ->
  wellRegistered (MkDeltaService s (<[key := w]> (watchers d))).
Proof.
  intros Hd Hw k w'. cbn [watchers]. rewrite lookup_insert.
  case_decide; [subst k; intros [= <-]; exact Hw | apply Hd].
Qed.

Lemma Start_started (f : Fs) (key : string) :
  ChangeNotify f = true ->
  started key (Start (NewWatcher key f) DefaultPollInterval).
Proof. intros Hf. unfold Start, NewWatcher, started. cbn. by rewrite Hf. Qed.

Lemma EnsureWatcher_registered (d : DeltaService) (f : Fs) (key : string) :
  wellRegistered d -> wellRegistered (EnsureWatcher d f key).
Proof.
  intros Hd. unfold EnsureWatcher, getProviderType.
  destruct (ChangeNotify f) eqn:Hcn; [|exact Hd].
  destruct (String.eqb (Name f) "none"); [exact Hd|].
  pose proof (Start_started f key Hcn) as Hs.
  destruct (watchers d !! key) as [w|]; [destruct (IsRunning w); [exact Hd|]|];
    by apply wellRegistered_insert.
Qed.

(** Nothing is done for a key that has a watcher. *)
Lemma EnsureWatcher_kept (d : DeltaService) (f : Fs) (key : string)
    (w : Watcher) :
  watchers d !! key = Some w -> running w = true -> EnsureWatcher d f key = d.
Proof.
  intros Hw Hr. unfold EnsureWatcher. rewrite Hw. unfold IsRunning.
  rewrite Hr. by destruct (String.eqb _ _).
Qed.

Lemma CommitFullSync_watchers (d : DeltaService) (now : Time) (f : Fs)
    (key : string) :
  watchers (fst (CommitFullSync d now f key))
  = watchers (if negb (String.eqb (getProviderType f) "none")
              then EnsureWatcher d f key else d).
Proof.
  unfold CommitFullSync.
  destruct (negb (String.eqb (getProviderType f) "none"));
    by destruct (RecordFullSync _ _ _ _ _).
Qed.

Lemma CommitFullSync_registered (d : DeltaService) (now : Time) (f : Fs)
    (key : string) :
  wellRegistered d -> wellRegistered (fst (CommitFullSync d now f key)).
Proof.
  intros Hd k w. rewrite CommitFullSync_watchers.
  destruct (negb _); [by apply EnsureWatcher_registered | apply Hd].
Qed.

Lemma CommitDelta_watchers (d : DeltaService) (key : string) :
  watchers (fst (CommitDelta d key)) = watchers d.
Proof. unfold CommitDelta. by destruct (IncrementDeltaCount _ _). Qed.

Lemma CommitDelta_registered (d : DeltaService) (key : string) :
  wellRegistered d -> wellRegistered (fst (CommitDelta d key)).
Proof. intros Hd k w. rewrite CommitDelta_watchers. apply Hd. Qed.

Lemma GetChanges_registered (d : DeltaService) (key : string) :
  wellRegistered d -> wellRegistered (snd (GetChanges d key)).
Proof.
  intros Hd. unfold GetChanges.
  destruct (watchers d !! key) as [w|] eqn:Hw; [|exact Hd].
  pose proof (Hd key w Hw) as Hr.
  destruct (negb (IsRunning w)); [exact Hd|].
  unfold Watcher_DrainChanges.
  destruct (len (changes w) =? 0); [rewrite Z.eqb_refl|];
    [|destruct (len (changes w) =? 0)]; cbn [snd];
    by apply wellRegistered_insert.
Qed.

Lemma RestoreChanges_registered (d : DeltaService) (key : string)
    (cs : list FileChange) :
  wellRegistered d -> wellRegistered (RestoreChanges d key cs).
Proof.
  intros Hd. unfold RestoreChanges.
  destruct (watchers d !! key) as [w|] eqn:Hw; [|exact Hd].
  pose proof (Hd key w Hw) as Hr.
  destruct (negb (IsRunning w)); [exact Hd|].
  apply wellRegistered_insert; [exact Hd|].
  unfold Watcher_RestoreChanges. by destruct (len cs =? 0).
Qed.

Lemma notify_registered (d : DeltaService) (now : Time) (key path : string)
    (entryType : EntryType) :
  wellRegistered d -> wellRegistered (notify d now key path entryType).
Proof.
  intros Hd. unfold notify.
  destruct (watchers d !! key) as [w|] eqn:Hw; [|exact Hd].
  destruct (IsRunning w) eqn:Hr; [|exact Hd].
  apply wellRegistered_insert; [exact Hd | exact (Hd key w Hw)].
Qed.

Lemma deliver_registered (ars : list Arrival) (d : DeltaService) :
  wellRegistered d -> wellRegistered (deliver d ars).
Proof.
  revert d. induction ars as [|a ars IH]; intros d Hd; [exact Hd|].
  apply IH. by apply notify_registered.
Qed.

Lemma Sync_registered (env : Env) (now : Time) (ctx : Context)
    (task : string) (profile : Profile)
    (outStatus : option (Chan SyncStatusDTO)) (d d' : DeltaService) :
  wellRegistered d ->
  svc (Sync env now ctx task profile outStatus (Some d)) = Some d' ->
  wellRegistered d'.
Proof.
  intros Hd. unfold Sync.
  destruct (prepare env ctx task profile) as [p|e]; [|by intros [= <-]].
  destruct (ShouldSkipSync d now _ && ShouldSkipSync d now _).
  { cbn [svc]. intros [= <-]. by do 2 apply CommitDelta_registered. }
  pose proof (GetChanges_registered d (remoteKey (From (pProfile p))) Hd) as Hg.
  destruct (GetChanges d (remoteKey (From (pProfile p)))) as [srcChanges d1].
  cbn [snd] in Hg.
  destruct (match srcChanges with Some _ => _ | None => _ end)
    as [[ctx1 usedDelta] drainedChanges].
  pose proof (deliver_registered
                (arrived (Run env ctx1 (dstFs p) (srcFs p))) d1 Hg) as H2.
  destruct (runErr _); [destruct (usedDelta && _)|destruct usedDelta];
    cbn [svc]; intros [= <-].
  - by apply RestoreChanges_registered.
  - exact H2.
  - by do 2 apply CommitDelta_registered.
  - by do 2 apply CommitFullSync_registered.
Qed.

Lemma serve_registered (d : DeltaService) (op : ServiceOp) :
  wellRegistered d -> wellRegistered (serve d op).
Proof.
  intros Hd. destruct op; cbn [serve].
  - by apply EnsureWatcher_registered.
  - by apply notify_registered.
  - by apply GetChanges_registered.
  - by apply RestoreChanges_registered.
  - by apply CommitDelta_registered.
  - by apply CommitFullSync_registered.
  - intros k w. unfold StopAll. cbn [watchers]. by rewrite lookup_empty.
  - destruct (svc (Sync env now ctx task profile outStatus (Some d)))
      as [d'|] eqn:Hs; [|exact Hd].
    by apply (Sync_registered env now ctx task profile outStatus d d').
Qed.

(** X13.  Whatever is asked of a delta service after
    [NewDeltaService] (watchers ensured, notifications, drains, restores,
    commits, whole syncs, [StopAll]), every watcher in its registry runs,
    sits under its own key and belongs to a backend with change
    notification; so [EnsureWatcher] for a key that has a watcher does
    nothing, and neither it nor [CommitFullSync] ever replaces a
    registered watcher or drops the changes it has buffered. *)
Theorem registry_holds_started_watchers (store : DeltaStore)
    (ops : list ServiceOp) :
  let d := reached store ops in
  (forall key w,
     watchers d !! key = Some w ->
     running w = true /\ Delta.remoteKey w = key
     /\ ChangeNotify (remoteFs w) = true)
  /\ (forall key w f,
        watchers d !! key = Some w -> EnsureWatcher d f key = d)
  /\ (forall key w now f,
        watchers d !! key = Some w ->
        watchers (fst (CommitFullSync d now f key)) !! key = Some w).
Proof.
  intros d.
  assert (wellRegistered d) as Hd.
  { subst d. unfold reached.
    assert (wellRegistered (NewDeltaService store)) as H0
      by (intros k w; cbn; by rewrite lookup_empty).
    revert H0. generalize (NewDeltaService store).
    induction ops as [|op ops IH]; intros d0 H0; [exact H0|].
    cbn [fold_left]. apply IH. by apply serve_registered. }
  split; [|split].
  - intros key w Hw. destruct (Hd key w Hw) as (? & ? & ? & _). done.
  - intros key w f Hw. apply (EnsureWatcher_kept d f key w Hw).
    by destruct (Hd key w Hw).
  - intros key w now f Hw. rewrite CommitFullSync_watchers.
    destruct (negb _); [|exact Hw].
    rewrite (EnsureWatcher_kept d f key w Hw); [exact Hw|].
    by destruct (Hd key w Hw).
Qed.

End Registry.

Section DrainAndRestore.
Import Delta Dto Rclone Scenario Registry.

Lemma DeltaService_eta (d : DeltaService) :
  MkDeltaService (store d) (watchers d) = d.
Proof. by destruct d. Qed.

(** X14.  [GetChanges] answers nil and changes nothing when the
    key has no running watcher.  Otherwise it hands out exactly the
    buffered changes (flagged as changes exactly when there are some) and
    leaves the buffer empty, so that a second [GetChanges] reports no
    changes; and [RestoreChanges] with what was handed out puts the
    service back exactly as it was before the [GetChanges]. *)
Theorem get_changes_then_restore (d : DeltaService) (key : string) :
  match watchers d !! key with
  | None => GetChanges d key = (None, d)
  | Some w =>
      if running w then
        exists d',
          GetChanges d key
          = (Some (MkChangeSet key (changes w)
                     (negb (bool_decide (changes w = [])))), d')
          /\ watchers d' !! key = Some (drained w)
          /\ fst (GetChanges d' key) = Some (MkChangeSet key [] false)
          /\ RestoreChanges d' key (changes w) = d
      else GetChanges d key = (None, d)
  end.
Proof.
  destruct (watchers d !! key) as [w|] eqn:Hw;
    [|unfold GetChanges; by rewrite Hw].
  destruct (running w) eqn:Hr;
    [|unfold GetChanges, IsRunning; by rewrite Hw, Hr].
  unfold GetChanges at 1. rewrite Hw. unfold IsRunning. rewrite Hr.
  cbn [negb]. unfold Watcher_DrainChanges.
  destruct (changes w) as [|c cs] eqn:Hc.
  - cbn [len length Z.of_nat Z.eqb]. eexists. split; [reflexivity|].
    assert (drained w = w) as Hdw
      by (unfold drained; destruct w; cbn in *; by subst).
    rewrite insert_id by done. rewrite DeltaService_eta.
    split; [by rewrite Hdw|].
    unfold GetChanges, RestoreChanges, IsRunning, Watcher_DrainChanges,
      Watcher_RestoreChanges.
    rewrite Hw, Hr, Hc. cbn [negb len length Z.of_nat Z.eqb fst].
    rewrite insert_id by done. by rewrite DeltaService_eta.
  - assert ((len (c :: cs) =? 0) = false) as -> by (apply Z.eqb_neq; unfold len; cbn [length]; lia).
    eexists. split; [reflexivity|].
    cbn [watchers]. rewrite lookup_insert_eq. split; [reflexivity|].
    unfold GetChanges, RestoreChanges, IsRunning, Watcher_DrainChanges,
      Watcher_RestoreChanges.
    cbn [watchers store]. rewrite lookup_insert_eq.
    cbn [running changes len length Z.of_nat Z.eqb negb]. rewrite Hr.
    cbn [negb fst]. split; [reflexivity|].
    assert ((len (c :: cs) =? 0) = false) as -> by (apply Z.eqb_neq; unfold len; cbn [length]; lia).
    rewrite insert_insert_eq, app_nil_r. cbn [Delta.remoteKey remoteFs pollCh].
    assert (MkWatcher (Delta.remoteKey w) (remoteFs w) (pollCh w) (c :: cs) true
            = w) as -> by (destruct w; cbn in *; by subst).
    rewrite insert_id by done. apply DeltaService_eta.
Qed.

(** X15.  After [StopAll] the registry is empty: for every key
    [ShouldSkipSync] answers false, [GetChanges] answers nil and
    [RestoreChanges] has nothing to restore into; and the next [Sync]
    whose preparation succeeds asks the source key once, finds no changes
    to scope by, runs one transfer under the unscoped context and, when
    the transfer succeeds, commits a full sync on both sides. *)
Theorem stop_all_forces_full_sync (d : DeltaService) :
  let d0 := StopAll d in
  (forall now key, ShouldSkipSync d0 now key = false)
  /\ (forall key, GetChanges d0 key = (None, d0))
  /\ (forall key cs, RestoreChanges d0 key cs = d0)
  /\ (forall (env : Env) (now : Time) (ctx : Context) (task : string)
             (profile : Profile) (outStatus : option (Chan SyncStatusDTO))
             (p : Prepared),
        prepare env ctx task profile = Ok p ->
        let srcKey := remoteKey (From (pProfile p)) in
        let dstKey := remoteKey (To (pProfile p)) in
        let r := Run env (pCtx p) (dstFs p) (srcFs p) in
        trace (Sync env now ctx task profile outStatus (Some d0))
        = [CallShouldSkipSync srcKey; CallGetChanges srcKey; Transfer (pCtx p)]
            ++ match runErr r with
               | None => [CallCommitFullSync srcKey; CallCommitFullSync dstKey]
               | Some _ => []
               end).
Proof.
  intros d0.
  assert (forall key, watchers d0 !! key = None) as H0
    by (intros key; subst d0; unfold StopAll; cbn; apply lookup_empty).
  assert (forall now key, ShouldSkipSync d0 now key = false) as Hs
    by (intros now key; unfold ShouldSkipSync; by rewrite H0).
  assert (forall key, GetChanges d0 key = (None, d0)) as Hg
    by (intros key; unfold GetChanges; by rewrite H0).
  split; [exact Hs|]. split; [exact Hg|].
  split; [intros key cs; unfold RestoreChanges; by rewrite H0|].
  intros env now ctx task profile outStatus p Hp srcKey dstKey r.
  unfold Sync. rewrite Hp, !Hs, Hg. cbn [andb].
  fold srcKey dstKey r.
  destruct (runErr r); cbn [andb trace]; reflexivity.
Qed.

Lemma stop_all_forces_full_sync_witness :
  trace (Sync envOk 3700 [] "push" pushA (Some outbox)
           (Some (StopAll (serviceWith [notes]))))
  = [CallShouldSkipSync "local:/a"; CallGetChanges "local:/a";
     Transfer [MkFilter noRules];
     CallCommitFullSync "local:/a"; CallCommitFullSync "gdrive:/a"].
Proof.
  destruct (stop_all_forces_full_sync (serviceWith [notes]))
    as (_ & _ & _ & H).
  exact (H envOk 3700 [] "push" pushA (Some outbox) preparedA eq_refl).
Defined.

End DrainAndRestore.

Section SyncOutcomes.
Import Delta Dto Rclone Scenario Registry.

Lemma GetChanges_store (d : DeltaService) (key : string) :
  store (snd (GetChanges d key)) = store d.
Proof.
  unfold GetChanges. destruct (watchers d !! key) as [w|]; [|done].
  destruct (negb (IsRunning w)); [done|].
  destruct (Watcher_DrainChanges w) as [cs w'].
  by destruct (len cs =? 0).
Qed.

Lemma RestoreChanges_store (d : DeltaService) (key : string)
    (cs : list FileChange) :
  store (RestoreChanges d key cs) = store d.
Proof.
  unfold RestoreChanges. destruct (watchers d !! key) as [w|]; [|done].
  by destruct (negb (IsRunning w)).
Qed.

Lemma deliver_store (ars : list Arrival) (d : DeltaService) :
  store (deliver d ars) = store d.
Proof.
  revert d. induction ars as [|a ars IH]; intros d; [done|].
  cbn [deliver fold_left]. fold (deliver (notify d (arAt a) (arKey a) (arPath a)
                                            (arEntryType a)) ars).
  rewrite IH. unfold notify. destruct (watchers d !! arKey a) as [w|]; [|done].
  by destruct (IsRunning w).
Qed.

(** X16.  A [Sync] that returns an error has committed nothing:
    no [CommitDelta] and no [CommitFullSync] was called, and the
    persisted delta state (counters, baselines, watching flags) is the
    one it started with. *)
Theorem failed_sync_commits_nothing (env : Env) (now : Time) (ctx : Context)
    (task : string) (profile : Profile)
    (outStatus : option (Chan SyncStatusDTO)) (d : DeltaService) (e : error) :
  let r := Sync env now ctx task profile outStatus (Some d) in
  syncErr r = Some e ->
  (forall ev, ev ∈ trace r -> isCommit ev = false)
  /\ exists d', svc r = Some d' /\ store d' = store d.
Proof.
  intros r. subst r. unfold Sync.
  destruct (prepare env ctx task profile) as [p|e0].
  2:{ cbn. intros _. split; [by intros ev H; apply elem_of_nil in H|]. by exists d. }
  destruct (ShouldSkipSync d now _ && ShouldSkipSync d now _); [discriminate|].
  pose proof (GetChanges_store d (remoteKey (From (pProfile p)))) as Hg.
  destruct (GetChanges d (remoteKey (From (pProfile p)))) as [srcChanges d1].
  cbn [snd] in Hg.
  destruct (match srcChanges with Some _ => _ | None => _ end)
    as [[ctx1 usedDelta] drainedChanges].
  pose proof (deliver_store (arrived (Run env ctx1 (dstFs p) (srcFs p))) d1)
    as Hd.
  destruct (runErr _) as [e1|]; [|destruct usedDelta; discriminate].
  destruct (usedDelta && _); cbn [syncErr trace svc]; intros _.
  - split.
    + intros ev Hev. destruct (ShouldSkipSync d now _);
        repeat (apply elem_of_cons in Hev as [->|Hev] || apply elem_of_app in Hev as [Hev|Hev]);
        try done; try (by apply elem_of_nil in Hev).
    + eexists. split; [reflexivity|]. by rewrite RestoreChanges_store, Hd, Hg.
  - split.
    + intros ev Hev. destruct (ShouldSkipSync d now _);
        repeat (apply elem_of_cons in Hev as [->|Hev] || apply elem_of_app in Hev as [Hev|Hev]);
        try done; try (by apply elem_of_nil in Hev).
    + eexists. split; [reflexivity|]. by rewrite Hd, Hg.
Qed.

Lemma failed_sync_commits_nothing_witness :
  let r := Sync envFailing 3700 [] "push" pushA (Some outbox)
             (Some (serviceWith [notes])) in
  (forall ev, ev ∈ trace r -> isCommit ev = false)
  /\ exists d', svc r = Some d' /\ store d' = store (serviceWith [notes]).
Proof.
  apply (failed_sync_commits_nothing envFailing 3700 [] "push" pushA
           (Some outbox) (serviceWith [notes]) "Sync failed").
  vm_compute. reflexivity.
Defined.

(** X17.  The task string matters only in so far as it is "pull" or
    not: a pull is what any other task does on the profile with its two
    ends exchanged, and any two tasks other than "pull" give the same
    result. *)
Theorem pull_is_push_reversed (env : Env) (now : Time) (ctx : Context)
    (task task' : string) (profile : Profile)
    (outStatus : option (Chan SyncStatusDTO))
    (deltaSvc : option DeltaService) :
  task <> "pull" -> task' <> "pull" ->
  Sync env now ctx "pull" profile outStatus deltaSvc
  = Sync env now ctx task (swapEnds profile) outStatus deltaSvc
  /\ Sync env now ctx task profile outStatus deltaSvc
     = Sync env now ctx task' profile outStatus deltaSvc.
Proof.
  intros Ht Ht'. apply String.eqb_neq in Ht. apply String.eqb_neq in Ht'.
  assert (prepare env ctx "pull" profile = prepare env ctx task (swapEnds profile))
    as H1.
  { unfold prepare. rewrite Ht. reflexivity. }
  assert (prepare env ctx task profile = prepare env ctx task' profile) as H2.
  { unfold prepare. by rewrite Ht, Ht'. }
  unfold Sync. by rewrite H1, H2.
Qed.

Lemma pull_is_push_reversed_witness :
  Sync envOk 3700 [] "pull" pushA (Some outbox) (Some (serviceWith [notes]))
  = Sync envOk 3700 [] "push" (swapEnds pushA) (Some outbox)
      (Some (serviceWith [notes]))
  /\ Sync envOk 3700 [] "push" pushA (Some outbox) (Some (serviceWith [notes]))
     = Sync envOk 3700 [] "bi" pushA (Some outbox) (Some (serviceWith [notes])).
Proof.
  apply (pull_is_push_reversed envOk 3700 [] "push" "bi" pushA (Some outbox)
           (Some (serviceWith [notes]))); discriminate.
Defined.

(** X18.  A [Sync] whose preparation fails returns that error at once:
    the delta service is not consulted, nothing is transferred and nothing
    is offered on the status channel.  Otherwise it either runs exactly
    one transfer or sends exactly one delta-skip sample, never both and
    never neither; without a delta service it is the transfer, it runs
    under the prepared context and it is all that happens. *)
Theorem sync_runs_one_transfer (env : Env) (now : Time) (ctx : Context)
    (task : string) (profile : Profile)
    (outStatus : option (Chan SyncStatusDTO))
    (deltaSvc : option DeltaService) :
  let r := Sync env now ctx task profile outStatus deltaSvc in
  match prepare env ctx task profile with
  | Err e =>
      r = MkSyncResult (Some e) deltaSvc outStatus []
  | Ok p =>
      (count isTransfer (trace r) + count isSkip (trace r) = 1)%nat
      /\ (count isSkip (trace r) = 1%nat -> syncErr r = None)
      /\ (deltaSvc = None ->
          trace r = [Transfer (pCtx p)]
          /\ syncErr r = runErr (Run env (pCtx p) (dstFs p) (srcFs p)))
  end.
Proof.
  intros r. subst r. unfold Sync.
  destruct (prepare env ctx task profile) as [p|e]; [|reflexivity].
  destruct deltaSvc as [d|]; [|by repeat split].
  destruct (ShouldSkipSync d now (remoteKey (From (pProfile p)))) eqn:Hs;
    destruct (ShouldSkipSync d now (remoteKey (To (pProfile p)))) eqn:Hd;
    cbn [andb]; [by repeat split| | |];
    destruct (GetChanges d _) as [srcChanges d1];
    destruct (match srcChanges with Some _ => _ | None => _ end)
      as [[ctx1 usedDelta] drainedChanges];
    (destruct (runErr _); [destruct (usedDelta && _)|destruct usedDelta]);
    cbn; by repeat split.
Qed.

Lemma sync_runs_one_transfer_witness :
  let r := Sync envOk 3700 [] "push" pushA (Some outbox) None in
  (count isTransfer (trace r) + count isSkip (trace r) = 1)%nat
  /\ (count isSkip (trace r) = 1%nat -> syncErr r = None)
  /\ (@None DeltaService = None ->
      trace r = [Transfer (pCtx preparedA)]
      /\ syncErr r
         = runErr (Run envOk (pCtx preparedA) (dstFs preparedA) (srcFs preparedA))).
Proof.
  exact (sync_runs_one_transfer envOk 3700 [] "push" pushA (Some outbox) None).
Defined.

End SyncOutcomes.

Section ScopeRules.
Import Delta Dto Rclone Scenario Registry.

Lemma scopeRules_added (cs : list FileChange) (seen : gset string)
    (inc : list string) :
  exists added,
    scopeRules seen inc cs = inc ++ added
    /\ (length added <= 2 * length cs)%nat
    /\ forall rule, rule ∈ added ->
         exists c, c ∈ cs
           /\ (rule = "/" +:+ Path c
               \/ (rule = "/" +:+ Path c +:+ "/**"
                   /\ fcEntryType c = EntryDirectory)).
Proof.
  revert seen inc. induction cs as [|c cs IH]; intros seen inc.
  - exists []. cbn. rewrite app_nil_r. split; [done|]. split; [lia|].
    intros rule H. by apply elem_of_nil in H.
  - cbn [scopeRules]. destruct (bool_decide (Path c ∈ seen)).
    + destruct (IH seen inc) as (added & -> & Hl & Hr). exists added.
      split; [done|]. split; [cbn [length]; lia|].
      intros rule H. destruct (Hr rule H) as (c' & Hc' & Hrule).
      exists c'. split; [by right | done].
    + destruct (bool_decide (fcEntryType c = EntryDirectory)) eqn:Hdir.
      * destruct (IH ({[Path c]} ∪ seen)
                    ((inc ++ ["/" +:+ Path c +:+ "/**"]) ++ ["/" +:+ Path c]))
          as (added & -> & Hl & Hr).
        exists (["/" +:+ Path c +:+ "/**"; "/" +:+ Path c] ++ added).
        split; [by rewrite <- !app_assoc|].
        split; [rewrite length_app; cbn [length]; lia|].
        intros rule H. apply elem_of_app in H as [H|H].
        -- exists c. split; [by left|].
           apply elem_of_cons in H as [->|H];
             [right; split; [done | by apply bool_decide_eq_true in Hdir]|].
           apply elem_of_cons in H as [->|H]; [by left|].
           by apply elem_of_nil in H.
        -- destruct (Hr rule H) as (c' & Hc' & Hrule).
           exists c'. split; [by right | done].
      * destruct (IH ({[Path c]} ∪ seen) (inc ++ ["/" +:+ Path c]))
          as (added & -> & Hl & Hr).
        exists (["/" +:+ Path c] ++ added).
        split; [by rewrite <- !app_assoc|].
        split; [rewrite length_app; cbn [length]; lia|].
        intros rule H. apply elem_of_app in H as [H|H].
        -- exists c. split; [by left|].
           apply elem_of_cons in H as [->|H]; [by left|].
           by apply elem_of_nil in H.
        -- destruct (Hr rule H) as (c' & Hc' & Hrule).
           exists c'. split; [by right | done].
Qed.

(** X19.  The scope filter keeps every rule of the filter in force
    and adds to it: the include rules in force, followed by at most two
    new rules per change, each of which is [/p] for the path [p] of some
    change or [/p/**] for the path of a change reported as a directory;
    and the exclude rules in force, followed by the single rule [**].
    Nothing outside the changed paths is ever included by the added
    rules. *)
Theorem scope_filter_adds_only_changed_paths (env : Env) (ctx : Context)
    (cs : list FileChange) :
  let base := CopyFilterOpt env ctx in
  let opt := scopeOpt env ctx cs in
  ExcludeRule opt = ExcludeRule base ++ ["**"]
  /\ exists added,
       IncludeRule opt = IncludeRule base ++ added
       /\ (length added <= 2 * length cs)%nat
       /\ forall rule, rule ∈ added ->
            exists c, c ∈ cs
              /\ (rule = "/" +:+ Path c
                  \/ (rule = "/" +:+ Path c +:+ "/**"
                      /\ fcEntryType c = EntryDirectory)).
Proof.
  intros base opt. subst base opt. unfold scopeOpt. cbn [ExcludeRule IncludeRule].
  split; [reflexivity|].
  destruct (scopeRules_added cs ∅ (IncludeRule (CopyFilterOpt env ctx)))
    as (added & Heq & Hl & Hr).
  exists added. rewrite Heq. by repeat split.
Qed.

End ScopeRules.

Section CryptRemotes.
Import Progress Crypt Remotes.

Lemma createTempCryptRemote_outcome (env : Env) (cfg : Config)
    (name wrappedPath password password2 filenameEncrypt : string)
    (dirEncrypt : bool) :
  storesOrFails env ->
  let r := createTempCryptRemote env cfg name wrappedPath password password2
             filenameEncrypt dirEncrypt in
  (exists e, r = (cfg, Some e))
  \/ (exists params,
        r = (<[name := MkSection "crypt" params]> cfg, None)
        /\ params !! "remote" = Some wrappedPath
        /\ params !! "filename_encryption" = Some filenameEncrypt).
Proof.
  intros Hc r. subst r. unfold createTempCryptRemote.
  destruct (Obscure env password) as [op|e]; [|left; eauto].
  set (params := <["remote" := wrappedPath]> _).
  assert (params !! "remote" = Some wrappedPath
          /\ params !! "filename_encryption" = Some filenameEncrypt) as [H1 H2]
    by (subst params; split; by simplify_map_eq).
  destruct (negb (String.eqb password2 "")).
  - destruct (Obscure env password2) as [op2|e]; [|left; eauto].
    destruct (Hc cfg name "crypt" (<["password2" := op2]> params))
      as [->|[e ->]]; [|left; eauto].
    right. eexists. split; [reflexivity|]. split; by simplify_map_eq.
  - destruct (Hc cfg name "crypt" params) as [->|[e ->]]; [|left; eauto].
    right. eexists. split; [reflexivity|]. done.
Qed.

Lemma newName_temp (env : Env) (s : State) :
  HasPrefix (fst (newName env s)) tempCryptPrefix = true.
Proof.
  unfold newName, HasPrefix, tempCryptPrefix. cbn [fst].
  generalize (uuid8 env (drawn s)). intros u.
  change ("_tmp_crypt_" +:+ u)
    with (String "_" (String "t" (String "m" (String "p" (String "_"
           (String "c" (String "r" (String "y" (String "p" (String "t"
           (String "_" u))))))))))).
  cbn. by destruct u.
Qed.

Lemma wraps_insert (cfg : Config) (env : Env) (s : State) (wrapped : string)
    (params : Params) :
  params !! "remote" = Some wrapped ->
  wraps (<[fst (newName env s) := MkSection "crypt" params]> cfg)
    (fst (newName env s) +:+ ":") wrapped.
Proof.
  intros Hr. exists (fst (newName env s)), (MkSection "crypt" params).
  split; [reflexivity|]. split; [apply newName_temp|].
  split; [apply lookup_insert_eq|]. by split.
Qed.

(** X21.  When [ApplyCryptWrapping] succeeds with encryption on for
    at least one end, each encrypted end of the profile is rewritten to a
    temporary crypt remote of the configuration that wraps the location
    the profile had there, the other end is left alone, both passwords
    are cleared from the profile, no section other than temporary ones is
    touched, and the returned cleanup deletes exactly what was created:
    after it the configuration is the one the call started from.  This
    holds provided [config.CreateRemote] stores the section or fails
    without a trace and the names drawn were not in use and differ. *)
Theorem crypt_wrapping_success (env : Env) (s : State) (profile : Profile)
    (w : Wrapping) :
  storesOrFails env -> freshNames env s ->
  EncryptSource profile || EncryptDest profile = true ->
  ApplyCryptWrapping env s profile = w -> wErr w = None ->
  EncryptPassword (wProfile w) = "" /\ EncryptPassword2 (wProfile w) = ""
  /\ (if EncryptSource profile
      then wraps (config (wState w)) (From (wProfile w)) (From profile)
      else From (wProfile w) = From profile)
  /\ (if EncryptDest profile
      then wraps (config (wState w)) (To (wProfile w)) (To profile)
      else To (wProfile w) = To profile)
  /\ (forall name,
        HasPrefix name tempCryptPrefix = false ->
        config (wState w) !! name = config s !! name)
  /\ exists names,
       wCleanup w = Some names
       /\ runCleanup (config (wState w)) names = config s.
Proof.
  intros Hc (Hf1 & Hf2 & Hne) Hon Hw He. unfold ApplyCryptWrapping in Hw.
  pose proof (newName_temp env s) as Ht1.
  pose proof (newName_temp env (MkState (config s) (S (drawn s)))) as Ht2.
  destruct (EncryptSource profile) eqn:Hsrc, (EncryptDest profile) eqn:Hdst;
    cbn [negb andb orb] in Hw; [| | |discriminate Hon];
    (destruct (String.eqb (EncryptPassword profile) "") eqn:Hpw;
     [subst w; discriminate He|]);
    unfold newName in Hw, Ht1, Ht2;
    cbn [fst snd config drawn setConfig] in Hw, Ht1, Ht2.
  - create_outcome Hw createTempCryptRemote_outcome Hc; [subst w; discriminate He|].
    cbn [EncryptDest withFrom] in Hw. rewrite Hdst in Hw.
    cbn [fst snd config drawn setConfig To EncryptPassword EncryptPassword2
           EncryptDirectory] in Hw.
    create_outcome Hw createTempCryptRemote_outcome Hc; [subst w; discriminate He|].
    subst w. cbn [wProfile wState wCleanup config setConfig clearPasswords
                    withTo withFrom From To EncryptPassword EncryptPassword2].
    repeat (split; [reflexivity|]).
    split.
    { eexists _, _. split; [reflexivity|]. split; [exact Ht1|].
      split; [rewrite lookup_insert_ne by (intros ?; by apply Hne);
              apply lookup_insert_eq | by split]. }
    split.
    { eexists _, _. split; [reflexivity|]. split; [exact Ht2|].
      split; [apply lookup_insert_eq | by split]. }
    split.
    { intros name Hn. rewrite !lookup_insert_ne; [done| |];
        intros <-; congruence. }
    eexists. split; [reflexivity|]. cbn. unfold deleteTempCryptRemote.
    rewrite delete_insert_ne by done.
    rewrite (delete_insert_id (config s)) by done.
    by rewrite delete_insert_id.
  - create_outcome Hw createTempCryptRemote_outcome Hc; [subst w; discriminate He|].
    cbn [EncryptDest withFrom] in Hw. rewrite Hdst in Hw.
    subst w. cbn [wProfile wState wCleanup config setConfig clearPasswords
                    withTo withFrom From To EncryptPassword EncryptPassword2].
    repeat (split; [reflexivity|]).
    split.
    { eexists _, _. split; [reflexivity|]. split; [exact Ht1|].
      split; [apply lookup_insert_eq | by split]. }
    split; [reflexivity|].
    split.
    { intros name Hn. rewrite lookup_insert_ne; [done|]. intros <-; congruence. }
    eexists. split; [reflexivity|]. cbn. unfold deleteTempCryptRemote.
    by rewrite delete_insert_id.
  - create_outcome Hw createTempCryptRemote_outcome Hc; [subst w; discriminate He|].
    subst w. cbn [wProfile wState wCleanup config setConfig clearPasswords
                    withTo withFrom From To EncryptPassword EncryptPassword2].
    repeat (split; [reflexivity|]).
    split.
    { eexists _, _. split; [reflexivity|]. split; [exact Ht1|].
      split; [apply lookup_insert_eq | by split]. }
    split.
    { intros name Hn. rewrite lookup_insert_ne; [done|]. intros <-; congruence. }
    eexists. split; [reflexivity|]. cbn. unfold deleteTempCryptRemote.
    by rewrite delete_insert_id.
Qed.

Lemma crypt_wrapping_success_witness :
  let w := ApplyCryptWrapping envToy start sourceOnly in
  EncryptPassword (wProfile w) = "" /\ EncryptPassword2 (wProfile w) = ""
  /\ wraps (config (wState w)) (From (wProfile w)) "/a"
  /\ To (wProfile w) = "gdrive:/a"
  /\ (forall name,
        HasPrefix name tempCryptPrefix = false ->
        config (wState w) !! name = config start !! name)
  /\ exists names,
       wCleanup w = Some names
       /\ runCleanup (config (wState w)) names = config start.
Proof.
  apply (crypt_wrapping_success envToy start sourceOnly
           (ApplyCryptWrapping envToy start sourceOnly)).
  - intros cfg name ty params. unfold envToy. cbn [CreateRemote].
    destruct (String.eqb name "_tmp_crypt_00000001"); [right; eauto | by left].
  - repeat split; vm_compute; done.
  - reflexivity.
  - reflexivity.
  - reflexivity.
Defined.

Lemma cleanup_fold (names : list string) (cfg : Config) (name : string) :
  fold_left (fun c r => if HasPrefix r tempCryptPrefix then delete r c else c)
    names cfg !! name
  = if HasPrefix name tempCryptPrefix && bool_decide (name ∈ names)
    then None else cfg !! name.
Proof.
  revert cfg. induction names as [|r names IH]; intros cfg.
  - cbn [fold_left]. rewrite bool_decide_eq_false_2 by apply not_elem_of_nil.
    by rewrite andb_false_r.
  - cbn [fold_left]. rewrite IH.
    destruct (HasPrefix name tempCryptPrefix) eqn:Hp; cbn [andb].
    + destruct (decide (name ∈ names)) as [Hin|Hin].
      * rewrite !bool_decide_eq_true_2; [done | by right | done].
      * rewrite (bool_decide_eq_false_2 (name ∈ names)) by done.
        destruct (decide (name = r)) as [->|Hr].
        -- rewrite bool_decide_eq_true_2 by (by left). rewrite Hp.
           apply lookup_delete_eq.
        -- rewrite bool_decide_eq_false_2
             by (intros H; apply elem_of_cons in H as [?|?]; done).
           destruct (HasPrefix r tempCryptPrefix); [|done].
           by rewrite lookup_delete_ne.
    + destruct (HasPrefix r tempCryptPrefix) eqn:Hr; [|done].
      rewrite lookup_delete_ne; [done|]. intros ->. congruence.
Qed.

(** X22.  [CleanupOrphanedTempCryptRemotes] deletes every section
    whose name starts with [_tmp_crypt_] and no other: afterwards a name
    with that prefix has no section and every other name has the section
    it had.  Hence two configurations that differ only in temporary crypt
    remotes, such as the one before a wrapping and the one a crash left
    after it, are the same after the cleanup. *)
Theorem orphaned_remotes_cleaned (cfg : Config) :
  (forall name,
     CleanupOrphanedTempCryptRemotes cfg !! name
     = if HasPrefix name tempCryptPrefix then None else cfg !! name)
  /\ (forall cfg',
        (forall name,
           HasPrefix name tempCryptPrefix = false -> cfg' !! name = cfg !! name) ->
        CleanupOrphanedTempCryptRemotes cfg'
        = CleanupOrphanedTempCryptRemotes cfg).
Proof.
  assert (forall c name,
            CleanupOrphanedTempCryptRemotes c !! name
            = if HasPrefix name tempCryptPrefix then None else c !! name) as H.
  { intros c name. unfold CleanupOrphanedTempCryptRemotes. rewrite cleanup_fold.
    destruct (HasPrefix name tempCryptPrefix); [|done]. cbn [andb].
    destruct (c !! name) as [sec|] eqn:Hl; [|by destruct (bool_decide _)].
    rewrite bool_decide_eq_true_2; [done|]. unfold FileSections.
    apply list_elem_of_fmap. exists (name, sec). split; [done|].
    by apply elem_of_map_to_list. }
  split; [apply H|]. intros cfg' Hsame. apply map_eq. intros name.
  rewrite !H. destruct (HasPrefix name tempCryptPrefix) eqn:Hp; [done|].
  by apply Hsame.
Qed.

Lemma orphaned_remotes_cleaned_witness :
  CleanupOrphanedTempCryptRemotes
    (<["_tmp_crypt_00000000" := MkSection "crypt" ∅]> (config start))
  = CleanupOrphanedTempCryptRemotes (config start).
Proof.
  destruct (orphaned_remotes_cleaned (config start)) as [_ H]. apply H.
  intros name Hn. apply lookup_insert_ne. intros <-. discriminate Hn.
Defined.

Lemma Cleanup_lookup (cfg : Config) (name : string) :
  CleanupOrphanedTempCryptRemotes cfg !! name
  = if HasPrefix name tempCryptPrefix then None else cfg !! name.
Proof.
  unfold CleanupOrphanedTempCryptRemotes. rewrite cleanup_fold.
  destruct (HasPrefix name tempCryptPrefix); [|done]. cbn [andb].
  destruct (cfg !! name) as [sec|] eqn:Hl; [|by destruct (bool_decide _)].
  rewrite bool_decide_eq_true_2; [done|]. unfold FileSections.
  apply list_elem_of_fmap. exists (name, sec). split; [done|].
  by apply elem_of_map_to_list.
Qed.

(** A failed [createTempCryptRemote] touches no section but the named
    one, and what it leaves under that name is what a failed
    [config.CreateRemote] left there. *)
Lemma createTempCryptRemote_failed (env : Env) (cfg cfg' : Config)
    (name wrappedPath password password2 filenameEncrypt e : string)
    (dirEncrypt : bool) :
  touchesOwn env ->
  createTempCryptRemote env cfg name wrappedPath password password2
    filenameEncrypt dirEncrypt = (cfg', Some e) ->
  (forall other, other <> name -> cfg' !! other = cfg !! other)
  /\ (cfg' = cfg
      \/ exists params e',
           CreateRemote env cfg name "crypt" params = (cfg', Some e')).
Proof.
  intros Ht. unfold createTempCryptRemote.
  destruct (Obscure env password) as [op|e0]; [|intros [= <- _]; auto].
  set (params := <["remote" := wrappedPath]> _).
  assert (forall ps,
            match CreateRemote env cfg name "crypt" ps with
            | (c, Some e1) => (c, Some ("failed to create crypt remote: " +:+ e1))
            | (c, None) => (c, None)
            end = (cfg', Some e) ->
            (forall other, other <> name -> cfg' !! other = cfg !! other)
            /\ (cfg' = cfg
                \/ exists ps' e', CreateRemote env cfg name "crypt" ps'
                                  = (cfg', Some e'))) as Hcall.
  { intros ps H. pose proof (Ht cfg name "crypt" ps) as Hown.
    destruct (CreateRemote env cfg name "crypt" ps) as [c [e1|]] eqn:Hc;
      [|discriminate].
    injection H as <- _. cbn [fst] in Hown. split; [exact Hown|].
    right. eauto. }
  destruct (negb (String.eqb password2 "")).
  - destruct (Obscure env password2) as [op2|e0]; [|intros [= <- _]; auto].
    apply Hcall.
  - apply Hcall.
Qed.

Lemma createTempCryptRemote_others (env : Env) (cfg cfg' : Config)
    (name wrappedPath password password2 filenameEncrypt other : string)
    (dirEncrypt : bool) (e : option error) :
  touchesOwn env ->
  createTempCryptRemote env cfg name wrappedPath password password2
    filenameEncrypt dirEncrypt = (cfg', e) ->
  other <> name -> cfg' !! other = cfg !! other.
Proof.
  intros Ht Hc Hne.
  change cfg' with (fst (cfg', e)). rewrite <- Hc. clear Hc.
  unfold createTempCryptRemote.
  destruct (Obscure env password) as [op|e0]; [|done].
  set (params := <["remote" := wrappedPath]> _).
  assert (forall ps,
            fst match CreateRemote env cfg name "crypt" ps with
                | (c, Some e1) =>
                    (c, Some ("failed to create crypt remote: " +:+ e1))
                | (c, None) => (c, None)
                end !! other = cfg !! other) as Hcall.
  { intros ps. pose proof (Ht cfg name "crypt" ps other Hne) as Hown.
    by destruct (CreateRemote env cfg name "crypt" ps) as [c [e1|]]. }
  destruct (negb (String.eqb password2 "")); [|apply Hcall].
  destruct (Obscure env password2) as [op2|e0]; [apply Hcall | done].
Qed.

(** X20.  What [ApplyCryptWrapping] leaves behind when it fails.
    With encryption switched off on both ends it does nothing at all, and
    with encryption on but no password it fails before creating anything,
    with the profile as it was.  When a temporary crypt remote cannot be
    created, for the source or, after the source one was created, for the
    destination, it returns the error with a nil cleanup; every section
    but the one under the name whose creation failed is as it was before
    the call (a source remote created first is deleted again); but a
    section that the failed [config.CreateRemote] left under that name is
    not deleted: it stays until [CleanupOrphanedTempCryptRemotes] runs,
    after which the configuration is what it would have been without the
    call.  This holds provided [config.CreateRemote] touches no section
    but the named one and the names drawn were not in use and differ. *)
Theorem crypt_wrapping_failure_outcome (env : Env) (s : State)
    (profile : Profile) (w : Wrapping) :
  touchesOwn env -> freshNames env s ->
  ApplyCryptWrapping env s profile = w ->
  (EncryptSource profile = false -> EncryptDest profile = false ->
   w = MkWrapping s profile (Some []) None)
  /\ (EncryptSource profile || EncryptDest profile = true ->
      EncryptPassword profile = "" ->
      wState w = s /\ wProfile w = profile /\ wErr w <> None)
  /\ (wErr w <> None -> EncryptPassword profile <> "" ->
      wCleanup w = None
      /\ exists failed,
           HasPrefix failed tempCryptPrefix = true
           /\ (forall name, name <> failed ->
                 config (wState w) !! name = config s !! name)
           /\ (forall sec, config (wState w) !! failed = Some sec ->
                 exists cfg0 params cfg1 e,
                   CreateRemote env cfg0 failed "crypt" params
                   = (cfg1, Some e)
                   /\ cfg1 !! failed = Some sec)
           /\ CleanupOrphanedTempCryptRemotes (config (wState w))
              = CleanupOrphanedTempCryptRemotes (config s)).
Proof.
  intros Ht (Hf1 & Hf2 & Hne) Hw.
  assert (forall cfg failed,
            HasPrefix failed tempCryptPrefix = true ->
            (forall name, name <> failed -> cfg !! name = config s !! name) ->
            CleanupOrphanedTempCryptRemotes cfg
            = CleanupOrphanedTempCryptRemotes (config s)) as Hclean.
  { intros cfg failed Hpre Hsame. apply map_eq. intros name.
    rewrite !Cleanup_lookup.
    destruct (HasPrefix name tempCryptPrefix) eqn:Hp; [done|].
    apply Hsame. intros ->. congruence. }
  unfold ApplyCryptWrapping in Hw.
  destruct (EncryptSource profile) eqn:Hsrc, (EncryptDest profile) eqn:Hdst;
    cbn [negb andb orb] in Hw;
    [| | |subst w; cbn; by repeat split];
    (destruct (String.eqb (EncryptPassword profile) "") eqn:Hpw;
     [apply String.eqb_eq in Hpw; subst w; cbn; by repeat split|]);
    apply String.eqb_neq in Hpw;
    (split; [discriminate|]); (split; [done|]);
    unfold newName in Hw; cbn [fst snd config drawn setConfig] in Hw.
  - (* both ends *)
    set (n1 := tempCryptPrefix +:+ uuid8 env (drawn s)) in *.
    set (n2 := tempCryptPrefix +:+ uuid8 env (S (drawn s))) in *.
    destruct (createTempCryptRemote env (config s) n1 _ _ _ _ _)
      as [cfg1 [e1|]] eqn:Hc1.
    + (* the source remote fails *)
      subst w. cbn. intros _ _. split; [done|].
      destruct (createTempCryptRemote_failed _ _ _ _ _ _ _ _ _ _ Ht Hc1)
        as [Hoth Hleft].
      exists n1. split; [apply (newName_temp env s)|]. split; [exact Hoth|].
      split; [|by apply (Hclean cfg1 n1); [apply (newName_temp env s)|]].
      intros sec Hsec. destruct Hleft as [->|(params & e' & Hcr)].
      * rewrite Hf1 in Hsec. discriminate.
      * eauto 10.
    + (* the source remote is there, the destination one fails *)
      cbn [EncryptDest withFrom] in Hw. rewrite Hdst in Hw.
      cbn [fst snd config drawn setConfig To EncryptPassword EncryptPassword2
             EncryptDirectory] in Hw. fold n2 in Hw.
      assert (forall other, other <> n1 -> cfg1 !! other = config s !! other)
        as Ho1
        by (intros other;
            exact (createTempCryptRemote_others _ _ _ _ _ _ _ _ _ _ _ Ht Hc1)).
      destruct (createTempCryptRemote env cfg1 n2 _ _ _ _ _)
        as [cfg2 [e2|]] eqn:Hc2; subst w; cbn; [|done].
      intros _ _. split; [done|].
      destruct (createTempCryptRemote_failed _ _ _ _ _ _ _ _ _ _ Ht Hc2)
        as [Hoth Hleft].
      assert (forall name, name <> n2 ->
                deleteTempCryptRemote cfg2 n1 !! name = config s !! name)
        as Hsame.
      { intros name Hn. unfold deleteTempCryptRemote.
        destruct (decide (name = n1)) as [->|Hn1].
        - by rewrite lookup_delete_eq, Hf1.
        - rewrite lookup_delete_ne by done. rewrite Hoth by done.
          by apply Ho1. }
      exists n2. split; [apply (newName_temp env (MkState (config s) (S (drawn s))))|].
      split; [exact Hsame|].
      split; [|by apply (Hclean _ n2);
                 [apply (newName_temp env (MkState (config s) (S (drawn s))))|]].
      intros sec Hsec. unfold deleteTempCryptRemote in Hsec.
      rewrite lookup_delete_ne in Hsec by done.
      destruct Hleft as [->|(params & e' & Hcr)].
      * rewrite Ho1 in Hsec by (intros H; by apply Hne).
        rewrite Hf2 in Hsec. discriminate.
      * eauto 10.
  - (* the source end only *)
    set (n1 := tempCryptPrefix +:+ uuid8 env (drawn s)) in *.
    destruct (createTempCryptRemote env (config s) n1 _ _ _ _ _)
      as [cfg1 [e1|]] eqn:Hc1.
    + subst w. cbn. intros _ _. split; [done|].
      destruct (createTempCryptRemote_failed _ _ _ _ _ _ _ _ _ _ Ht Hc1)
        as [Hoth Hleft].
      exists n1. split; [apply (newName_temp env s)|]. split; [exact Hoth|].
      split; [|by apply (Hclean cfg1 n1); [apply (newName_temp env s)|]].
      intros sec Hsec. destruct Hleft as [->|(params & e' & Hcr)].
      * rewrite Hf1 in Hsec. discriminate.
      * eauto 10.
    + cbn [EncryptDest withFrom] in Hw. rewrite Hdst in Hw. subst w. cbn. done.
  - (* the destination end only *)
    cbn [fst snd config drawn setConfig] in Hw.
    set (n1 := tempCryptPrefix +:+ uuid8 env (drawn s)) in *.
    destruct (createTempCryptRemote env (config s) n1 _ _ _ _ _)
      as [cfg1 [e1|]] eqn:Hc1; subst w; cbn; [|done].
    intros _ _. split; [done|].
    destruct (createTempCryptRemote_failed _ _ _ _ _ _ _ _ _ _ Ht Hc1)
      as [Hoth Hleft].
    exists n1. split; [apply (newName_temp env s)|]. split; [exact Hoth|].
    split; [|by apply (Hclean cfg1 n1); [apply (newName_temp env s)|]].
    intros sec Hsec. destruct Hleft as [->|(params & e' & Hcr)].
    + rewrite Hf1 in Hsec. discriminate.
    + eauto 10.
Qed.

(** [config.CreateRemote] stores the destination section and fails: the
    source remote is deleted again, the half-made destination remote
    stays in the configuration, and the cleanup at the next start removes
    it. *)
Lemma crypt_wrapping_failure_outcome_witness :
  let w := ApplyCryptWrapping envHalf start bothEnds in
  wErr w <> None /\ wCleanup w = None
  /\ config (wState w) !! "_tmp_crypt_00000000" = None
  /\ is_Some (config (wState w) !! "_tmp_crypt_00000001")
  /\ config (wState w) !! "gdrive" = config start !! "gdrive"
  /\ CleanupOrphanedTempCryptRemotes (config (wState w))
     = CleanupOrphanedTempCryptRemotes (config start).
Proof.
  destruct (crypt_wrapping_failure_outcome envHalf start bothEnds
              (ApplyCryptWrapping envHalf start bothEnds)) as (_ & _ & H).
  - intros cfg name ty params other Hne. unfold envHalf. cbn [CreateRemote fst].
    by apply lookup_insert_ne.
  - repeat split; vm_compute; done.
  - reflexivity.
  - assert (wErr (ApplyCryptWrapping envHalf start bothEnds) <> None) as He
      by (vm_compute; discriminate).
    destruct (H He ltac:(discriminate)) as (Hc & failed & _ & _ & _ & Hclean).
    split; [exact He|]. split; [exact Hc|].
    split; [vm_compute; reflexivity|].
    split; [vm_compute; eauto|].
    split; [vm_compute; reflexivity | exact Hclean].
Defined.

End CryptRemotes.
Section LogLines.
Import Dto Progress Samples Lines.

Lemma cutRune_Some (runes : list (list Ascii.ascii))
    (l l' : list Ascii.ascii) :
  Forall (fun r => r <> []) runes -> cutRune runes l = Some l' ->
  exists r, r <> [] /\ l = r ++ l'.
Proof.
  induction 1 as [|r runes Hr _ IH]; cbn [cutRune]; [discriminate|].
  destruct (decide (take (length r) l = r)) as [Ht|Ht].
  - rewrite bool_decide_eq_true_2 by done. intros [= <-]. exists r.
    split; [done|]. rewrite <- Ht at 1. by rewrite take_drop.
  - rewrite bool_decide_eq_false_2 by done. exact IH.
Qed.

(** No rune to cut at the head of a text, none at the head of its
    prefixes. *)
Lemma cutRune_prefix (runes : list (list Ascii.ascii))
    (l t : list Ascii.ascii) :
  cutRune runes (l ++ t) = None -> cutRune runes l = None.
Proof.
  induction runes as [|r runes IH]; cbn [cutRune]; [done|].
  destruct (decide (take (length r) l = r)) as [Ht|Ht].
  - assert (length r <= length l)%nat as Hlen.
    { rewrite <- Ht at 1. rewrite length_take. lia. }
    rewrite (bool_decide_eq_true_2 (take (length r) (l ++ t) = r))
      by (by rewrite take_app_le). discriminate.
  - rewrite (bool_decide_eq_false_2 (take (length r) l = r)) by done.
    destruct (bool_decide (take (length r) (l ++ t) = r)); [discriminate|].
    exact IH.
Qed.

Lemma trimRunes_suffix (runes : list (list Ascii.ascii)) (fuel : nat)
    (l : list Ascii.ascii) :
  Forall (fun r => r <> []) runes ->
  exists pre, l = pre ++ trimRunes runes fuel l.
Proof.
  intros Hne. revert l. induction fuel as [|fuel IH]; intros l;
    cbn [trimRunes]; [by exists []|].
  destruct (cutRune runes l) as [l'|] eqn:Hc; [|by exists []].
  destruct (cutRune_Some runes l l' Hne Hc) as (r & _ & ->).
  destruct (IH l') as [pre Hpre]. exists (r ++ pre).
  by rewrite <- app_assoc, <- Hpre.
Qed.

Lemma trimRunes_done (runes : list (list Ascii.ascii)) (fuel : nat)
    (l : list Ascii.ascii) :
  Forall (fun r => r <> []) runes -> (length l <= fuel)%nat ->
  cutRune runes (trimRunes runes fuel l) = None.
Proof.
  intros Hne. revert l. induction fuel as [|fuel IH]; intros l Hlen;
    cbn [trimRunes].
  - destruct l; [|cbn in Hlen; lia].
    destruct (cutRune runes []) as [l'|] eqn:Hc; [|done].
    destruct (cutRune_Some runes [] l' Hne Hc) as (r & Hr & Heq).
    symmetry in Heq. apply app_eq_nil in Heq as [-> _]. done.
  - destruct (cutRune runes l) as [l'|] eqn:Hc; [|exact Hc].
    destruct (cutRune_Some runes l l' Hne Hc) as (r & Hr & ->).
    apply IH. rewrite length_app in Hlen. destruct r; [done|].
    cbn in Hlen. lia.
Qed.

Lemma trimRunes_fixed (runes : list (list Ascii.ascii)) (fuel : nat)
    (l : list Ascii.ascii) :
  cutRune runes l = None -> trimRunes runes fuel l = l.
Proof. intros H. destruct fuel; [done|]. cbn [trimRunes]. by rewrite H. Qed.

Lemma spaceRunes_nonempty : Forall (fun r => r <> []) spaceRunes.
Proof. unfold spaceRunes. cbn [map]. repeat constructor; discriminate. Qed.

Lemma spaceRunes_reverse_nonempty :
  Forall (fun r => r <> []) (map reverse spaceRunes).
Proof. unfold spaceRunes. cbn [map]. repeat constructor; discriminate. Qed.

(** What [TrimSpace] returns has no white-space rune at either end. *)
Lemma trim_ends (l : list Ascii.ascii) :
  cutRune spaceRunes (trimRight (trimLeft l)) = None
  /\ cutRune (map reverse spaceRunes) (reverse (trimRight (trimLeft l)))
     = None.
Proof.
  unfold trimRight. rewrite reverse_involutive.
  set (a := trimLeft l).
  assert (cutRune spaceRunes a = None) as Ha
    by (apply trimRunes_done; [apply spaceRunes_nonempty | done]).
  destruct (trimRunes_suffix (map reverse spaceRunes) (length a) (reverse a)
              spaceRunes_reverse_nonempty) as [pre Hpre].
  split.
  - apply (cutRune_prefix _ _ (reverse pre)).
    rewrite <- reverse_app, <- Hpre, reverse_involutive. exact Ha.
  - apply trimRunes_done; [apply spaceRunes_reverse_nonempty|].
    by rewrite length_reverse.
Qed.

Lemma TrimSpace_idem (s : string) : TrimSpace (TrimSpace s) = TrimSpace s.
Proof.
  unfold TrimSpace. rewrite String.list_ascii_of_string_of_list_ascii.
  f_equal. destruct (trim_ends (String.list_ascii_of_string s)) as [Hl Hr].
  set (t := trimRight (trimLeft (String.list_ascii_of_string s))) in *.
  unfold trimLeft at 1. rewrite (trimRunes_fixed _ _ t Hl).
  unfold trimRight at 1. rewrite (trimRunes_fixed _ _ (reverse t) Hr).
  apply reverse_involutive.
Qed.

Lemma lastN_Forall {A} (P : A -> Prop) (n : Z) (xs : list A) :
  Forall P xs -> Forall P (lastN n xs).
Proof. intros H. unfold lastN. destruct (len xs >? n); [by apply Forall_drop | done]. Qed.

Lemma lastN_len {A} (n : Z) (xs : list A) : 0 <= n -> len (lastN n xs) <= n.
Proof.
  intros Hn. unfold lastN. destruct (Z.gtb_spec (len xs) n) as [H|H]; [|done].
  unfold len in *. rewrite length_drop. lia.
Qed.

Lemma createStatusFromStats_clean (stats : Stats) (logs : list string) :
  Forall cleanLine logs -> cleanLogs (fst (createStatusFromStats stats logs)).
Proof.
  intros H. unfold cleanLogs. rewrite createStatusFromStats_logs.
  split; [by apply lastN_Forall | by apply lastN_len].
Qed.

Lemma trySend_tidy (c : Chan SyncStatusDTO) (st : SyncStatusDTO) :
  Forall cleanLogs (buf c) -> cleanLogs st ->
  Forall cleanLogs (buf (fst (trySend c st))).
Proof.
  intros Hb Hs. unfold trySend. destruct (length (buf c) <? cap c)%nat; [|done].
  cbn. apply Forall_app. split; [done | by constructor].
Qed.

Lemma onLog_tidy (s : Sampler) (text : string) : tidy s -> tidy (onLog s text).
Proof.
  intros [Ha Hb]. unfold onLog. destruct (isClosed s); [done|].
  destruct (String.eqb (TrimSpace text) "" || shouldSkipLogMessage (TrimSpace text));
    [done|].
  destruct (String.eqb (extractLogContent (TrimSpace text)) "") eqn:He; [done|].
  split; [|exact Hb]. cbn [appendLog logAccum]. apply Forall_app.
  split; [done|]. constructor; [|constructor]. split.
  - by apply String.eqb_neq.
  - unfold extractLogContent. apply TrimSpace_idem.
Qed.

Lemma onSyncPrintf_tidy (s : Sampler) (msg : string) :
  tidy s -> tidy (onSyncPrintf s msg).
Proof.
  intros [Ha Hb]. unfold onSyncPrintf. destruct (isClosed s); [done|].
  destruct (String.eqb (TrimSpace msg) "") eqn:He; [done|]. cbn [negb].
  split; [|exact Hb]. cbn [appendLog logAccum]. apply Forall_app.
  split; [done|]. constructor; [|constructor]. split.
  - by apply String.eqb_neq.
  - apply TrimSpace_idem.
Qed.

Lemma onTick_tidy (s : Sampler) (stats : Stats) : tidy s -> tidy (onTick s stats).
Proof.
  intros [Ha Hb]. unfold onTick. destruct (stopCh s); [done|].
  destruct (isClosed s); [done|]. cbn [drainLogs].
  pose proof (createStatusFromStats_clean stats (logAccum s) Ha) as Hc.
  destruct (createStatusFromStats stats (logAccum s)) as [status cur].
  cbn [fst] in Hc. split; [by constructor|].
  cbn [outStatus]. apply trySend_tidy; [exact Hb|]. exact Hc.
Qed.

Lemma act_tidy (s : Sampler) (a : Activity) : tidy s -> tidy (act s a).
Proof.
  intros H. destruct a; cbn [act].
  - destruct (sinks s); [by apply onLog_tidy | done].
  - destruct (sinks s); [by apply onSyncPrintf_tidy | done].
  - by apply onTick_tidy.
Qed.

Lemma acts_tidy (acts : list Activity) (s : Sampler) :
  tidy s -> tidy (fold_left act acts s).
Proof.
  revert s. induction acts as [|a acts IH]; intros s H; [done|].
  cbn [fold_left]. apply IH. by apply act_tidy.
Qed.

Lemma cleanup_tidy (s : Sampler) (stats : Stats) :
  tidy s -> tidy (cleanup s stats).
Proof.
  intros [Ha Hb]. unfold cleanup, emitFinal, join, signalStop, detachSinks,
    setClosed, drainLogs. cbn [logAccum isClosed sinks stopCh joined
                                 prevChecking completedChecks outStatus].
  destruct (len (logAccum s) >? 0); [|by split; [constructor|]].
  split; [by constructor|]. cbn [outStatus].
  apply trySend_tidy; [exact Hb|]. by apply createStatusFromStats_clean.
Qed.

(** X23.  Whatever happens to a sampler between [startProgress]
    and its cleanup (log lines, prints, ticks, in any order), the log
    accumulator holds only lines that are not empty and carry no white
    space at either end, and every sample the task offers on a channel
    whose earlier samples were so carries at most 50 log lines, each of
    them not empty and without white space at either end. *)
Theorem samples_carry_clean_log_lines (out : Chan SyncStatusDTO)
    (acts : list Activity) (final : Stats) :
  Forall cleanLogs (buf out) ->
  Forall cleanLine (logAccum (fold_left act acts (startProgress out)))
  /\ Forall cleanLogs (buf (outStatus (runTask out acts final))).
Proof.
  intros Hout.
  assert (tidy (startProgress out)) as H0 by (split; [constructor | exact Hout]).
  pose proof (acts_tidy acts _ H0) as H1.
  split; [exact (proj1 H1)|].
  unfold runTask. exact (proj2 (cleanup_tidy _ final H1)).
Qed.

Lemma samples_carry_clean_log_lines_witness :
  Forall cleanLine (logAccum (fold_left act busy (startProgress emptyBox)))
  /\ Forall cleanLogs (buf (outStatus (runTask emptyBox busy idle))).
Proof.
  apply (samples_carry_clean_log_lines emptyBox busy idle). constructor.
Defined.

End LogLines.

Section Ticks.
Import Dto Progress Samples Lines.




Lemma act_stopCh (s : Sampler) (a : Activity) : stopCh (act s a) = stopCh s.
Proof.
  destruct a as [text|msg|stats]; cbn [act].
  - destruct (sinks s); [|done]. unfold onLog.
    repeat case_match; reflexivity.
  - destruct (sinks s); [|done]. unfold onSyncPrintf.
    repeat case_match; reflexivity.
  - unfold onTick. destruct (stopCh s) eqn:Hs; [exact Hs|].
    destruct (isClosed s); [exact Hs|]. cbn [drainLogs].
    destruct (createStatusFromStats stats (logAccum s)). exact Hs.
Qed.

Lemma acts_stopCh (acts : list Activity) (s : Sampler) :
  stopCh (fold_left act acts s) = stopCh s.
Proof.
  revert s. induction acts as [|a acts IH]; intros s; [done|].
  cbn [fold_left]. rewrite IH. apply act_stopCh.
Qed.

(** X25.  The teardown is final.  The first call of the cleanup
    closure, whatever the sampler did since [startProgress], runs to its
    end; after it no log line, no print and no tick changes the sampler
    or offers anything on the channel, whatever comes and in whatever
    order; and a second call of the closure does not return: it panics
    when it closes the stop channel again. *)
Theorem nothing_happens_after_cleanup (out : Chan SyncStatusDTO)
    (before after : list Activity) (stats stats' : Stats) :
  let s := fold_left act before (startProgress out) in
  let s' := cleanup s stats in
  callCleanup s stats = Some s'
  /\ fold_left act after s' = s'
  /\ callCleanup s' stats' = None
  /\ callCleanup (fold_left act after s') stats' = None.
Proof.
  intros s s'.
  assert (stopCh s = false) as Hopen by (unfold s; by rewrite acts_stopCh).
  assert (isClosed s' = true /\ sinks s' = false /\ stopCh s' = true
          /\ joined s' = true /\ logAccum s' = []) as (Hc & Hk & Hs & Hj & Hl).
  { subst s'. unfold cleanup, emitFinal, join, signalStop, detachSinks,
      setClosed, drainLogs.
    cbn [logAccum isClosed sinks stopCh joined prevChecking completedChecks
           outStatus].
    by destruct (len (logAccum s) >? 0). }
  assert (fold_left act after s' = s') as Hafter.
  { induction after as [|a after IH]; [reflexivity|]. cbn [fold_left].
    assert (act s' a = s') as ->; [|exact IH].
    destruct a; cbn [act]; rewrite ?Hk; [reflexivity | reflexivity|].
    unfold onTick. by rewrite Hs. }
  assert (callCleanup s' stats' = None) as Hpanic.
  { unfold callCleanup, closeStop. cbn [detachSinks setClosed stopCh].
    by rewrite Hs. }
  split; [|split; [exact Hafter|split; [exact Hpanic|by rewrite Hafter]]].
  unfold callCleanup, closeStop. cbn [detachSinks setClosed stopCh].
  by rewrite Hopen.
Qed.

End Ticks.

Section CompletedChecks.
Import Dto Progress Samples Lines.

Lemma createStatusFromStats_checking (stats : Stats) (logs : list string) :
  snd (createStatusFromStats stats logs) = checkingNow stats.
Proof.
  unfold checkingNow, createStatusFromStats.
  by repeat match goal with
       | |- context [let '(_, _) := ?x in _] => destruct x
       end.
Qed.

Lemma createStatusFromStats_transfers (stats : Stats) (logs logs' : list string) :
  Transfers (fst (createStatusFromStats stats logs))
  = Transfers (fst (createStatusFromStats stats logs')).
Proof.
  unfold createStatusFromStats.
  by repeat match goal with
       | |- context [let '(_, _) := ?x in _] => destruct x
       end.
Qed.

Lemma lastN_keeps {A} (n : Z) (l1 l2 : list A) (x : A) :
  x ∈ l2 -> len l2 <= n -> x ∈ lastN n (l1 ++ l2).
Proof.
  intros Hx Hl. unfold lastN. destruct (len (l1 ++ l2) >? n) eqn:Hg.
  - unfold len in *. rewrite length_app in *.
    rewrite drop_app_le by lia. apply elem_of_app. by right.
  - apply elem_of_app. by right.
Qed.

(** One tick of a running sampler, spelled out. *)
Lemma onTick_live (s : Sampler) (stats : Stats) :
  live s ->
  let base := fst (createStatusFromStats stats (logAccum s)) in
  let completed :=
    lastN maxCompletedChecks
      (completedChecks s ++ map checkedEntry (leftChecking s stats)) in
  let injected :=
    filter (fun cc => ftName cc ∉ (list_to_set (listed base) : gset string))
      completed in
  onTick s stats
  = MkSampler (isClosed s) [] (sinks s) (stopCh s) (joined s)
      (checkingNow stats) completed
      (fst (trySend (outStatus s)
              (withTransfers base (Transfers base ++ injected)))).
Proof.
  intros [Hc Hs]. unfold onTick. rewrite Hc, Hs. cbn [drainLogs].
  pose proof (createStatusFromStats_checking stats (logAccum s)) as Hk.
  destruct (createStatusFromStats stats (logAccum s)) as [status cur].
  cbn [snd] in Hk. subst cur.
  cbn [isClosed logAccum sinks stopCh joined prevChecking completedChecks
         outStatus fst].
  rewrite ?Hc, ?Hs. reflexivity.
Qed.

Lemma act_live (s : Sampler) (a : Activity) : live s -> live (act s a).
Proof.
  intros [Hc Hs]. destruct a; cbn [act].
  - destruct (sinks s); [|done]. unfold onLog. rewrite Hc.
    by repeat case_match.
  - destruct (sinks s); [|done]. unfold onSyncPrintf. rewrite Hc.
    by repeat case_match.
  - rewrite onTick_live by done. by split.
Qed.

Lemma act_bounded (s : Sampler) (a : Activity) :
  live s -> bounded s -> bounded (act s a).
Proof.
  intros Hl [Hb Hf]. destruct a; cbn [act].
  - destruct (sinks s); [|done]. unfold onLog. destruct Hl as [-> _].
    by repeat case_match.
  - destruct (sinks s); [|done]. unfold onSyncPrintf. destruct Hl as [-> _].
    by repeat case_match.
  - rewrite onTick_live by done. split; cbn [completedChecks].
    + by apply lastN_len.
    + apply lastN_Forall, Forall_app. split; [exact Hf|].
      apply Forall_forall. intros ft Hft.
      apply list_elem_of_fmap in Hft as (name & -> & _). reflexivity.
Qed.

Lemma acts_live_bounded (acts : list Activity) (s : Sampler) :
  live s -> bounded s ->
  live (fold_left act acts s) /\ bounded (fold_left act acts s).
Proof.
  revert s. induction acts as [|a acts IH]; intros s Hl Hb; [done|].
  cbn [fold_left]. apply IH; [by apply act_live | by apply act_bounded].
Qed.

(** X26.  At any moment between [startProgress] and the cleanup the
    accumulator of completed checks holds at most 100 entries, each one
    an entry the sampler made (status checked, progress 100).  A tick
    then lists, after the transfers composed from the accounting
    snapshot, accumulated entries only, and only those whose name the
    snapshot does not list already; and every file that was being
    checked at the previous tick and no longer is appears in the sample
    of this tick, as long as no more than 100 files left the checking
    set at once. *)
Theorem finished_checks_are_listed (out : Chan SyncStatusDTO)
    (acts : list Activity) (stats : Stats) :
  let s := fold_left act acts (startProgress out) in
  let s' := onTick s stats in
  let base := fst (createStatusFromStats stats (logAccum s)) in
  len (completedChecks s) <= 100
  /\ len (completedChecks s') <= 100
  /\ prevChecking s' = checkingNow stats
  /\ (hasRoom (outStatus s) ->
      exists st injected,
        buf (outStatus s') = buf (outStatus s) ++ [st]
        /\ Transfers st = Transfers base ++ injected
        /\ (forall ft, ft ∈ injected ->
              ft = checkedEntry (ftName ft) /\ ftName ft ∉ listed base)
        /\ (len (leftChecking s stats) <= 100 ->
            forall name, name ∈ leftChecking s stats -> name ∈ listed st)).
Proof.
  intros s s' base.
  assert (live (startProgress out)) as Hl0 by (by split).
  assert (bounded (startProgress out)) as Hb0
    by (split; [unfold maxCompletedChecks, len;
                cbn [completedChecks startProgress length]; lia
               | constructor]).
  destruct (acts_live_bounded acts _ Hl0 Hb0) as [Hl [Hb Hf]].
  fold s in Hl, Hb, Hf.
  pose proof (act_bounded s (Tick stats) Hl (conj Hb Hf)) as [Hb' Hf'].
  cbn [act] in Hb', Hf'. fold s' in Hb', Hf'.
  split; [exact Hb|]. split; [exact Hb'|].
  subst s'. rewrite (onTick_live s stats Hl) in Hf' |- *.
  cbn [prevChecking outStatus completedChecks] in Hf' |- *. fold base.
  split; [reflexivity|]. intros Hr.
  eexists _, _. split; [by apply trySend_room|]. split; [reflexivity|].
  split.
  - intros ft Hft. apply list_elem_of_filter in Hft as [Hn Hin].
    split.
    + by apply (proj1 (Forall_forall _ _) Hf').
    + intros Hx. apply Hn. by apply elem_of_list_to_set.
  - intros Hle name Hname. unfold listed. cbn [Transfers withTransfers].
    rewrite map_app. apply elem_of_app.
    destruct (decide (name ∈ listed base)) as [Hin|Hin]; [by left|]. right.
    apply (list_elem_of_fmap_2' _ _ (checkedEntry name)); [|reflexivity].
    apply list_elem_of_filter. split.
    + cbn. intros Hx. apply Hin. by apply elem_of_list_to_set in Hx.
    + apply lastN_keeps.
      * by apply list_elem_of_fmap_2.
      * unfold len in *. rewrite length_map. exact Hle.
Qed.

Lemma finished_checks_are_listed_witness :
  let s := fold_left act [Tick checkingA] (startProgress emptyBox) in
  exists st,
    buf (outStatus (onTick s idle)) = buf (outStatus s) ++ [st]
    /\ "a.txt" ∈ listed st.
Proof.
  destruct (finished_checks_are_listed emptyBox [Tick checkingA] idle)
    as (_ & _ & _ & H).
  destruct H as (st & injected & Hb & _ & _ & Hin).
  - unfold hasRoom. vm_compute. lia.
  - exists st. split; [exact Hb|]. apply Hin.
    + vm_compute. discriminate.
    + vm_compute. by left.
Defined.

End CompletedChecks.

Section CheckingSet.
Import Dto Progress Samples Lines.

Lemma fromTransferred_status (tr : TransferSnapshot) :
  ftStatus (fromTransferred tr) <> "checking".
Proof.
  unfold fromTransferred. destruct (tsError tr); [discriminate|].
  destruct (tsChecked tr); discriminate.
Qed.

Lemma composeTransfers_checking (rs : RemoteStats)
    (done : list TransferSnapshot) (name : string) :
  name ∈ orElse (checking rs) []
  <-> exists ft,
        ft ∈ composeTransfers rs done
        /\ ftStatus ft = "checking" /\ ftName ft = name.
Proof.
  unfold composeTransfers. split.
  - intros H. exists (fromChecking name). split; [|by split].
    apply elem_of_app. right. apply elem_of_app. left.
    by apply list_elem_of_fmap_2.
  - intros (ft & Hin & Hs & Hn).
    apply elem_of_app in Hin as [Hin|Hin];
      [|apply elem_of_app in Hin as [Hin|Hin]];
      apply list_elem_of_fmap in Hin as (x & -> & Hx).
    + discriminate Hs.
    + cbn in Hn. by subst.
    + by apply fromTransferred_status in Hs.
Qed.

(** X27.  The set of currently checked files that
    [createStatusFromStats] returns beside the sample is exactly the set
    of names the sample lists with status checking; both are empty when
    the remote statistics cannot be read. *)
Theorem checking_set_matches_listing (stats : Stats) (logs : list string)
    (name : string) :
  name ∈ snd (createStatusFromStats stats logs)
  <-> exists ft,
        ft ∈ Transfers (fst (createStatusFromStats stats logs))
        /\ ftStatus ft = "checking" /\ ftName ft = name.
Proof.
  assert (snd (createStatusFromStats stats logs)
          = match remoteStats stats with
            | Ok rs => list_to_set (orElse (checking rs) [])
            | Err _ => ∅
            end
          /\ Transfers (fst (createStatusFromStats stats logs))
             = match remoteStats stats with
               | Ok rs => composeTransfers rs (Transferred stats)
               | Err _ => []
               end) as [-> ->].
  { unfold createStatusFromStats.
    by repeat match goal with
         | |- context [let '(_, _) := ?x in _] => destruct x
         end. }
  destruct (remoteStats stats) as [rs|e].
  - rewrite elem_of_list_to_set. apply composeTransfers_checking.
  - split; [intros H; by apply elem_of_empty in H|].
    intros (ft & H & _). by apply elem_of_nil in H.
Qed.

End CheckingSet.

Section LogContent.
Import Dto Progress Samples Lines.

Lemma append_cons (c : Ascii.ascii) (s t : string) :
  String c s +:+ t = String c (s +:+ t).
Proof. reflexivity. Qed.

Lemma append_nil (t : string) : "" +:+ t = t.
Proof. reflexivity. Qed.

Lemma prefix_nil (s : string) : String.prefix "" s = true.
Proof. by destruct s. Qed.

Lemma prefix_cons (c d : Ascii.ascii) (p s : string) :
  String.prefix (String c p) (String d s)
  = if Ascii.ascii_dec c d then String.prefix p s else false.
Proof. reflexivity. Qed.

Lemma prefix_cons_nil (c : Ascii.ascii) (p : string) :
  String.prefix (String c p) "" = false.
Proof. reflexivity. Qed.

Lemma prefix_append (p s : string) : String.prefix p (p +:+ s) = true.
Proof.
  induction p as [|c p IH]; [apply prefix_nil|].
  rewrite append_cons, prefix_cons. by destruct (Ascii.ascii_dec c c).
Qed.

Lemma length_append (s t : string) :
  String.length (s +:+ t) = (String.length s + String.length t)%nat.
Proof. induction s as [|c s IH]; [done|]. rewrite append_cons. cbn. by rewrite IH. Qed.

Lemma from_append (s t : string) : from (String.length s) (s +:+ t) = t.
Proof. induction s as [|c s IH]; [done|]. rewrite append_cons. exact IH. Qed.

Lemma from_add (n m : nat) (s : string) : from (n + m) s = from m (from n s).
Proof.
  revert s. induction n as [|n IH]; intros s; [done|].
  destruct s as [|c s]; [by destruct m|]. cbn [Nat.add from]. apply IH.
Qed.

Lemma length_from (n : nat) (s : string) :
  String.length (from n s) = (String.length s - n)%nat.
Proof.
  revert s. induction n as [|n IH]; intros s; [cbn; lia|].
  destruct s as [|c s]; [done|]. cbn [from String.length]. by rewrite IH.
Qed.

Lemma Index_from_range (s sep : string) (i : Z) :
  0 <= i ->
  Index_from i s sep = -1
  \/ (i <= Index_from i s sep
      /\ Index_from i s sep + Z.of_nat (String.length sep)
         <= i + Z.of_nat (String.length s)).
Proof.
  revert i. induction s as [|c s IH]; intros i Hi; cbn [Index_from].
  - destruct sep; [right; cbn; lia | by left].
  - destruct (String.prefix sep (String c s)) eqn:Hp.
    + right. split; [lia|].
      assert (String.length sep <= String.length (String c s))%nat; [|lia].
      clear -Hp. revert Hp. generalize (String c s). clear.
      induction sep as [|a sep IH]; intros s Hp; [cbn; lia|].
      destruct s as [|b s]; [discriminate|]. rewrite prefix_cons in Hp.
      destruct (Ascii.ascii_dec a b); [|discriminate].
      specialize (IH s Hp). cbn. lia.
    + destruct (IH (i + 1)) as [H|H]; [lia | by left |].
      right. cbn [String.length]. lia.
Qed.

Lemma Index_from_shift (s sep : string) (i j : Z) :
  0 <= i -> 0 <= j -> Index_from i s sep = -1 -> Index_from j s sep = -1.
Proof.
  revert i j. induction s as [|c s IH]; intros i j Hi Hj; cbn [Index_from].
  - destruct (String.prefix sep ""); [lia | done].
  - destruct (String.prefix sep (String c s)); [lia|].
    apply IH; lia.
Qed.

(** [strings.Contains] is false: no suffix of the text starts with the
    separator. *)
Lemma Contains_false_cons (c : Ascii.ascii) (s sep : string) :
  Contains (String c s) sep = false ->
  String.prefix sep (String c s) = false /\ Contains s sep = false.
Proof.
  unfold Contains, Index. intros H. apply negb_false_iff, Z.eqb_eq in H.
  cbn [Index_from] in H.
  destruct (String.prefix sep (String c s)); [discriminate|].
  split; [done|]. apply negb_false_iff, Z.eqb_eq.
  by apply (Index_from_shift s sep 1 0).
Qed.

Lemma Contains_false_nil (sep : string) :
  Contains "" sep = false -> sep <> "".
Proof. unfold Contains, Index. intros H ->. discriminate H. Qed.

Lemma LastIndex_from_absent (s sep : string) (i best : Z) :
  Contains s sep = false -> LastIndex_from i best s sep = best.
Proof.
  revert i. induction s as [|c s IH]; intros i H.
  - cbn [LastIndex_from]. apply Contains_false_nil in H.
    destruct sep; [done | reflexivity].
  - apply Contains_false_cons in H as [Hp Hc]. cbn [LastIndex_from].
    rewrite Hp. by apply IH.
Qed.

(** No level tag overlaps itself: after a tag has been found at the head
    of a text, the next place it can start is behind it. *)
Lemma LastIndex_from_tag (tag body : string) (i best : Z) :
  tag ∈ levelTags -> Contains body tag = false ->
  LastIndex_from i best (tag +:+ body) tag = i.
Proof.
  intros Ht Hb. unfold levelTags in Ht.
  repeat (apply elem_of_cons in Ht as [->|Ht]); [| | | | |by apply elem_of_nil in Ht];
    rewrite !append_cons, append_nil;
    cbn [LastIndex_from]; rewrite !prefix_cons;
    repeat match goal with
      | |- context [Ascii.ascii_dec ?a ?b] =>
          let r := eval vm_compute in (if Ascii.ascii_dec a b then true else false) in
          match r with
          | true => destruct (Ascii.ascii_dec a b) as [_|Hne]; [|by destruct Hne]
          | false => destruct (Ascii.ascii_dec a b) as [Heq|_]; [discriminate Heq|]
          end
      end;
    rewrite ?prefix_nil;
    by apply LastIndex_from_absent.
Qed.

Lemma LastIndex_from_append (pre rest sep : string) (i best : Z) :
  exists best',
    LastIndex_from i best (pre +:+ rest) sep
    = LastIndex_from (i + Z.of_nat (String.length pre)) best' rest sep.
Proof.
  revert i best. induction pre as [|c pre IH]; intros i best.
  - exists best. rewrite append_nil. cbn. by rewrite Z.add_0_r.
  - rewrite append_cons. cbn [LastIndex_from String.length].
    destruct (IH (i + 1)
                (if String.prefix sep (String c (pre +:+ rest)) then i else best))
      as [best' ->].
    exists best'. f_equal. lia.
Qed.

Lemma LastIndex_tag (tag pre body : string) :
  tag ∈ levelTags -> Contains body tag = false ->
  LastIndex (pre +:+ (tag +:+ body)) tag = Z.of_nat (String.length pre).
Proof.
  intros Ht Hb. unfold LastIndex.
  destruct (LastIndex_from_append pre (tag +:+ body) tag 0 (-1)) as [best' ->].
  by rewrite LastIndex_from_tag.
Qed.

Lemma LastIndex_absent (s sep : string) :
  Contains s sep = false -> LastIndex s sep = -1.
Proof. apply LastIndex_from_absent. Qed.

Lemma stripLevel_tag (tag pre body : string) :
  tag ∈ levelTags ->
  (forall t, t ∈ levelTags -> t <> tag ->
     Contains (pre +:+ (tag +:+ body)) t = false) ->
  Contains body tag = false ->
  stripLevel levelTags (pre +:+ (tag +:+ body)) = body.
Proof.
  intros Ht Ho Hb.
  assert (forall tags,
            (forall t, t ∈ tags -> t ∈ levelTags) -> tag ∈ tags ->
            stripLevel tags (pre +:+ (tag +:+ body)) = body) as H.
  { induction tags as [|t tags IH]; intros Hsub Hin;
      [by apply elem_of_nil in Hin|].
    cbn [stripLevel]. destruct (decide (t = tag)) as [->|Hne].
    - rewrite (LastIndex_tag tag pre body Ht Hb).
      assert ((Z.of_nat (String.length pre) =? -1) = false) as ->
        by (apply Z.eqb_neq; lia).
      cbn [negb]. rewrite <- Nat2Z.inj_add, Nat2Z.id.
      by rewrite from_add, !from_append.
    - rewrite LastIndex_absent by (apply Ho; [apply Hsub; by left | done]).
      cbn. apply IH; [intros ? ?; apply Hsub; by right|].
      apply elem_of_cons in Hin as [?|?]; [congruence | done]. }
  apply H; done.
Qed.

Lemma stripBrackets_plain (fuel : nat) (msg : string) :
  HasPrefix msg "[" = false -> stripBrackets fuel msg = msg.
Proof. intros H. destruct fuel; [done|]. cbn [stripBrackets]. by rewrite H. Qed.

Lemma Index_from_close (g m : string) (i : Z) :
  Contains g "] " = false ->
  Index_from i (g +:+ ("] " +:+ m)) "] " = i + Z.of_nat (String.length g).
Proof.
  revert i. induction g as [|c g IH]; intros i Hg.
  - rewrite append_nil.
    change ("] " +:+ m) with (String "]" (String " " m)).
    cbn [Index_from]. rewrite !prefix_cons, prefix_nil. cbn. lia.
  - apply Contains_false_cons in Hg as [Hp Hc].
    rewrite append_cons. cbn [Index_from].
    assert (String.prefix "] " (String c (g +:+ ("] " +:+ m))) = false) as ->.
    { rewrite prefix_cons in Hp |- *.
      destruct (Ascii.ascii_dec "]" c); [|done].
      destruct g as [|d g]; [reflexivity|].
      rewrite append_cons, prefix_cons. rewrite prefix_cons in Hp.
      destruct (Ascii.ascii_dec " " d); [|done].
      by rewrite prefix_nil in Hp. }
    rewrite IH by done. cbn [String.length]. lia.
Qed.

Lemma stripBrackets_fuel (n : nat) :
  forall (fuel1 fuel2 : nat) (msg : string),
    (String.length msg <= n)%nat ->
    (String.length msg <= fuel1)%nat -> (String.length msg <= fuel2)%nat ->
    stripBrackets fuel1 msg = stripBrackets fuel2 msg.
Proof.
  induction n as [|n IH]; intros fuel1 fuel2 msg Hn H1 H2.
  - destruct msg; [|cbn in Hn; lia]. by destruct fuel1, fuel2.
  - destruct msg as [|c msg]; [by destruct fuel1, fuel2|].
    destruct fuel1 as [|fuel1]; [cbn in H1; lia|].
    destruct fuel2 as [|fuel2]; [cbn in H2; lia|].
    cbn [stripBrackets]. destruct (HasPrefix (String c msg) "["); [|done].
    destruct (Index_from_range (String c msg) "] " 0) as [Hi|[Hi Hj]]; [lia| |];
      fold (Index (String c msg) "] ") in *.
    + by rewrite Hi.
    + assert ((Index (String c msg) "] " =? -1) = false) as ->
        by (apply Z.eqb_neq; lia).
      cbn [negb].
      assert (String.length
                (from (Z.to_nat (Index (String c msg) "] " + 2)) (String c msg))
              <= String.length msg)%nat as Hl.
      { rewrite length_from. cbn [String.length] in *. lia. }
      cbn [String.length] in Hn, H1, H2. apply IH; lia.
Qed.

Lemma stripBrackets_group (fuel : nat) (g m : string) :
  Contains g "] " = false ->
  stripBrackets (S fuel) ("[" +:+ (g +:+ ("] " +:+ m))) = stripBrackets fuel m.
Proof.
  intros Hg. cbn [stripBrackets].
  change ("[" +:+ (g +:+ ("] " +:+ m))) with (String "[" (g +:+ ("] " +:+ m))).
  assert (HasPrefix (String "[" (g +:+ ("] " +:+ m))) "[" = true) as ->
    by (unfold HasPrefix; rewrite prefix_cons; cbn; apply prefix_nil).
  unfold Index. cbn [Index_from]. rewrite prefix_cons.
  destruct (Ascii.ascii_dec "]" "[") as [Heq|_]; [discriminate Heq|].
  rewrite Index_from_close by done.
  assert ((0 + 1 + Z.of_nat (String.length g) =? -1) = false) as ->
    by (apply Z.eqb_neq; lia).
  cbn [negb].
  replace (Z.to_nat (0 + 1 + Z.of_nat (String.length g) + 2))
    with (S (String.length g + 2)) by lia.
  cbn [from]. rewrite from_add, from_append. reflexivity.
Qed.

(** X28.  What [extractLogContent] makes of a log line.  Its result
    never carries a white-space rune, ASCII or not, at either end, so
    that trimming it again changes nothing.  A bracketed group at the
    head of the line, up to the first closing bracket followed by a
    space, is transparent: the line gives what the rest of it gives.  A
    line that does not start with a bracket and holds one level tag
    ([NOTICE:], [INFO  :], [DEBUG :], [ERROR :] or [WARNING:]), with no
    other level tag anywhere and no second occurrence behind it, gives
    the text behind the tag, trimmed, whatever precedes the tag.  A line
    without bracket at its head and without level tag is trimmed and
    nothing else. *)
Theorem log_content_of_rclone_lines :
  (forall m, TrimSpace (extractLogContent m) = extractLogContent m)
  /\ (forall m,
        let bs := String.list_ascii_of_string (extractLogContent m) in
        cutRune spaceRunes bs = None
        /\ cutRune (map reverse spaceRunes) (reverse bs) = None)
  /\ (forall g m,
        Contains g "] " = false ->
        extractLogContent ("[" +:+ (g +:+ ("] " +:+ m))) = extractLogContent m)
  /\ (forall tag pre body,
        tag ∈ levelTags ->
        HasPrefix (pre +:+ (tag +:+ body)) "[" = false ->
        (forall t, t ∈ levelTags -> t <> tag ->
           Contains (pre +:+ (tag +:+ body)) t = false) ->
        Contains body tag = false ->
        extractLogContent (pre +:+ (tag +:+ body)) = TrimSpace body)
  /\ (forall m,
        HasPrefix m "[" = false ->
        (forall t, t ∈ levelTags -> Contains m t = false) ->
        extractLogContent m = TrimSpace m).
Proof.
  split; [intros m; apply TrimSpace_idem|].
  split.
  { intros m. cbv zeta. unfold extractLogContent, TrimSpace.
    rewrite String.list_ascii_of_string_of_list_ascii. apply trim_ends. }
  split.
  { intros g m Hg. unfold extractLogContent. f_equal. f_equal.
    rewrite !length_append. cbn [String.length Nat.add].
    rewrite stripBrackets_group by done.
    apply (stripBrackets_fuel (String.length m)); lia. }
  split.
  { intros tag pre body Ht Hp Ho Hb. unfold extractLogContent.
    rewrite stripBrackets_plain by done. by rewrite stripLevel_tag. }
  intros m Hp Hn. unfold extractLogContent.
  rewrite stripBrackets_plain by done. f_equal.
  unfold levelTags in *. cbn [stripLevel].
  rewrite !LastIndex_absent by (apply Hn; set_solver). reflexivity.
Qed.

Lemma log_content_of_rclone_lines_witness :
  extractLogContent "[task-1] 2026/02/10 20:18:46 NOTICE: actual message"
  = "actual message"
  /\ extractLogContent ("INFO  :" +:+ (nbsp +:+ ("x " +:+ nbsp))) = "x".
Proof.
  destruct log_content_of_rclone_lines as (_ & _ & Hg & Ht & _).
  split.
  - change "[task-1] 2026/02/10 20:18:46 NOTICE: actual message"
      with ("[" +:+ ("task-1"
                     +:+ ("] " +:+ "2026/02/10 20:18:46 NOTICE: actual message"))).
    rewrite Hg by (vm_compute; reflexivity).
    change "2026/02/10 20:18:46 NOTICE: actual message"
      with ("2026/02/10 20:18:46 " +:+ ("NOTICE:" +:+ " actual message")).
    rewrite Ht.
    + vm_compute. reflexivity.
    + unfold levelTags. apply list_elem_of_here.
    + vm_compute. reflexivity.
    + intros t Hin Hne. unfold levelTags in Hin.
      repeat (apply elem_of_cons in Hin as [->|Hin]);
        [done|vm_compute; reflexivity..|by apply elem_of_nil in Hin].
    + vm_compute. reflexivity.
  - change ("INFO  :" +:+ (nbsp +:+ ("x " +:+ nbsp)))
      with ("" +:+ ("INFO  :" +:+ (nbsp +:+ ("x " +:+ nbsp)))).
    rewrite (Ht "INFO  :" "" (nbsp +:+ ("x " +:+ nbsp))).
    + vm_compute. reflexivity.
    + unfold levelTags. apply list_elem_of_further, list_elem_of_here.
    + vm_compute. reflexivity.
    + intros t Hin Hne. unfold levelTags in Hin.
      repeat (apply elem_of_cons in Hin as [->|Hin]);
        [vm_compute; reflexivity|done|vm_compute; reflexivity..
        |by apply elem_of_nil in Hin].
    + vm_compute. reflexivity.
Defined.

End LogContent.
